(** * Nearest-neighbour analysis (packages/turf-nearest-neighbor-analysis)

    A shallow embedding of [nearestNeighborAnalysis] and of the import
    helper from [index.js], the properties its specification states about
    the function, and further properties that the code shows.

    JavaScript numbers are kept behind the interface [Number]; its instance
    is IEEE 754 binary64 (Rocq's primitive floats, what the engine
    computes).  Objects live in a store, because the function writes into
    the objects it is handed: [properties.nearestNeighborAnalysis = ...] and
    [studyArea.properties = properties].

    The file has the model first (numbers, the store, the measurement
    library, [index.js], a planar kernel and example inputs), then the
    vocabulary of the properties, then the lemmas and the theorems: those
    of the specification, then those read off the code (what a call that
    throws leaves behind, what the result depends on, calls in sequence,
    the edge cases of the arithmetic, the order that the rounding of
    doubles keeps, when the call returns), then the examples, run.  The
    real numbers serve the proofs about rounding only: every statement
    about the program is about its doubles. *)

From Stdlib Require Import ZArith String List Floats Reals Lra Lia.
From stdpp Require Import gmap strings list.

Local Open Scope string_scope.
Local Open Scope list_scope.

(** ** Numbers *)

(** The arithmetic [index.js] uses on JavaScript numbers. *)
Class Number (T : Type) := {
  num_of_nat : nat -> T;          (* integer literals and [features.length] *)
  num_add : T -> T -> T;
  num_sub : T -> T -> T;
  num_mul : T -> T -> T;
  num_div : T -> T -> T;
  num_sqrt : T -> T;              (* [Math.sqrt] *)
  num_ltb : T -> T -> bool;       (* [<] *)
  num_0_26136 : T                 (* the literal [0.26136] *)
}.

Declare Scope num_scope.
Delimit Scope num_scope with num.
Infix "+" := num_add : num_scope.
Infix "-" := num_sub : num_scope.
Infix "*" := num_mul : num_scope.
Infix "/" := num_div : num_scope.

(** IEEE 754 binary64.  An array length is below 2^32, so it converts
    exactly. *)
#[export] Instance float_Number : Number float := {|
  num_of_nat n := PrimFloat.of_uint63 (Uint63.of_Z (Z.of_nat n));
  num_add := PrimFloat.add;
  num_sub := PrimFloat.sub;
  num_mul := PrimFloat.mul;
  num_div := PrimFloat.div;
  num_sqrt := PrimFloat.sqrt;
  num_ltb := PrimFloat.ltb;
  num_0_26136 := 0x1.0ba1f4b1ee243p-2%float
|}.

(** ** Values, objects and the store *)

Definition loc := positive.
Bind Scope positive_scope with loc.

Section Store.
Context {T G : Type}.

(** A JavaScript value.  [G] is the geometry type of the measurement
    library: a feature's geometry is read by this package and never
    written, so it is kept as an immutable value. *)
Inductive value :=
| VUndefined
| VNull
| VNum (x : T)
| VStr (s : string)
| VRef (l : loc)
| VGeom (g : G).

(** An object: its named properties and, for an array, its elements. *)
Record object := Object {
  fields : gmap string value;
  items : list value
}.

(** The store. *)
Local Abbreviation heap := (gmap loc object).

Inductive error :=
| TypeError (msg : string)
| Error (msg : string).

Inductive outcome (A : Type) :=
| Returned (a : A)
| Thrown (e : error).
Global Arguments Returned {A} a.
Global Arguments Thrown {A} e.

(** A computation reads and writes the store, and returns or throws. *)
Definition M (A : Type) : Type := heap -> outcome A * heap.

Definition ret {A} (a : A) : M A := fun h => (Returned a, h).
Definition throw {A} (e : error) : M A := fun h => (Thrown e, h).
Definition bind {A B} (m : M A) (k : A -> M B) : M B :=
  fun h => match m h with
           | (Returned a, h') => k a h'
           | (Thrown e, h') => (Thrown e, h')
           end.
(** A collaborator that only computes: its exception is rethrown. *)
Definition lift {A} (r : outcome A) : M A := fun h => (r, h).

(** [{...}] and [[...]]: a new object at a location not yet in use. *)
Definition alloc (o : object) : M value :=
  fun h => let l := fresh (dom h) in (Returned (VRef l), <[l := o]> h).
Definition new_object (fs : gmap string value) : M value := alloc (Object fs []).
Definition new_array (xs : list value) : M value := alloc (Object ∅ xs).

(** The object [v] stands for, as a property access sees it: a primitive
    has no property of its own, and [null] and [undefined] throw.  (A
    reference to no object does not occur in a JavaScript heap.) *)
Definition deref (v : value) : M object :=
  fun h => match v with
           | VRef l => match h !! l with
                       | Some o => (Returned o, h)
                       | None => (Thrown (Error "dangling reference"), h)
                       end
           | VUndefined | VNull =>
               (Thrown (TypeError "Cannot read properties of null or undefined"), h)
           | _ => (Returned (Object ∅ []), h)
           end.

(** [v.k] *)
Definition get_prop (v : value) (k : string) : M value :=
  bind (deref v) (fun o => ret (default VUndefined (fields o !! k))).

(** [v.k = x] (strict mode: a primitive receiver throws).  The objects of
    the store are ordinary objects, as the features and property bags of
    the specification are: none is frozen or sealed and no member is
    read-only, so that an assignment to an object is accepted.  The
    [TypeError] here stands for a rejected assignment. *)
Definition set_prop (v : value) (k : string) (x : value) : M unit :=
  fun h => match v with
           | VRef l => match h !! l with
                       | Some o => (Returned tt, <[l := Object (<[k := x]> (fields o)) (items o)]> h)
                       | None => (Thrown (Error "dangling reference"), h)
                       end
           | _ => (Thrown (TypeError "Cannot create or set property"), h)
           end.

(** [a.push(x)] *)
Definition array_push (a : value) (x : value) : M unit :=
  fun h => match a with
           | VRef l => match h !! l with
                       | Some o => (Returned tt, <[l := Object (fields o) (items o ++ [x])]> h)
                       | None => (Thrown (Error "dangling reference"), h)
                       end
           | _ => (Thrown (TypeError "push is not a function"), h)
           end.

(** The elements of the array [a]. *)
Definition array_items (a : value) : M (list value) :=
  bind (deref a) (fun o => ret (items o)).

(** [o || d] for [o] an object reference or [undefined]. *)
Definition or_else (o : option loc) (d : M value) : M value :=
  match o with
  | Some l => ret (VRef l)
  | None => d
  end.
End Store.

Global Arguments value : clear implicits.
Global Arguments object : clear implicits.
Global Arguments M : clear implicits.

Abbreviation heap T G := (gmap loc (object T G)).

#[export] Instance M_ret {T G} : MRet (M T G) := fun _ a => ret a.
#[export] Instance M_bind {T G} : MBind (M T G) := fun _ _ k m => bind m k.

(** ** The measurement library *)

(** @turf/area, bbox, bbox-polygon, centroid, distance, nearest-point,
    helpers and meta are imported by [index.js]; their sources are not part
    of this package.  Their geometry is taken as a parameter, [Kernel], and
    the object-level functions are modelled on top of it from the interface
    the specification gives for each. *)
Record Kernel (T G : Type) := {
  centroid_of : G -> outcome G;
  area_of : G -> outcome T;                       (* square metres *)
  distance_between : G -> G -> string -> outcome T;
  nearest_index : G -> list G -> outcome nat;
  bbox_of : list G -> outcome (list T);
  bbox_polygon_of : list T -> outcome G;
  convert_area : T -> string -> string -> outcome T
}.
Global Arguments centroid_of {T G} _ _.
Global Arguments area_of {T G} _ _.
Global Arguments distance_between {T G} _ _ _ _.
Global Arguments nearest_index {T G} _ _ _.
Global Arguments bbox_of {T G} _ _.
Global Arguments bbox_polygon_of {T G} _ _.
Global Arguments convert_area {T G} _ _ _ _.

Section Turf.
Context {T G : Type} `{Number T} (K : Kernel T G).

Local Abbreviation value := (value T G).
Local Abbreviation M := (M T G).

(** [for (i = 0; i < xs.length; i++) callback(xs[i], i)] *)
Fixpoint for_each (xs : list value) (i : nat) (callback : value -> nat -> M unit) : M unit :=
  match xs with
  | [] => mret tt
  | x :: xs' => callback x i ;; for_each xs' (S i) callback
  end.

(** [xs.map(callback)], for a callback that returns a number. *)
Fixpoint map_indexed {A} (xs : list value) (i : nat) (callback : value -> nat -> M A) : M (list A) :=
  match xs with
  | [] => mret []
  | x :: xs' => y ← callback x i; ys ← map_indexed xs' (S i) callback; mret (y :: ys)
  end.

(** [xs.filter(function (f, i) { return keep(i) })] *)
Fixpoint filter_indexed (keep : nat -> bool) (xs : list value) (i : nat) : list value :=
  match xs with
  | [] => []
  | x :: xs' => if keep i then x :: filter_indexed keep xs' (S i) else filter_indexed keep xs' (S i)
  end.

(** The geometry of the feature [f]. *)
Definition geometry (f : value) : M G :=
  g ← get_prop f "geometry";
  match g with
  | VGeom g => mret g
  | _ => throw (Error "coordinates must contain numbers")
  end.

(** A new feature object with an empty property bag. *)
Definition feature (g : G) : M value :=
  p ← new_object ∅;
  new_object (<["type" := VStr "Feature"]> (<["geometry" := VGeom g]> {["properties" := p]})).

(** The features of the collection [geojson], in order. *)
Definition collection_features (geojson : value) : M (list value) :=
  ty ← get_prop geojson "type";
  match ty with
  | VStr "FeatureCollection" => fs ← get_prop geojson "features"; array_items fs
  | _ => throw (Error "FeatureCollection is required")
  end.

(** Modelled from the spec: [iterateFeatures(FeatureCollection, visitor)],
    the ordered traversal of @turf/meta. *)
Definition featureEach (geojson : value) (callback : value -> nat -> M unit) : M unit :=
  fs ← collection_features geojson;
  for_each fs 0 callback.

(** The geometries of a list of features. *)
Fixpoint geometries (fs : list value) : M (list G) :=
  match fs with
  | [] => mret []
  | f :: fs' => g ← geometry f; gs ← geometries fs'; mret (g :: gs)
  end.

(** Modelled from the spec: [boundingBox(FeatureCollection) ->
    [minX, minY, maxX, maxY]] of @turf/bbox. *)
Definition bbox (geojson : value) : M value :=
  fs ← collection_features geojson;
  gs ← geometries fs;
  b ← lift (bbox_of K gs);
  new_array (VNum <$> b).

Definition number (v : value) : M T :=
  match v with
  | VNum x => mret x
  | _ => throw (Error "bbox must contain numbers")
  end.

Fixpoint numbers (vs : list value) : M (list T) :=
  match vs with
  | [] => mret []
  | v :: vs' => x ← number v; xs ← numbers vs'; mret (x :: xs)
  end.

(** Modelled from the spec: [polygonFromBoundingBox([minX, minY, maxX,
    maxY]) -> Feature<Polygon>] of @turf/bbox-polygon. *)
Definition bboxPolygon (b : value) : M value :=
  vs ← array_items b;
  xs ← numbers vs;
  g ← lift (bbox_polygon_of K xs);
  feature g.

(** Modelled from the spec: [centroid(Feature) -> Feature<Point>] of
    @turf/centroid. *)
Definition centroid (f : value) : M value :=
  g ← geometry f;
  c ← lift (centroid_of K g);
  feature c.

(** Modelled from the spec: [area(Feature<Polygon>) -> number] of
    @turf/area. *)
Definition area (f : value) : M T :=
  g ← geometry f;
  lift (area_of K g).

(** Modelled from the spec: [distance(Feature<Point>, Feature<Point>,
    unit) -> number] of @turf/distance. *)
Definition distance (from to : value) (units : string) : M T :=
  a ← geometry from;
  b ← geometry to;
  lift (distance_between K a b units).

(** Modelled from the spec: the feature collection constructor of
    @turf/helpers. *)
Definition featureCollection (fs : list value) : M value :=
  a ← new_array fs;
  new_object (<["type" := VStr "FeatureCollection"]> {["features" := a]}).

(** Modelled from the spec: [nearestPoint(Feature<Point>,
    FeatureCollection<Point>) -> Feature<Point>] of @turf/nearest-point.
    The result is a copy of the nearest member of [points]; the search
    over an empty collection is left to the kernel. *)
Definition nearestPoint (targetPoint points : value) : M value :=
  t ← geometry targetPoint;
  fs ← collection_features points;
  gs ← geometries fs;
  i ← lift (nearest_index K t gs);
  match gs !! i with
  | Some g => feature g
  | None => throw (Error "geojson is required")
  end.

(** Modelled from the spec: [convertArea(number, fromUnit, toUnit) ->
    number] of @turf/helpers. *)
Definition convertArea (a : T) (originalUnit finalUnit : string) : M T :=
  lift (convert_area K a originalUnit finalUnit).
End Turf.

(** ** [index.js] *)

(** The [options] argument: each member is either absent or of its
    documented type ([Feature<Polygon>], [string], [Object]). *)
Record Options := {
  opt_studyArea : option loc;
  opt_units : option string;
  opt_properties : option loc
}.

(** [{}] *)
Definition no_options : Options :=
  {| opt_studyArea := None; opt_units := None; opt_properties := None |}.

(** [s || d] for a string or [undefined]: the empty string is falsy. *)
Definition string_or (s : option string) (d : string) : string :=
  match s with
  | Some s => if String.eqb s "" then d else s
  | None => d
  end.

Section Analysis.
Context {T G : Type} `{Number T} (K : Kernel T G).

Local Abbreviation value := (value T G).
Local Abbreviation M := (M T G).

(** Lines 81 to 83. *)
Definition populationDensity (n : nat) (convertedArea : T) : T :=
  (num_of_nat n / convertedArea)%num.

Definition expectedMeanDistance (populationDensity : T) : T :=
  (num_of_nat 1 / (num_of_nat 2 * num_sqrt populationDensity))%num.

Definition variance (n : nat) (populationDensity : T) : T :=
  (num_0_26136 / num_sqrt (num_of_nat n * populationDensity))%num.

(** [.reduce(function (sum, value) { return sum + value; }, 0)] *)
Definition sum (values : list T) : T :=
  fold_left (fun sum value => (sum + value)%num) values (num_of_nat 0).

(** [nearestNeighborAnalysis(dataset, options)], lines 64 to 95, statement
    by statement; the locals keep their names.  [dataset] is a value, so
    that [null] and [undefined] can be passed for it.  The two anonymous
    callbacks are the two [fun]s.  [features] is an array of the store,
    since the first callback pushes on it; the arrays that [map] and
    [filter] return are used once and are lists.  The third argument of
    [distance], [{ units: units }], is passed as the unit. *)
Definition nearestNeighborAnalysis (dataset : value) (options : option Options) : M value :=
  let options := default no_options options in
  studyArea ← or_else (opt_studyArea options) (b ← bbox K dataset; bboxPolygon K b);
  properties ← or_else (opt_properties options) (new_object ∅);
  let units := string_or (opt_units options) "kilometers" in
  features ← new_array [];
  featureEach dataset (fun feature _ =>
    c ← centroid K feature;
    array_push features c);;
  elements ← array_items features;
  let n := length elements in
  distances ← map_indexed elements 0 (fun feature index =>
    current ← array_items features;
    otherFeatures ← featureCollection
      (filter_indexed (fun i => negb (Nat.eqb i index)) current 0);
    nearest ← nearestPoint K feature otherFeatures;
    distance K feature nearest units);
  let observedMeanDistance := (sum distances / num_of_nat n)%num in
  a ← area K studyArea;
  convertedArea ← convertArea K a "meters" units;
  let populationDensity := populationDensity n convertedArea in
  let expectedMeanDistance := expectedMeanDistance populationDensity in
  let variance := variance n populationDensity in
  result ← new_object
    (<["units" := VStr units]>
    (<["arealUnits" := VStr (units ++ "²")%string]>
    (<["observedMeanDistance" := VNum observedMeanDistance]>
    (<["expectedMeanDistance" := VNum expectedMeanDistance]>
    (<["nearestNeighborIndex" := VNum (observedMeanDistance / expectedMeanDistance)%num]>
    (<["numberOfPoints" := VNum (num_of_nat n)]>
    {["zScore" := VNum ((observedMeanDistance - expectedMeanDistance) / variance)%num]}))))));
  set_prop properties "nearestNeighborAnalysis" result;;
  set_prop studyArea "properties" properties;;
  mret studyArea.

(** *** Reading a result back *)

(** [l.k] in the store [h], when the object has the member. *)
Definition field (h : heap T G) (l : loc) (k : string) : option value :=
  o ← h !! l; fields o !! k.

(** The property bag of the feature [v]. *)
Definition property_bag (h : heap T G) (v : value) : option loc :=
  match v with
  | VRef l => match field h l "properties" with
              | Some (VRef p) => Some p
              | _ => None
              end
  | _ => None
  end.

(** [v.properties.nearestNeighborAnalysis.k] *)
Definition analysis_field (h : heap T G) (v : value) (k : string) : option value :=
  p ← property_bag h v;
  match field h p "nearestNeighborAnalysis" with
  | Some (VRef r) => field h r k
  | _ => None
  end.
End Analysis.

(** ** A planar measurement kernel *)

(** Modelled from the spec: an instance of the geometry collaborators
    (area, bounding box, centroid, distance, nearest-point search and unit
    conversion) for points and simple rings in the plane, with coordinates
    in metres.  It runs the analysis on concrete inputs. *)
Inductive plane (T : Type) :=
| Point (x y : T)
| Polygon (ring : list (T * T)).
Global Arguments Point {T} x y.
Global Arguments Polygon {T} ring.

Section Planar.
Context {T : Type} `{Number T}.

Definition num_abs (x : T) : T :=
  if num_ltb x (num_of_nat 0) then (num_of_nat 0 - x)%num else x.
Definition num_min (x y : T) : T := if num_ltb y x then y else x.
Definition num_max (x y : T) : T := if num_ltb x y then y else x.

(** Units per metre. *)
Definition length_factor (units : string) : option T :=
  if String.eqb units "meters" then Some (num_of_nat 1)
  else if String.eqb units "kilometers" then Some (num_of_nat 1 / num_of_nat 1000)%num
  else None.

(** Square units per square metre. *)
Definition area_factor (units : string) : option T :=
  if String.eqb units "meters" then Some (num_of_nat 1)
  else if String.eqb units "kilometers"
       then Some (num_of_nat 1 / (num_of_nat 1000 * num_of_nat 1000))%num
  else None.

Definition planar_convert_area (a : T) (originalUnit finalUnit : string) : outcome T :=
  match area_factor originalUnit, area_factor finalUnit with
  | Some startFactor, Some finalFactor => Returned ((a / startFactor) * finalFactor)%num
  | None, _ => Thrown (Error "invalid original units")
  | _, None => Thrown (Error "invalid final units")
  end.

Definition vertices (g : plane T) : list (T * T) :=
  match g with
  | Point x y => [(x, y)]
  | Polygon ring => ring
  end.

Definition planar_distance (a b : plane T) (units : string) : outcome T :=
  match a, b, length_factor units with
  | Point x1 y1, Point x2 y2, Some f =>
      Returned (num_sqrt ((x1 - x2) * (x1 - x2) + (y1 - y2) * (y1 - y2)) * f)%num
  | _, _, None => Thrown (Error "units is invalid")
  | _, _, _ => Thrown (Error "coordinates must be a point")
  end.

(** The mean of the vertices (of a ring: without its closing vertex). *)
Definition planar_centroid (g : plane T) : outcome (plane T) :=
  match g with
  | Point x y => Returned (Point x y)
  | Polygon [] => Thrown (Error "no coordinates")
  | Polygon (_ :: open) =>
      let n := num_of_nat (length open) in
      Returned (Point (fold_left (fun s p => s + fst p) open (num_of_nat 0) / n)
                      (fold_left (fun s p => s + snd p) open (num_of_nat 0) / n))%num
  end.

(** Twice the signed area of a closed ring (the shoelace sum). *)
Fixpoint shoelace (ring : list (T * T)) : T :=
  match ring with
  | (x1, y1) :: (((x2, y2) :: _) as rest) => ((x1 * y2 - x2 * y1) + shoelace rest)%num
  | _ => num_of_nat 0
  end.

Definition planar_area (g : plane T) : outcome T :=
  match g with
  | Point _ _ => Returned (num_of_nat 0)
  | Polygon ring => Returned (num_abs (shoelace ring) / num_of_nat 2)%num
  end.

(** The search of the nearest point: [minDist] starts at [Infinity]
    ([None]) and [bestFeatureIndex] at 0; an index is taken when its
    distance is below [minDist]. *)
Fixpoint nearest_from (t : plane T) (gs : list (plane T)) (featureIndex : nat)
    (bestFeatureIndex : nat) (minDist : option T) : outcome nat :=
  match gs with
  | [] => Returned bestFeatureIndex
  | g :: gs' =>
      match planar_distance t g "kilometers" with
      | Returned d =>
          if match minDist with Some m => num_ltb d m | None => true end
          then nearest_from t gs' (S featureIndex) featureIndex (Some d)
          else nearest_from t gs' (S featureIndex) bestFeatureIndex minDist
      | Thrown e => Thrown e
      end
  end.

Definition planar_nearest (t : plane T) (gs : list (plane T)) : outcome nat :=
  nearest_from t gs 0 0 None.

Definition planar_bbox (gs : list (plane T)) : outcome (list T) :=
  match concat (vertices <$> gs) with
  | [] => Thrown (Error "no coordinates")
  | (x, y) :: ps =>
      Returned [fold_left (fun m p => num_min m (fst p)) ps x;
                fold_left (fun m p => num_min m (snd p)) ps y;
                fold_left (fun m p => num_max m (fst p)) ps x;
                fold_left (fun m p => num_max m (snd p)) ps y]
  end.

Definition planar_bbox_polygon (b : list T) : outcome (plane T) :=
  match b with
  | [west; south; east; north] =>
      Returned (Polygon [(west, south); (east, south); (east, north); (west, north); (west, south)])
  | _ => Thrown (Error "bbox must have four positions")
  end.

Definition planar : Kernel T (plane T) := {|
  centroid_of := planar_centroid;
  area_of := planar_area;
  distance_between := planar_distance;
  nearest_index := planar_nearest;
  bbox_of := planar_bbox;
  bbox_polygon_of := planar_bbox_polygon;
  convert_area := planar_convert_area
|}.

(** A store holding one feature per geometry of [gs] and their collection. *)
Fixpoint features_of (gs : list (plane T)) : M T (plane T) (list (value T (plane T))) :=
  match gs with
  | [] => mret []
  | g :: gs' => f ← feature g; fs ← features_of gs'; mret (f :: fs)
  end.

Definition collection_of (gs : list (plane T)) : M T (plane T) (value T (plane T)) :=
  fs ← features_of gs; featureCollection fs.
End Planar.

(** * Example inputs *)

Section Examples.
Context {T : Type} `{Number T}.

Local Abbreviation value := (value T (plane T)).

(** The rectangle of the given width and of height 1000, as a closed
    ring. *)
Definition rectangle (width : T) : plane T :=
  Polygon [(num_of_nat 0, num_of_nat 0); (width, num_of_nat 0);
           (width, num_of_nat 1000); (num_of_nat 0, num_of_nat 1000);
           (num_of_nat 0, num_of_nat 0)].

(** Two points one kilometre apart. *)
Definition pair : list (plane T) :=
  [Point (num_of_nat 0) (num_of_nat 0); Point (num_of_nat 1000) (num_of_nat 0)].

(** The corners of a square of side one kilometre. *)
Definition square : list (plane T) :=
  [Point (num_of_nat 0) (num_of_nat 0); Point (num_of_nat 1000) (num_of_nat 0);
   Point (num_of_nat 1000) (num_of_nat 1000); Point (num_of_nat 0) (num_of_nat 1000)].

(** The property bag of a study area that was analysed before. *)
Definition analysed_bag : gmap string value :=
  <["nearestNeighborAnalysis" := VStr "stale"]> {["name" := VStr "park"]}.

(** A new feature object with the property bag [bag]. *)
Definition feature_with (g : plane T) (bag : gmap string value) : M T (plane T) value :=
  p ← new_object bag;
  new_object (<["type" := VStr "Feature"]> (<["geometry" := VGeom g]> {["properties" := p]})).

(** A store with four datasets (of two, four, no and one point), two
    study areas, rectangles of the widths [w1] and [w2], the first of which
    has been analysed before, and an object of custom properties. *)
Definition example_store (w1 w2 : T) : heap T (plane T) :=
  snd ((collection_of pair;;
        feature_with (rectangle w1) analysed_bag;;
        feature (rectangle w2);;
        collection_of square;;
        collection_of [];;
        collection_of [Point (num_of_nat 0) (num_of_nat 0)];;
        new_object {["foo" := VStr "bar"]}) ∅).
End Examples.


(** The store in double precision.  The second study area is wider than
    the first by one unit in the last place. *)
Definition float_store : heap float (plane float) :=
  example_store 2000%float (next_up 2000%float).

(** Where the objects of the store are. *)
Definition pair_dataset {T} : value T (plane T) := VRef 6.
Definition first_area : loc := 8.
Definition second_area : loc := 10.
Definition square_dataset {T} : value T (plane T) := VRef 20.
Definition empty_dataset {T} : value T (plane T) := VRef 22.
Definition single_dataset {T} : value T (plane T) := VRef 26.
Definition custom_properties : loc := 27.

(** [{ studyArea: s }] *)
Definition within (s : loc) : option Options :=
  Some {| opt_studyArea := Some s; opt_units := None; opt_properties := None |}.

(** The calls of the examples, in double precision. *)
Abbreviation square_call :=
  (nearestNeighborAnalysis (T := float) planar square_dataset None float_store).
Abbreviation first_call :=
  (nearestNeighborAnalysis (T := float) planar pair_dataset (within first_area) float_store).
Abbreviation second_call :=
  (nearestNeighborAnalysis (T := float) planar pair_dataset (within second_area) float_store).
Abbreviation empty_call :=
  (nearestNeighborAnalysis (T := float) planar empty_dataset (within first_area) float_store).
Abbreviation single_call :=
  (nearestNeighborAnalysis (T := float) planar single_dataset (within first_area) float_store).

(** The features of the square dataset. *)
Definition square_features : list (value float (plane float)) :=
  [VRef 12; VRef 14; VRef 16; VRef 18].

(** The study area drawn around the square dataset. *)
Definition square_study : value float (plane float) := VRef 30.

(** The first example study area, as the store has it. *)
Definition first_area_object : object float (plane float) :=
  Object (<["type" := VStr "Feature"]>
          (<["geometry" := VGeom (rectangle 2000%float)]> {["properties" := VRef 7]})) [].

(** [{ studyArea: s, properties: p }] *)
Definition within_with (s p : loc) : option Options :=
  Some {| opt_studyArea := Some s; opt_units := None; opt_properties := Some p |}.

Abbreviation custom_call :=
  (nearestNeighborAnalysis (T := float) planar pair_dataset
     (within_with first_area custom_properties) float_store).

(** * The vocabulary of the properties *)

Section Vocabulary.
Context {T G : Type} `{Number T} (K : Kernel T G).

Local Abbreviation value := (value T G).
Local Abbreviation heap := (heap T G).
Local Abbreviation M := (M T G).

(** A computation that only reads: it leaves the store as it is, and gives
    the same result in every store that extends it. *)
Definition reads {A} (m : M A) : Prop :=
  forall h a h', m h = (Returned a, h') ->
    h' = h /\ forall h2, h ⊆ h2 -> m h2 = (Returned a, h2).

(** The geometry member of the object at [l]. *)
Definition geom_at (h : heap) (l : loc) : option G :=
  match field h l "geometry" with
  | Some (VGeom g) => Some g
  | _ => None
  end.

(** Every object but the one at [lf] is kept as it is. *)
Definition frame (lf : loc) (h h' : heap) : Prop :=
  forall l o, l <> lf -> h !! l = Some o -> h' !! l = Some o.

(** The first pass: [featureEach(dataset, function (feature) {
    features.push(centroid(feature)) })]. *)
Definition push_centroid (features : value) : value -> nat -> M unit :=
  fun feature _ => c ← centroid K feature; array_push features c.

(** What one feature of the dataset became: read in a store [hk] reached
    during the pass, its geometry [g] has the centroid [cg]. *)
Definition reduced (lf : loc) (h : heap) (x : value) (cg : G) : Prop :=
  exists hk g, frame lf h hk /\ geometry x hk = (Returned g, hk) /\
               centroid_of K g = Returned cg.

(** The second pass: the callback of [features.map]. *)
Definition measure_nearest (features : value) (units : string) : value -> nat -> M T :=
  fun feature index =>
    current ← array_items features;
    otherFeatures ← featureCollection
      (filter_indexed (fun i => negb (Nat.eqb i index)) current 0);
    nearest ← nearestPoint K feature otherFeatures;
    distance K feature nearest units.

(** [d] is the distance from the [i]-th centroid to the one the search
    picked among all the centroids but the [i]-th. *)
Definition measured (cgs : list G) (units : string) (i : nat) (d : T) : Prop :=
  exists cg k near,
    cgs !! i = Some cg /\
    nearest_index K cg (delete i cgs) = Returned k /\
    delete i cgs !! k = Some near /\
    distance_between K cg near units = Returned d.

(** [g] is the polygon of the bounding box of [dataset]: the study area
    the call makes when none is given. *)
Definition bounding_polygon (dataset : value) (h : heap) (g : G) : Prop :=
  exists fs gs b,
    collection_features dataset h = (Returned fs, h) /\
    geometries fs h = (Returned gs, h) /\
    bbox_of K gs = Returned b /\
    bbox_polygon_of K b = Returned g.

(** The last three statements: the result object is created, entered in
    the property bag, and the bag is made the study area's. *)
Definition store_result (studyArea properties : value) (R : gmap string value) : M value :=
  result ← new_object R;
  set_prop properties "nearestNeighborAnalysis" result;;
  set_prop studyArea "properties" properties;;
  mret studyArea.

End Vocabulary.

(** What a call that returned went through: the objects it resolved and
    created, and the numbers it measured on the way. *)
Record Run (T G : Type) := {
  run_study : loc;                      (* [studyArea] *)
  run_bag : loc;                        (* [properties] *)
  run_result : loc;                     (* [properties.nearestNeighborAnalysis] *)
  run_store : heap T G;                 (* the store when the dataset was traversed *)
  run_features : list (value T G);      (* the features of the dataset *)
  run_centroids : list G;               (* their centroids: [features] *)
  run_distances : list T;               (* the nearest-neighbour distance of each *)
  run_geometry : G;                     (* the geometry of the study area *)
  run_area : T;                         (* [area(studyArea)] *)
  run_converted : T                     (* [convertArea(area(studyArea), 'meters', units)] *)
}.
Global Arguments run_study {T G} _.
Global Arguments run_bag {T G} _.
Global Arguments run_result {T G} _.
Global Arguments run_store {T G} _.
Global Arguments run_features {T G} _.
Global Arguments run_centroids {T G} _.
Global Arguments run_distances {T G} _.
Global Arguments run_geometry {T G} _.
Global Arguments run_area {T G} _.
Global Arguments run_converted {T G} _.

Section RunVocabulary.
Context {T G : Type} `{Number T} (K : Kernel T G).

Local Abbreviation value := (value T G).
Local Abbreviation heap := (heap T G).

(** [options.units || 'kilometers'] *)
Definition resolved_units (options : option Options) : string :=
  string_or (opt_units (default no_options options)) "kilometers".

(** The geometry of the study area a call works on: that of
    [options.studyArea], or the bounding box polygon of the dataset. *)
Definition study_geometry (dataset : value) (options : option Options) (h : heap)
    (g : G) : Prop :=
  match opt_studyArea (default no_options options) with
  | Some s => geometry (VRef s) h = (Returned g, h)
  | None => bounding_polygon K dataset h g
  end.

(** The numbers of a run, as lines 74 to 83 compute them. *)
Definition run_n (r : Run T G) : nat := length (run_centroids r).
Definition run_observed (r : Run T G) : T :=
  (sum (run_distances r) / num_of_nat (run_n r))%num.
Definition run_density (r : Run T G) : T :=
  populationDensity (run_n r) (run_converted r).
Definition run_expected (r : Run T G) : T := expectedMeanDistance (run_density r).
Definition run_variance (r : Run T G) : T := variance (run_n r) (run_density r).

(** [ran K dataset options h h' v r]: the call on [dataset] and [options]
    in the store [h] returned [v] and left the store [h'], and [r] is what
    it went through.  The members say where the study area and the property
    bag came from, what was traversed and measured, what the result object
    holds, and what the call left as it was. *)
Record ran (dataset : value) (options : option Options) (h h' : heap) (v : value)
    (r : Run T G) : Prop := {
  ran_value : v = VRef (run_study r);
  ran_study :
    match opt_studyArea (default no_options options) with
    | Some s => run_study r = s
    | None => h !! run_study r = None /\ bounding_polygon K dataset h (run_geometry r)
    end;
  ran_bag :
    match opt_properties (default no_options options) with
    | Some p => run_bag r = p
    | None => h !! run_bag r = None
    end;
  ran_store : h ⊆ run_store r;
  ran_features :
    collection_features dataset (run_store r) = (Returned (run_features r), run_store r);
  ran_reduced :
    Forall2 (fun x cg => exists hk g, h ⊆ hk /\ geometry x hk = (Returned g, hk) /\
                                      centroid_of K g = Returned cg)
            (run_features r) (run_centroids r);
  ran_distances : length (run_distances r) = run_n r;
  ran_measured : forall i d, run_distances r !! i = Some d ->
    measured K (run_centroids r) (resolved_units options) i d;
  ran_geometry : geom_at h' (run_study r) = Some (run_geometry r);
  ran_area : area_of K (run_geometry r) = Returned (run_area r);
  ran_converted :
    convert_area K (run_area r) "meters" (resolved_units options) = Returned (run_converted r);
  ran_result_new : h !! run_result r = None;
  ran_properties : field h' (run_study r) "properties" = Some (VRef (run_bag r));
  ran_entry : field h' (run_bag r) "nearestNeighborAnalysis" = Some (VRef (run_result r));
  ran_units : field h' (run_result r) "units" = Some (VStr (resolved_units options));
  ran_arealUnits :
    field h' (run_result r) "arealUnits" = Some (VStr (resolved_units options ++ "²")%string);
  ran_observedMeanDistance :
    field h' (run_result r) "observedMeanDistance" = Some (VNum (run_observed r));
  ran_expectedMeanDistance :
    field h' (run_result r) "expectedMeanDistance" = Some (VNum (run_expected r));
  ran_nearestNeighborIndex :
    field h' (run_result r) "nearestNeighborIndex" =
    Some (VNum (run_observed r / run_expected r)%num);
  ran_numberOfPoints :
    field h' (run_result r) "numberOfPoints" = Some (VNum (num_of_nat (run_n r)));
  ran_zScore :
    field h' (run_result r) "zScore" =
    Some (VNum ((run_observed r - run_expected r) / run_variance r)%num);
  ran_frame : forall l o, h !! l = Some o -> l <> run_study r -> l <> run_bag r ->
    h' !! l = Some o;
  ran_items : forall l o, h !! l = Some o -> exists o', h' !! l = Some o' /\ items o' = items o;
  ran_fields : forall l o k, h !! l = Some o ->
    k <> "nearestNeighborAnalysis" -> k <> "properties" -> field h' l k = fields o !! k;
  ran_study_kept : forall o k, h !! run_study r = Some o ->
    k <> "properties" -> run_bag r <> run_study r -> field h' (run_study r) k = fields o !! k;
  ran_bag_kept : forall o k, h !! run_bag r = Some o ->
    k <> "nearestNeighborAnalysis" -> run_bag r <> run_study r ->
    field h' (run_bag r) k = fields o !! k;
  ran_bag_new : opt_properties (default no_options options) = None ->
    forall k, k <> "nearestNeighborAnalysis" -> field h' (run_bag r) k = None
}.

End RunVocabulary.

Global Arguments ran_value {T G H K dataset options h h' v r} _.
Global Arguments ran_study {T G H K dataset options h h' v r} _.
Global Arguments ran_bag {T G H K dataset options h h' v r} _.
Global Arguments ran_store {T G H K dataset options h h' v r} _.
Global Arguments ran_features {T G H K dataset options h h' v r} _.
Global Arguments ran_reduced {T G H K dataset options h h' v r} _.
Global Arguments ran_distances {T G H K dataset options h h' v r} _.
Global Arguments ran_measured {T G H K dataset options h h' v r} _.
Global Arguments ran_geometry {T G H K dataset options h h' v r} _.
Global Arguments ran_area {T G H K dataset options h h' v r} _.
Global Arguments ran_converted {T G H K dataset options h h' v r} _.
Global Arguments ran_result_new {T G H K dataset options h h' v r} _.
Global Arguments ran_properties {T G H K dataset options h h' v r} _.
Global Arguments ran_entry {T G H K dataset options h h' v r} _.
Global Arguments ran_units {T G H K dataset options h h' v r} _.
Global Arguments ran_arealUnits {T G H K dataset options h h' v r} _.
Global Arguments ran_observedMeanDistance {T G H K dataset options h h' v r} _.
Global Arguments ran_expectedMeanDistance {T G H K dataset options h h' v r} _.
Global Arguments ran_nearestNeighborIndex {T G H K dataset options h h' v r} _.
Global Arguments ran_numberOfPoints {T G H K dataset options h h' v r} _.
Global Arguments ran_zScore {T G H K dataset options h h' v r} _.
Global Arguments ran_frame {T G H K dataset options h h' v r} _.
Global Arguments ran_items {T G H K dataset options h h' v r} _.
Global Arguments ran_fields {T G H K dataset options h h' v r} _.
Global Arguments ran_study_kept {T G H K dataset options h h' v r} _.
Global Arguments ran_bag_kept {T G H K dataset options h h' v r} _.
Global Arguments ran_bag_new {T G H K dataset options h h' v r} _.

(** ** What a call keeps *)

Section Keeping.
Context {T G : Type}.

Local Abbreviation heap := (heap T G).
Local Abbreviation M := (M T G).

(** The computation [m] keeps the objects of [h0]: run in a store that has
    them, it ends, whether it returns or throws, in a store that has them
    as they were. *)
Definition keeps {A} (h0 : heap) (m : M A) : Prop :=
  forall h o h', h0 ⊆ h -> m h = (o, h') -> h0 ⊆ h'.

(** The computation [m] keeps the objects of [h0] when it throws. *)
Definition keeps_on_throw {A} (h0 : heap) (m : M A) : Prop :=
  forall h e h', h0 ⊆ h -> m h = (Thrown e, h') -> h0 ⊆ h'.
End Keeping.

(** The members of the result object. *)
Definition result_keys : list string :=
  ["units"; "arealUnits"; "observedMeanDistance"; "expectedMeanDistance";
   "nearestNeighborIndex"; "numberOfPoints"; "zScore"].

(** ** The import helper (lines 2 to 4) *)

Module Interop.

(** What [require] gives: a primitive or an object; a function is an
    object for what is read here.  An object is its own members. *)
#[warnings="-register-all"]
Inductive js :=
| JUndefined
| JNull
| JBool (b : bool)
| JNum (x : float)
| JStr (s : string)
| JObject (members : gmap string js).

(** What [&&] and [? :] take for true. *)
Definition truthy (v : js) : bool :=
  match v with
  | JUndefined | JNull => false
  | JBool b => b
  | JNum x => negb (PrimFloat.is_zero x || PrimFloat.is_nan x)
  | JStr s => negb (String.eqb s "")
  | JObject _ => true
  end.

(** [v.k], for a member [k] that no primitive has: [null] and [undefined]
    throw. *)
Definition get (v : js) (k : string) : outcome js :=
  match v with
  | JUndefined | JNull => Thrown (TypeError "Cannot read properties of null or undefined")
  | JObject members => Returned (default JUndefined (members !! k))
  | _ => Returned JUndefined
  end.

(** [function (mod) { return (mod && mod.__esModule) ? mod : { "default":
    mod }; }], the function the helper is when the enclosing [this] has
    none.  [&&] reads the member only of a [mod] that is true. *)
Definition __importDefault (mod_ : js) : outcome js :=
  match (if truthy mod_ then get mod_ "__esModule" else Returned mod_) with
  | Returned flag => Returned (if truthy flag then mod_ else JObject {["default" := mod_]})
  | Thrown e => Thrown e
  end.

(** A module compiled from ECMAScript: an object whose [__esModule] is
    true. *)
Definition esModule (v : js) : bool :=
  match v with
  | JObject members => truthy (default JUndefined (members !! "__esModule"))
  | _ => false
  end.
End Interop.

(** ** More example inputs *)

(** Two squares around the origin, of sides 2 and 4: no vertex of one is a
    vertex of the other, and both have their centroid at the origin. *)
Definition inner_square : plane float :=
  Polygon [(-1, -1); (1, -1); (1, 1); (-1, 1); (-1, -1)]%float.
Definition outer_square : plane float :=
  Polygon [(-2, -2); (2, -2); (2, 2); (-2, 2); (-2, -2)]%float.

(** Whether two geometries have a position in common. *)
Definition shares_position (a b : plane float) : bool :=
  existsb (fun p => existsb (fun q => PrimFloat.eqb (fst p) (fst q) &&
                                      PrimFloat.eqb (snd p) (snd q))
                            (vertices b))
          (vertices a).

(** A store with the dataset of the two squares and a study area. *)
Definition squares_store : heap float (plane float) :=
  snd ((collection_of [inner_square; outer_square];; feature (rectangle 2000%float)) ∅).

Abbreviation squares_call :=
  (nearestNeighborAnalysis (T := float) planar pair_dataset (within first_area)
     squares_store).


(** Two points, the first with a coordinate that is not a number. *)
Definition blurred_pair : list (plane float) := [Point nan 0; Point 1000 0]%float.

(** A store with the dataset of these two points and a study area. *)
Definition nan_store : heap float (plane float) :=
  snd ((collection_of blurred_pair;; feature (rectangle 2000%float)) ∅).

Abbreviation nan_call :=
  (nearestNeighborAnalysis (T := float) planar pair_dataset (within first_area) nan_store).

(** The first call once more, in the store it left. *)
Abbreviation first_call_again :=
  (nearestNeighborAnalysis (T := float) planar pair_dataset (within first_area)
     (snd first_call)).

(** The second study area after the first, with the same property bag. *)
Abbreviation custom_call_then_second :=
  (nearestNeighborAnalysis (T := float) planar pair_dataset
     (within_with second_area custom_properties) (snd custom_call)).

(** The second study area after the first, with no property bag given. *)
Abbreviation first_call_then_second :=
  (nearestNeighborAnalysis (T := float) planar pair_dataset (within second_area)
     (snd first_call)).

(** [{ studyArea: s, units: u }] *)
Definition within_in (s : loc) (u : string) : option Options :=
  Some {| opt_studyArea := Some s; opt_units := Some u; opt_properties := None |}.

(** The dataset of two points measured in metres. *)
Abbreviation meters_call :=
  (nearestNeighborAnalysis (T := float) planar pair_dataset (within_in first_area "meters")
     float_store).

(** The dataset of two points with no study area given: the box drawn
    around two points on one horizontal line has no area. *)
Abbreviation boxed_pair_call :=
  (nearestNeighborAnalysis (T := float) planar pair_dataset None float_store).

(** That box, and the feature made of it. *)
Definition flat_box : plane float :=
  Polygon [(0, 0); (1000, 0); (1000, 0); (0, 0); (0, 0)]%float.
Definition boxed_pair_study : value float (plane float) := VRef 30.

(** The features of the dataset of two points, in double precision. *)
Definition pair_refs : list (value float (plane float)) := [VRef 2; VRef 4].

(** A store like [float_store], whose second study area is twice the
    first, and the calls on the dataset of two points within each. *)
Definition doubling_store : heap float (plane float) :=
  example_store 1000%float 2000%float.

Abbreviation narrow_call :=
  (nearestNeighborAnalysis (T := float) planar pair_dataset (within first_area) doubling_store).
Abbreviation wide_call :=
  (nearestNeighborAnalysis (T := float) planar pair_dataset (within second_area) doubling_store).

(** ** Doubles as real numbers *)

(** What follows names the real number a double stands for, and what
    the rounding of [SpecFloat] does to a real: the vocabulary of the
    properties of the arithmetic in double precision. *)

Section RoundingVocabulary.
Local Open Scope R_scope.

(** [2^e] *)
Definition bpow (e : Z) : R := powerRZ 2 e.

Global Arguments bpow : simpl never.

(** [x / 2^e] *)
Definition scaled (x : R) (e : Z) : R := x * bpow (- e).

(** [located u m l]: the real [u] lies in [[m, m+1)], at the place [l]
    says: on [m], below the middle, on it, or above it. *)
Definition located (u : R) (m : Z) (l : location) : Prop :=
  match l with
  | loc_Exact => u = IZR m
  | loc_Inexact Lt => IZR m < u < IZR m + / 2
  | loc_Inexact Eq => u = IZR m + / 2
  | loc_Inexact Gt => IZR m + / 2 < u < IZR m + 1
  end.

(** The same, of the digits and the two bits [shr] works with. *)
Definition located_record (u : R) (mrs : shr_record) : Prop :=
  (0 <= shr_m mrs)%Z /\ located u (shr_m mrs) (loc_of_shr_record mrs).

(** [n] is the integer nearest to [u], the even one of two as near. *)
Definition is_rne (u : R) (n : Z) : Prop :=
  IZR n - / 2 <= u <= IZR n + / 2 /\
  (u = IZR n + / 2 -> Z.even n = true) /\
  (u = IZR n - / 2 -> Z.even n = true).

(** The exponent a double takes for the real [x]: the least one, [-1074],
    below [2^-1021], and otherwise the one that leaves 53 digits. *)
Definition canon (x : R) (e : Z) : Prop :=
  (e = (-1074)%Z /\ x < bpow (-1021)) \/
  ((-1074 < e)%Z /\ bpow (e + 52) <= x < bpow (e + 53)).

(** The end of [binary_round_aux]: the rounded digits [n] at exponent [e]
    are shifted once more if the rounding carried, and overflow is told. *)
Definition finish (n e : Z) : spec_float :=
  let '(mrs, e') := shr_fexp prec emax n e loc_Exact in
  match shr_m mrs with
  | Z0 => S754_zero false
  | Zpos m => if (e' <=? emax - prec)%Z then S754_finite false m e' else S754_infinity false
  | Zneg _ => S754_nan
  end.

(** [f] is the double the real [x >= 0] rounds to. *)
Definition rounds_to (x : R) (f : spec_float) : Prop :=
  exists e n, canon x e /\ is_rne (scaled x e) n /\ f = finish n e.

(** The digits and the exponent a rounding can end with. *)
Definition pack (n e : Z) : spec_float :=
  match n with
  | Z0 => S754_zero false
  | Zpos m => if (e <=? 971)%Z then S754_finite false m e else S754_infinity false
  | Zneg _ => S754_nan
  end.

(** 0, a positive double, or the infinity. *)
Definition nonneg (f : spec_float) : Prop :=
  match f with
  | S754_zero s => s = false
  | S754_infinity s => s = false
  | S754_finite s m e => s = false /\ SpecFloat.bounded prec emax m e = true
  | S754_nan => False
  end.

(** 0 or a finite double. *)
Definition is_number (f : spec_float) : Prop :=
  match f with
  | S754_zero _ | S754_finite _ _ _ => True
  | _ => False
  end.

(** The real number of a double (0 where it is no number). *)
Definition real_of (f : spec_float) : R :=
  match f with
  | S754_finite _ m e => IZR (Z.pos m) * bpow e
  | _ => 0
  end.

(** A finite double above 0. *)
Definition positive_number (f : spec_float) : Prop :=
  match f with
  | S754_finite false m e => SpecFloat.bounded prec emax m e = true
  | _ => False
  end.

End RoundingVocabulary.

(** * Properties *)

(** ** Computations in the store *)

Section StoreFacts.
Context {T G : Type}.

Local Abbreviation value := (value T G).
Local Abbreviation heap := (heap T G).
Local Abbreviation M := (M T G).

Lemma bind_returned {A B} (m : M A) (k : A -> M B) h b h' :
  (m ≫= k) h = (Returned b, h') ->
  exists a h1, m h = (Returned a, h1) /\ k a h1 = (Returned b, h').
Proof.
  unfold mbind, M_bind, bind. destruct (m h) as [[a|e] h1]; [eauto | discriminate].
Qed.

Lemma bind_eq {A B} (m : M A) (k : A -> M B) h a h1 :
  m h = (Returned a, h1) -> (m ≫= k) h = k a h1.
Proof. unfold mbind, M_bind, bind. by intros ->. Qed.

Lemma bind_thrown {A B} (m : M A) (k : A -> M B) h e h1 :
  m h = (Thrown e, h1) -> (m ≫= k) h = (Thrown e, h1).
Proof. unfold mbind, M_bind, bind. by intros ->. Qed.

Lemma ret_returned {A} (a b : A) (h h' : heap) :
  mret (M := M) a h = (Returned b, h') -> b = a /\ h' = h.
Proof. unfold mret, M_ret, ret. by intros [= -> ->]. Qed.

Lemma lift_returned {A} (r : outcome A) (a : A) (h h' : heap) :
  lift r h = (Returned a, h') -> r = Returned a /\ h' = h.
Proof. unfold lift. by intros [= -> ->]. Qed.

(** An allocation yields a location that was not in use. *)
Lemma alloc_returned (o : object T G) (h h' : heap) v :
  alloc o h = (Returned v, h') ->
  exists l, v = VRef l /\ h !! l = None /\ h' = <[l := o]> h.
Proof.
  unfold alloc. intros [= <- <-]. eexists; split; [done|]. split; [|done].
  apply not_elem_of_dom, is_fresh.
Qed.

Lemma deref_returned (v : value) (h h' : heap) o :
  deref v h = (Returned o, h') ->
  h' = h /\ match v with
            | VRef l => h !! l = Some o
            | VUndefined | VNull => False
            | _ => o = Object ∅ []
            end.
Proof.
  unfold deref. destruct v as [| |x|s|l|g]; try discriminate; try by intros [= <- <-].
  destruct (h !! l); [by intros [= <- <-] | discriminate].
Qed.

Lemma get_prop_returned (v : value) k (h h' : heap) x :
  get_prop v k h = (Returned x, h') ->
  h' = h /\ exists o, deref v h = (Returned o, h) /\ x = default VUndefined (fields o !! k).
Proof.
  unfold get_prop, bind. destruct (deref v h) as [[o|e] h1] eqn:E; [|discriminate].
  apply deref_returned in E as E'. destruct E' as [-> _].
  unfold ret. intros [= <- <-]. eauto.
Qed.

Lemma get_prop_ref (h : heap) l o k :
  h !! l = Some o -> get_prop (VRef l) k h = (Returned (default VUndefined (fields o !! k)), h).
Proof. unfold get_prop, bind, deref. by intros ->. Qed.

Lemma array_items_ref (h : heap) l o :
  h !! l = Some o -> array_items (VRef l) h = (Returned (items o), h).
Proof. unfold array_items, bind, deref. by intros ->. Qed.

Lemma array_items_returned (v : value) (h h' : heap) xs :
  array_items v h = (Returned xs, h') ->
  h' = h /\ exists o, deref v h = (Returned o, h) /\ xs = items o.
Proof.
  unfold array_items, bind. destruct (deref v h) as [[o|e] h1] eqn:E; [|discriminate].
  apply deref_returned in E as E'. destruct E' as [-> _].
  unfold ret. intros [= <- <-]. eauto.
Qed.

Lemma set_prop_returned (v : value) k x (h h' : heap) u :
  set_prop v k x h = (Returned u, h') ->
  exists l o, v = VRef l /\ h !! l = Some o /\
              h' = <[l := Object (<[k := x]> (fields o)) (items o)]> h.
Proof.
  unfold set_prop. destruct v as [| |y|s|l|g]; try discriminate.
  destruct (h !! l) as [o|] eqn:E; [|discriminate]. intros [= <-]. eauto.
Qed.

Lemma array_push_returned (v : value) x (h h' : heap) u :
  array_push v x h = (Returned u, h') ->
  exists l o, v = VRef l /\ h !! l = Some o /\
              h' = <[l := Object (fields o) (items o ++ [x])]> h.
Proof.
  unfold array_push. destruct v as [| |y|s|l|g]; try discriminate.
  destruct (h !! l) as [o|] eqn:E; [|discriminate]. intros [= <-]. eauto.
Qed.

(** *** Reads *)

Lemma reads_ret {A} (a : A) : reads (mret a : M A).
Proof. intros h b h' [-> ->]%ret_returned. done. Qed.

Lemma reads_lift {A} (r : outcome A) : reads (lift r : M A).
Proof. intros h b h' [-> ->]%lift_returned. done. Qed.

Lemma reads_throw {A} e : reads (throw e : M A).
Proof. intros h b h'. discriminate. Qed.

Lemma reads_bind {A B} (m : M A) (k : A -> M B) :
  reads m -> (forall a, reads (k a)) -> reads (m ≫= k).
Proof.
  intros Hm Hk h b h' (a & h1 & E1 & E2)%bind_returned.
  destruct (Hm _ _ _ E1) as [-> Hm']. destruct (Hk _ _ _ _ E2) as [-> Hk'].
  split; [done|]. intros h2 Hsub. rewrite (bind_eq _ _ _ _ _ (Hm' _ Hsub)). by apply Hk'.
Qed.

Lemma reads_deref (v : value) : reads (deref v).
Proof.
  intros h o h' E. apply deref_returned in E as E'. destruct E' as [-> Hv].
  split; [done|]. intros h2 Hsub. unfold deref in *.
  destruct v as [| |x|s|l|g]; try done; try by injection E as <-.
  by rewrite (lookup_weaken _ _ _ _ Hv Hsub).
Qed.

Lemma reads_get_prop (v : value) k : reads (get_prop v k).
Proof. apply (reads_bind (deref v)); [apply reads_deref | intros o; apply (reads_ret (default VUndefined (fields o !! k)))]. Qed.

Lemma reads_array_items (v : value) : reads (array_items v).
Proof. apply (reads_bind (deref v)); [apply reads_deref | intros o; apply (reads_ret (items o))]. Qed.

(** What a read returned in a store is what it returns in an extension. *)
Lemma reads_agree {A} (m : M A) h a h2 b h2' :
  reads m -> m h = (Returned a, h) -> h ⊆ h2 -> m h2 = (Returned b, h2') -> b = a.
Proof. intros Hm E Hsub E2. destruct (Hm _ _ _ E) as [_ Hm']. rewrite (Hm' _ Hsub) in E2. congruence. Qed.

End StoreFacts.

Create HintDb reads.
#[export] Hint Resolve reads_ret reads_lift reads_throw reads_deref reads_get_prop
  reads_array_items : reads.

(** ** The measurement library in the store *)

Section TurfFacts.
Context {T G : Type} `{Number T} (K : Kernel T G).

Local Abbreviation value := (value T G).
Local Abbreviation heap := (heap T G).
Local Abbreviation M := (M T G).

Lemma field_weaken (h h2 : heap) l k x :
  field h l k = Some x -> h ⊆ h2 -> field h2 l k = Some x.
Proof.
  unfold field. destruct (h !! l) as [o|] eqn:E; [|done]. intros Hk Hsub.
  by rewrite (lookup_weaken _ _ _ _ E Hsub).
Qed.

Lemma geom_at_weaken (h h2 : heap) l g :
  geom_at h l = Some g -> h ⊆ h2 -> geom_at h2 l = Some g.
Proof.
  unfold geom_at. destruct (field h l "geometry") as [v|] eqn:E; [|done].
  intros Hg Hsub. by rewrite (field_weaken _ _ _ _ _ E Hsub).
Qed.

Lemma reads_geometry (f : value) : reads (geometry f).
Proof.
  apply reads_bind; [auto with reads|].
  intros [| |x|s|l|g]; auto with reads.
Qed.

Lemma geometry_ref (h h' : heap) l g :
  geometry (VRef l) h = (Returned g, h') <-> h' = h /\ geom_at h l = Some g.
Proof.
  unfold geometry, geom_at, field. split.
  - intros (v & h1 & E1 & E2)%bind_returned.
    apply get_prop_returned in E1 as (-> & o & [_ Ho]%deref_returned & ->).
    rewrite Ho. simpl. destruct (fields o !! "geometry") as [[| |x|s|l'|g']|]; try discriminate.
    by apply ret_returned in E2 as [-> ->].
  - intros [-> Hg]. destruct (h !! l) as [o|] eqn:Ho; [|done]. simpl in Hg.
    erewrite bind_eq; last first.
    { unfold get_prop, bind, deref. rewrite Ho. reflexivity. }
    destruct (fields o !! "geometry") as [[| |x|s|l'|g']|]; try discriminate.
    by injection Hg as ->.
Qed.

Lemma reads_collection_features (v : value) : reads (collection_features v).
Proof.
  apply reads_bind; [apply reads_get_prop|].
  intros ty. destruct ty as [| |x|s|l|g]; try apply reads_throw.
  destruct (decide (s = "FeatureCollection")) as [->|Hs].
  - apply reads_bind; [apply reads_get_prop | intros; apply reads_array_items].
  - intros h a h' E. exfalso. revert E.
    repeat (destruct s as [|[[] [] [] [] [] [] [] []] s]; try discriminate); done.
Qed.

Lemma reads_geometries (fs : list value) : reads (geometries fs).
Proof.
  induction fs as [|f fs IH]; [apply reads_ret|].
  apply reads_bind; [apply reads_geometry|]. intros g.
  apply reads_bind; [apply IH|]. intros gs. auto with reads.
Qed.

(** The geometries of objects whose geometry members are known. *)
Lemma geometries_refs (ls : list loc) (gs : list G) (h : heap) :
  Forall2 (fun l g => geom_at h l = Some g) ls gs ->
  geometries (VRef <$> ls) h = (Returned gs, h).
Proof.
  induction 1 as [|l g ls gs Hg _ IH]; [done|]. simpl.
  erewrite bind_eq; [|by apply geometry_ref].
  erewrite bind_eq; [|exact IH]. done.
Qed.
(** A new feature is a new object that holds its geometry. *)
Lemma feature_returned (g : G) (h h' : heap) (v : value) :
  feature g h = (Returned v, h') ->
  exists l, v = VRef l /\ h !! l = None /\ h ⊆ h' /\ geom_at h' l = Some g.
Proof.
  unfold feature.
  intros (p & h1 & (lp & -> & Hlp & ->)%alloc_returned & (l & -> & Hl & ->)%alloc_returned)%bind_returned.
  exists l. split; [done|].
  assert (l <> lp) as Hne by (intros ->; by rewrite lookup_insert_eq in Hl).
  rewrite lookup_insert_ne in Hl by done. split; [done|]. split.
  - trans (<[lp := Object ∅ []]> h); [by apply insert_subseteq|].
    apply insert_subseteq. by rewrite lookup_insert_ne.
  - unfold geom_at, field. rewrite lookup_insert_eq. done.
Qed.

Lemma feature_returns (g : G) (h : heap) : exists v h', feature g h = (Returned v, h').
Proof. by eexists _, _. Qed.

Lemma centroid_returned (f : value) (h h' : heap) c :
  centroid K f h = (Returned c, h') ->
  exists g cg l, geometry f h = (Returned g, h) /\ centroid_of K g = Returned cg /\
    c = VRef l /\ h !! l = None /\ h ⊆ h' /\ geom_at h' l = Some cg.
Proof.
  unfold centroid. intros (g & h1 & E1 & (cg & h2 & [E2 ->]%lift_returned & E3)%bind_returned)%bind_returned.
  destruct (reads_geometry _ _ _ _ E1) as [-> _].
  apply feature_returned in E3 as (l & -> & ? & ? & ?). eauto 10.
Qed.

Lemma featureCollection_returned (fs : list value) (h h' : heap) v :
  featureCollection fs h = (Returned v, h') ->
  h ⊆ h' /\ collection_features v h' = (Returned fs, h').
Proof.
  unfold featureCollection.
  intros (a & h1 & (la & -> & Hla & ->)%alloc_returned & (l & -> & Hl & ->)%alloc_returned)%bind_returned.
  assert (l <> la) as Hne by (intros ->; by rewrite lookup_insert_eq in Hl).
  split.
  - trans (<[la := Object ∅ fs]> h); by apply insert_subseteq.
  - unfold collection_features.
    erewrite bind_eq; [|apply get_prop_ref, lookup_insert_eq]. simpl.
    rewrite lookup_insert_eq. simpl.
    erewrite bind_eq; [|apply get_prop_ref, lookup_insert_eq]. simpl.
    rewrite lookup_insert_ne, lookup_singleton_eq by done. simpl.
    rewrite (array_items_ref _ la (Object ∅ fs)); [done|].
    by rewrite lookup_insert_ne, lookup_insert_eq.
Qed.

Lemma nearestPoint_returned (t points : value) (h h' : heap) v :
  nearestPoint K t points h = (Returned v, h') ->
  exists tg fs gs i g l,
    geometry t h = (Returned tg, h) /\
    collection_features points h = (Returned fs, h) /\
    geometries fs h = (Returned gs, h) /\
    nearest_index K tg gs = Returned i /\ gs !! i = Some g /\
    v = VRef l /\ h !! l = None /\ h ⊆ h' /\ geom_at h' l = Some g.
Proof.
  unfold nearestPoint.
  intros (tg & h1 & E1 & (fs & h2 & E2 & (gs & h3 & E3 &
    (i & h4 & [E4 ->]%lift_returned & E5)%bind_returned)%bind_returned)%bind_returned)%bind_returned.
  destruct (reads_geometry _ _ _ _ E1) as [-> _].
  destruct (reads_collection_features _ _ _ _ E2) as [-> _].
  destruct (reads_geometries _ _ _ _ E3) as [-> _].
  destruct (gs !! i) as [g|] eqn:Hg; [|discriminate].
  apply feature_returned in E5 as (l & -> & ? & ? & ?). eauto 20.
Qed.

Lemma distance_returned (a b : value) units (h h' : heap) d :
  distance K a b units h = (Returned d, h') ->
  h' = h /\ exists ga gb, geometry a h = (Returned ga, h) /\ geometry b h = (Returned gb, h) /\
    distance_between K ga gb units = Returned d.
Proof.
  unfold distance.
  intros (ga & h1 & E1 & (gb & h2 & E2 & [E3 ->]%lift_returned)%bind_returned)%bind_returned.
  destruct (reads_geometry _ _ _ _ E1) as [-> _].
  destruct (reads_geometry _ _ _ _ E2) as [-> _]. eauto 10.
Qed.

Lemma area_returned (f : value) (h h' : heap) a :
  area K f h = (Returned a, h') ->
  h' = h /\ exists g, geometry f h = (Returned g, h) /\ area_of K g = Returned a.
Proof.
  unfold area. intros (g & h1 & E1 & [E2 ->]%lift_returned)%bind_returned.
  destruct (reads_geometry _ _ _ _ E1) as [-> _]. eauto.
Qed.

Lemma numbers_returned (vs : list value) (h h' : heap) (xs : list T) :
  numbers vs h = (Returned xs, h') <-> h' = h /\ vs = VNum <$> xs.
Proof.
  split.
  - revert xs h'. induction vs as [|w vs IH]; intros xs h'.
    + intros [Hxs ->]%ret_returned. by subst.
    + simpl. intros (x & h1 & E1 & (xs' & h2 & E2 & [Hxs ->]%ret_returned)%bind_returned)%bind_returned.
      destruct w; try discriminate. apply ret_returned in E1 as [-> ->].
      destruct (IH _ _ E2) as [-> ->]. by subst.
  - intros [-> ->]. induction xs as [|x xs IH]; [done|]. simpl.
    erewrite bind_eq; [|reflexivity]. erewrite bind_eq; [|exact IH]. done.
Qed.

(** The study area made from the dataset is a new feature on the polygon
    of its bounding box. *)
Lemma bbox_polygon_returned (dataset : value) (h h' : heap) v :
  (b ← bbox K dataset; bboxPolygon K b) h = (Returned v, h') ->
  exists l g, v = VRef l /\ h !! l = None /\ h ⊆ h' /\
    bounding_polygon K dataset h g /\ geom_at h' l = Some g.
Proof.
  intros (b & h1 & E1 & E2)%bind_returned.
  unfold bbox in E1.
  apply bind_returned in E1 as (fs & h2 & E11 & (gs & h3 & E12 &
    (xs & h4 & [E13 ->]%lift_returned & (lb & -> & Hlb & ->)%alloc_returned)%bind_returned)%bind_returned).
  destruct (reads_collection_features _ _ _ _ E11) as [-> _].
  destruct (reads_geometries _ _ _ _ E12) as [-> _].
  unfold bboxPolygon in E2.
  rewrite (bind_eq _ _ _ _ _ (array_items_ref _ lb _ (lookup_insert_eq _ _ _))) in E2.
  simpl in E2.
  apply bind_returned in E2 as (ys & h6 & [-> Hvs]%numbers_returned &
    (g & h7 & [E23 ->]%lift_returned & E24)%bind_returned).
  assert (ys = xs) as ->.
  { clear -Hvs. revert ys Hvs. induction xs as [|x xs IH]; intros [|y ys]; try done.
    intros [= -> ?]. f_equal. by apply IH. }
  apply feature_returned in E24 as (l & -> & Hl & Hsub & Hg).
  exists l, g. split; [done|]. split; [|split; [|split; [|done]]].
  - destruct (decide (l = lb)) as [->|Hne]; [by rewrite lookup_insert_eq in Hl|].
    by rewrite lookup_insert_ne in Hl.
  - etrans; [by apply insert_subseteq | done].
  - by exists fs, gs, xs.
Qed.

(** And where the dataset has a bounding box polygon, that study area is
    made. *)
Lemma bbox_polygon_returns (dataset : value) (h : heap) (g : G) :
  bounding_polygon K dataset h g ->
  exists l h', (b ← bbox K dataset; bboxPolygon K b) h = (Returned (VRef l), h') /\
    h ⊆ h' /\ geom_at h' l = Some g.
Proof.
  intros (fs & gs & xs & Hfs & Hgs & Hb & Hg).
  set (lb := fresh (dom h)). set (h1 := <[lb := Object ∅ (VNum <$> xs)]> h).
  assert (h ⊆ h1) as Hsub1 by (apply insert_subseteq, not_elem_of_dom, is_fresh).
  assert (bbox K dataset h = (Returned (VRef lb), h1)) as Ebox.
  { unfold bbox. erewrite bind_eq; [|exact Hfs]. erewrite bind_eq; [|exact Hgs].
    unfold lift. erewrite bind_eq; [|by rewrite Hb]. done. }
  destruct (feature_returns g h1) as (v & h2 & Ef).
  apply feature_returned in Ef as Hf. destruct Hf as (l & -> & _ & Hsub2 & Hl).
  exists l, h2. split; [|split; [by trans h1 | done]].
  erewrite bind_eq; [|exact Ebox]. unfold bboxPolygon.
  erewrite bind_eq; [|apply array_items_ref, lookup_insert_eq]. simpl.
  erewrite bind_eq; [|by apply numbers_returned].
  unfold lift. erewrite bind_eq; [|by rewrite Hg]. done.
Qed.
End TurfFacts.

(** ** The two passes over the features *)

Section Passes.
Context {T G : Type} `{Number T} (K : Kernel T G).

Local Abbreviation value := (value T G).
Local Abbreviation heap := (heap T G).
Local Abbreviation M := (M T G).

Lemma frame_refl lf (h : heap) : frame lf h h.
Proof. by intros l o _. Qed.

Lemma frame_trans lf (h1 h2 h3 : heap) :
  frame lf h1 h2 -> frame lf h2 h3 -> frame lf h1 h3.
Proof. intros H12 H23 l o Hne Hl. eauto. Qed.

Lemma subseteq_frame lf (h h' : heap) : h ⊆ h' -> frame lf h h'.
Proof. intros Hsub l o _ Hl. by eapply lookup_weaken. Qed.

Lemma insert_frame lf (h : heap) o : frame lf h (<[lf := o]> h).
Proof. intros l o' Hne Hl. by rewrite lookup_insert_ne. Qed.

Lemma frame_subseteq lf (h0 h h' : heap) :
  h0 !! lf = None -> h0 ⊆ h -> frame lf h h' -> h0 ⊆ h'.
Proof.
  intros Hlf Hsub Hfr. apply map_subseteq_spec. intros l o Hl.
  apply Hfr; [intros ->; congruence | by eapply lookup_weaken].
Qed.

Lemma geom_at_frame lf (h h' : heap) l g :
  frame lf h h' -> l <> lf -> geom_at h l = Some g -> geom_at h' l = Some g.
Proof.
  unfold geom_at, field. intros Hfr Hne. destruct (h !! l) as [o|] eqn:E; [|done].
  by rewrite (Hfr _ _ Hne E).
Qed.

Lemma geom_at_is_Some (h : heap) l g : geom_at h l = Some g -> is_Some (h !! l).
Proof. unfold geom_at, field. destruct (h !! l); [eauto | done]. Qed.

(** [features.filter(function (f, i) { return i !== index })] drops the
    element at [index] and keeps the others in order. *)
Lemma filter_indexed_delete (xs : list value) (index base : nat) :
  filter_indexed (fun i => negb (Nat.eqb i index)) xs base =
  if decide (index < base)%nat then xs else delete (index - base)%nat xs.
Proof.
  revert base. induction xs as [|x xs IH]; intros base; simpl.
  - by case_decide.
  - rewrite IH. destruct (Nat.eqb_spec base index) as [->|Hne]; simpl.
    + rewrite Nat.sub_diag. simpl. repeat case_decide; try lia. done.
    + repeat case_decide; try lia; try done.
      replace (index - base)%nat with (S (index - S base)) by lia. done.
Qed.

Lemma reduced_frame lf h0 h x cg :
  frame lf h0 h -> reduced K lf h x cg -> reduced K lf h0 x cg.
Proof. intros Hfr (hk & g & ? & ? & ?). exists hk, g. eauto using frame_trans. Qed.

Lemma for_each_push_centroid lf xs : forall i (h h' : heap) fo acc u,
  h !! lf = Some (Object fo acc) ->
  for_each xs i (push_centroid K (VRef lf)) h = (Returned u, h') ->
  exists cls cgs,
    h' !! lf = Some (Object fo (acc ++ (VRef <$> cls))) /\
    frame lf h h' /\
    Forall2 (reduced K lf h) xs cgs /\
    Forall2 (fun l cg => geom_at h' l = Some cg) cls cgs /\
    Forall (fun l => h !! l = None) cls /\
    NoDup cls.
Proof.
  induction xs as [|x xs IH]; intros i h h' fo acc u Hlf.
  - intros [_ ->]%ret_returned. exists [], []. simpl. rewrite app_nil_r.
    repeat split; auto using frame_refl; constructor.
  - simpl. intros ([] & h2 & E1 & E2)%bind_returned.
    apply bind_returned in E1 as (c & h1 & E11 & E12).
    apply centroid_returned in E11 as (g & cg & l & Eg & Ecg & -> & Hl & Hsub & Hgl).
    apply array_push_returned in E12 as (lf' & o & [= <-] & Hlf1 & ->).
    rewrite (lookup_weaken _ _ _ _ Hlf Hsub) in Hlf1. injection Hlf1 as <-. simpl in *.
    assert (l <> lf) as Hne by (intros ->; congruence).
    destruct (IH _ _ _ fo (acc ++ [VRef l]) _ (lookup_insert_eq _ _ _) E2)
      as (cls & cgs & Hlf' & Hfr & Hred & Hgeo & Hfresh & Hnd).
    assert (frame lf h (<[lf := Object fo (acc ++ [VRef l])]> h1)) as Hfr1.
    { eapply frame_trans; [by apply subseteq_frame | apply insert_frame]. }
    exists (l :: cls), (cg :: cgs). repeat split.
    + rewrite Hlf'. by rewrite <- app_assoc.
    + by eapply frame_trans.
    + constructor.
      * exists h, g. auto using frame_refl.
      * eapply Forall2_impl; [exact Hred|]. intros y cy. by apply reduced_frame.
    + constructor; [|done]. eapply geom_at_frame; [exact Hfr | done |].
      eapply geom_at_frame; [apply insert_frame | done | done].
    + constructor; [done|]. eapply Forall_impl; [exact Hfresh|]. simpl. intros l' Hl'.
      destruct (h !! l') as [o'|] eqn:E; [|done].
      destruct (decide (l' = lf)) as [->|Hne']; [by rewrite lookup_insert_eq in Hl'|].
      rewrite lookup_insert_ne in Hl' by done.
      by rewrite (lookup_weaken _ _ _ _ E Hsub) in Hl'.
    + constructor; [|done]. intros Hin.
      rewrite Forall_forall in Hfresh. specialize (Hfresh _ Hin).
      rewrite lookup_insert_ne in Hfresh by done.
      destruct (geom_at_is_Some _ _ _ Hgl) as [o' Ho']. congruence.
Qed.
Lemma map_indexed_measure lf fo (cls : list loc) (cgs : list G) units xs :
  forall i (h h' : heap) ds,
  h !! lf = Some (Object fo (VRef <$> cls)) ->
  Forall2 (fun l cg => geom_at h l = Some cg) cls cgs ->
  xs = drop i (VRef <$> cls) ->
  map_indexed xs i (measure_nearest K (VRef lf) units) h = (Returned ds, h') ->
  h ⊆ h' /\ length ds = length xs /\
  forall j d, ds !! j = Some d -> measured K cgs units (i + j) d.
Proof.
  induction xs as [|x xs IH]; intros i h h' ds Hlf Hgeo Hxs.
  - intros [-> ->]%ret_returned. repeat split; [done|]. intros j d. by rewrite lookup_nil.
  - simpl. intros (d0 & h3 & E1 & (ds' & h4 & E2 & [-> ->]%ret_returned)%bind_returned)%bind_returned.
    assert ((VRef <$> cls : list value) !! i = Some x) as Hx.
    { rewrite <- (Nat.add_0_r i), <- lookup_drop, <- Hxs. done. }
    assert (xs = drop (S i) (VRef <$> cls)) as Hxs'.
    { rewrite <- Nat.add_1_r, <- drop_drop, <- Hxs. done. }
    apply list_lookup_fmap_Some in Hx as (l & -> & Hl).
    destruct (Forall2_lookup_l _ _ _ _ _ Hgeo Hl) as (cg & Hcg & Hgl).
    unfold measure_nearest in E1.
    rewrite (bind_eq _ _ _ _ _ (array_items_ref _ _ _ Hlf)) in E1. simpl in E1.
    apply bind_returned in E1 as (other & h1 & E11 & E1).
    apply featureCollection_returned in E11 as [Hsub1 Eother].
    rewrite filter_indexed_delete, decide_False, Nat.sub_0_r in Eother by lia.
    apply bind_returned in E1 as (nearest & h2 & E12 & E13).
    apply nearestPoint_returned in E12
      as (tg & fs & gs & k & near & ln & Et & Efs & Egs & Ek & Hnear & -> & Hln & Hsub2 & Hgn).
    apply geometry_ref in Et as [_ Et].
    rewrite (geom_at_weaken _ _ _ _ Hgl Hsub1) in Et. injection Et as <-.
    rewrite Eother in Efs. injection Efs as <-.
    rewrite <- list_fmap_delete in Egs.
    rewrite (geometries_refs (delete i cls) (delete i cgs)) in Egs; last first.
    { apply Forall2_delete. eapply Forall2_impl; [exact Hgeo|].
      intros l' g' Hg'. exact (geom_at_weaken _ _ _ _ Hg' Hsub1). }
    injection Egs as <-.
    apply distance_returned in E13 as (-> & ga & gb & Ea & Eb & Ed).
    apply geometry_ref in Ea as [_ Ea]. apply geometry_ref in Eb as [_ Eb].
    assert (h ⊆ h2) as Hsub by (by etrans).
    rewrite (geom_at_weaken _ _ _ _ Hgl Hsub) in Ea. injection Ea as <-.
    rewrite Hgn in Eb. injection Eb as <-.
    destruct (IH (S i) h2 h4 ds') as (Hsub' & Hlen & Hds); try done.
    { by eapply lookup_weaken. }
    { eapply Forall2_impl; [exact Hgeo|]. intros l' g' Hg'. exact (geom_at_weaken _ _ _ _ Hg' Hsub). }
    split; [by etrans|]. split; [simpl; by f_equal|].
    intros [|j] d; simpl.
    + intros [= <-]. rewrite Nat.add_0_r. exists cg, k, near. done.
    + intros Hd. replace (i + S j)%nat with (S i + j)%nat by lia. by apply Hds.
Qed.
End Passes.

(** ** Storing the result *)

Section Storing.
Context {T G : Type}.

Local Abbreviation value := (value T G).
Local Abbreviation heap := (heap T G).
Local Abbreviation M := (M T G).

Lemma field_insert (h : heap) l o l' k :
  field (<[l := o]> h) l' k = if decide (l = l') then fields o !! k else field h l' k.
Proof.
  unfold field. case_decide as E.
  - subst. by rewrite lookup_insert_eq.
  - by rewrite lookup_insert_ne.
Qed.

Lemma store_result_returned (sv pv : value) R (hF h' : heap) v :
  store_result sv pv R hF = (Returned v, h') ->
  exists s p r,
    sv = VRef s /\ pv = VRef p /\ v = VRef s /\ hF !! r = None /\
    (forall l o, hF !! l = Some o -> l <> s -> l <> p -> h' !! l = Some o) /\
    (forall l o, hF !! l = Some o -> exists o', h' !! l = Some o' /\ items o' = items o) /\
    field h' s "properties" = Some (VRef p) /\
    field h' p "nearestNeighborAnalysis" = Some (VRef r) /\
    (forall k, k <> "nearestNeighborAnalysis" -> k <> "properties" ->
       field h' r k = R !! k) /\
    (forall l k, l <> r -> k <> "nearestNeighborAnalysis" -> k <> "properties" ->
       field h' l k = field hF l k) /\
    (forall k, k <> "nearestNeighborAnalysis" -> p <> r -> p <> s ->
       field h' p k = field hF p k) /\
    (forall k, k <> "properties" -> s <> r -> p <> s ->
       field h' s k = field hF s k).
Proof.
  unfold store_result.
  intros (rv & h1 & (r & -> & Hr & ->)%alloc_returned &
    ([] & h2 & (p & op & -> & Hp & ->)%set_prop_returned &
    ([] & h3 & (s & os & -> & Hs & ->)%set_prop_returned & [-> ->]%ret_returned)%bind_returned
    )%bind_returned)%bind_returned.
  exists s, p, r. do 4 (split; [done|]).
  split; [|split; [|split; [|split; [|split; [|split; [|split]]]]]].
  - intros l o Hl Hne1 Hne2.
    rewrite !lookup_insert_ne by congruence. done.
  - intros l o Hl.
    assert (l <> r) as Hlr by congruence.
    destruct (decide (l = s)) as [->|Hls].
    + rewrite lookup_insert_eq. eexists; split; [done|]. simpl.
      destruct (decide (s = p)) as [->|Hsp].
      * rewrite lookup_insert_eq in Hs. injection Hs as <-. simpl.
        rewrite lookup_insert_ne in Hp by done. congruence.
      * rewrite !lookup_insert_ne in Hs by done. congruence.
    + rewrite (lookup_insert_ne _ s) by done.
      destruct (decide (l = p)) as [->|Hlp].
      * rewrite lookup_insert_eq. eexists; split; [done|]. simpl.
        rewrite lookup_insert_ne in Hp by done. congruence.
      * rewrite !lookup_insert_ne by done. eauto.
  - rewrite field_insert, decide_True by done. simpl. by rewrite lookup_insert_eq.
  - rewrite field_insert. case_decide as E.
    + subst p. simpl. rewrite lookup_insert_ne by done.
      rewrite lookup_insert_eq in Hs. injection Hs as <-. simpl. by rewrite lookup_insert_eq.
    + rewrite field_insert, decide_True by done. simpl. by rewrite lookup_insert_eq.
  - intros k Hk1 Hk2. rewrite field_insert. case_decide as E.
    + subst s. simpl. rewrite lookup_insert_ne by done.
      destruct (decide (p = r)) as [->|Hpr].
      * rewrite lookup_insert_eq in Hs. injection Hs as <-. simpl.
        rewrite lookup_insert_ne by done.
        rewrite lookup_insert_eq in Hp. by injection Hp as <-.
      * rewrite lookup_insert_ne, lookup_insert_eq in Hs by done. by injection Hs as <-.
    + rewrite field_insert. case_decide as E'.
      * subst p. simpl. rewrite lookup_insert_ne by done.
        rewrite lookup_insert_eq in Hp. by injection Hp as <-.
      * by rewrite field_insert, decide_True.
  - intros l k Hlr Hk1 Hk2. rewrite field_insert. case_decide as E.
    + subst l. simpl. rewrite lookup_insert_ne by done.
      destruct (decide (p = s)) as [->|Hps].
      * rewrite lookup_insert_eq in Hs. injection Hs as <-. simpl.
        rewrite lookup_insert_ne by done.
        rewrite lookup_insert_ne in Hp by done. unfold field. by rewrite Hp.
      * rewrite !lookup_insert_ne in Hs by done. unfold field. by rewrite Hs.
    + rewrite field_insert. case_decide as E'.
      * subst l. simpl. rewrite lookup_insert_ne by done.
        rewrite lookup_insert_ne in Hp by done. unfold field. by rewrite Hp.
      * by rewrite field_insert, decide_False.
  - intros k Hk Hpr Hps. rewrite field_insert, decide_False by done.
    rewrite field_insert, decide_True by done. simpl. rewrite lookup_insert_ne by done.
    rewrite lookup_insert_ne in Hp by done. unfold field. by rewrite Hp.
  - intros k Hk Hsr Hps. rewrite field_insert, decide_True by done. simpl.
    rewrite lookup_insert_ne by done.
    rewrite !lookup_insert_ne in Hs by done. unfold field. by rewrite Hs.
Qed.
End Storing.

(** ** One call of [nearestNeighborAnalysis] *)

Section Call.
Context {T G : Type} `{Number T} (K : Kernel T G).

Local Abbreviation value := (value T G).
Local Abbreviation heap := (heap T G).
Local Abbreviation M := (M T G).

Lemma resolve_study (o : option loc) (dataset : value) (h hA : heap) v :
  or_else o (b ← bbox K dataset; bboxPolygon K b) h = (Returned v, hA) ->
  exists s, v = VRef s /\ h ⊆ hA /\
    match o with
    | Some s' => s = s'
    | None => h !! s = None /\
              exists g, bounding_polygon K dataset h g /\ geom_at hA s = Some g
    end.
Proof.
  destruct o as [s|]; simpl.
  - intros [= <- <-]. eauto.
  - intros (l & g & -> & Hl & Hsub & Hb & Hg)%bbox_polygon_returned. eauto 10.
Qed.

Lemma resolve_bag (o : option loc) (hA hB : heap) (v : value) :
  or_else o (new_object ∅) hA = (Returned v, hB) ->
  exists p, v = VRef p /\ hA ⊆ hB /\
    match o with
    | Some p' => p = p'
    | None => hA !! p = None /\ hB !! p = Some (Object ∅ [])
    end.
Proof.
  destruct o as [p|]; simpl.
  - intros [= <- <-]. eauto.
  - intros (l & -> & Hl & ->)%alloc_returned. exists l.
    rewrite lookup_insert_eq. repeat split; try done. by apply insert_subseteq.
Qed.
(** Every call that returns went through a run. *)
Lemma nearestNeighborAnalysis_returned (dataset : value) (options : option Options)
    (h h' : heap) (v : value) :
  nearestNeighborAnalysis K dataset options h = (Returned v, h') ->
  exists r, ran K dataset options h h' v r.
Proof.
  unfold nearestNeighborAnalysis.
  set (opts := default no_options options).
  set (units := string_or (opt_units opts) "kilometers").
  intros (sv & hA & (s & -> & HsubA & Hs)%resolve_study & E)%bind_returned.
  apply bind_returned in E as (pv & hB & (p & -> & HsubB & Hp)%resolve_bag & E).
  apply bind_returned in E as (fv & hC0 & (lf & -> & Hlf & ->)%alloc_returned & E).
  set (hC := <[lf := Object ∅ []]> hB) in *.
  assert (hB ⊆ hC) as HsubC by (by apply insert_subseteq).
  assert (h ⊆ hB) as HhB by (by trans hA).
  assert (h ⊆ hC) as HhC by (by trans hB).
  assert (h !! lf = None) as Hlf0.
  { destruct (h !! lf) as [o|] eqn:Eo; [|done].
    by rewrite (lookup_weaken _ _ _ _ Eo HhB) in Hlf. }
  apply bind_returned in E as ([] & hD & E1 & E).
  unfold featureEach in E1.
  apply bind_returned in E1 as (fs & hC' & Efs & E1).
  destruct (reads_collection_features _ _ _ _ Efs) as [-> _].
  apply (for_each_push_centroid K lf fs 0 hC hD ∅ []) in E1
    as (cls & cgs & HlfD & Hfr & Hred & Hgeo & Hfresh & Hnd);
    [|by apply lookup_insert_eq].
  simpl in HlfD.
  rewrite (bind_eq _ _ _ _ _ (array_items_ref _ _ _ HlfD)) in E. simpl in E.
  apply bind_returned in E as (ds & hF & E2 & E).
  apply (map_indexed_measure K lf ∅ cls cgs units _ 0) in E2
    as (HsubF & Hlen & Hmeas); [|done|done|done].
  apply bind_returned in E as (a & hF' & (-> & g & Eg & Ea)%area_returned & E).
  apply bind_returned in E as (ca & hF' & [Eca ->]%lift_returned & E).
  apply geometry_ref in Eg as [_ Eg].
  apply store_result_returned in E
    as (s' & p' & r & [= <-] & [= <-] & -> & Hr & Hframe & Hitems & Hprops & Hentry &
        Hres & Hkeys & Hbag & Hstudy).
  assert (h ⊆ hD) as HhD by exact (frame_subseteq lf h hC hD Hlf0 HhC Hfr).
  assert (h ⊆ hF) as HhF by (by trans hD).
  assert (s <> r) as Hsr.
  { intros ->. destruct (geom_at_is_Some _ _ _ Eg) as [o Ho]. congruence. }
  assert (forall l o, hB !! l = Some o -> hF !! l = Some o) as HBF.
  { intros l o Hl. eapply lookup_weaken; [|exact HsubF].
    apply Hfr; [intros ->; congruence|]. by eapply lookup_weaken. }
  pose proof (Forall2_length _ _ _ Hgeo) as Hlen'.
  exists {| run_study := s; run_bag := p; run_result := r; run_store := hC;
            run_features := fs; run_centroids := cgs; run_distances := ds;
            run_geometry := g; run_area := a; run_converted := ca |}.
  assert (length cls = length cgs -> length cgs = length (VRef <$> cls : list value)) as Hn
    by (rewrite length_fmap; congruence).
  split; simpl; unfold run_observed, run_expected, run_variance, run_density, run_n; simpl;
    try rewrite (Hn Hlen'); fold opts; fold units.
  - done.
  - destruct (opt_studyArea opts); [done|]. destruct Hs as (Hs & g0 & Hb & Hg0).
    split; [done|]. pose proof (geom_at_weaken _ _ _ _ Hg0 HsubB) as HgB.
    assert (geom_at hF s = Some g0) as HgF.
    { revert HgB. unfold geom_at, field. destruct (hB !! s) as [o|] eqn:Eo; [|done].
      by rewrite (HBF _ _ Eo). }
    rewrite Eg in HgF. by injection HgF as ->.
  - destruct (opt_properties opts); [done|]. destruct Hp as [Hp _].
    destruct (h !! p) as [o|] eqn:Eo; [|done]. by rewrite (lookup_weaken _ _ _ _ Eo HsubA) in Hp.
  - done.
  - done.
  - eapply Forall2_impl; [exact Hred|]. intros x cg (hk & g0 & Hk & ? & ?).
    exists hk, g0. split; [|by split]. exact (frame_subseteq lf h hC hk Hlf0 HhC Hk).
  - exact Hlen.
  - intros i d Hd. specialize (Hmeas i d Hd). done.
  - unfold geom_at. rewrite Hkeys by done. exact Eg.
  - done.
  - done.
  - destruct (h !! r) as [o|] eqn:Eo; [|done]. by rewrite (lookup_weaken _ _ _ _ Eo HhF) in Hr.
  - done.
  - done.
  - by rewrite Hres.
  - by rewrite Hres.
  - by rewrite Hres.
  - by rewrite Hres.
  - by rewrite Hres.
  - by rewrite Hres.
  - by rewrite Hres.
  - intros l o Hl. apply Hframe. by eapply lookup_weaken.
  - intros l o Hl. apply Hitems. by eapply lookup_weaken.
  - intros l o k Hl Hk1 Hk2. pose proof (lookup_weaken _ _ _ _ Hl HhF) as HlF.
    rewrite Hkeys; [|congruence|done|done]. unfold field. by rewrite HlF.
  - intros o k Ho Hk Hps. pose proof (lookup_weaken _ _ _ _ Ho HhF) as HoF.
    rewrite Hstudy by done. unfold field. by rewrite HoF.
  - intros o k Ho Hk Hps. pose proof (lookup_weaken _ _ _ _ Ho HhF) as HoF.
    rewrite Hbag; [|done|congruence|done]. unfold field. by rewrite HoF.
  - intros Hnone k Hk. rewrite Hnone in Hp. destruct Hp as [_ Hp].
    pose proof (HBF _ _ Hp) as HpF.
    assert (p <> s) as Hps.
    { intros ->. unfold geom_at, field in Eg. by rewrite HpF in Eg. }
    rewrite Hbag; [|done|congruence|done]. unfold field. by rewrite HpF.
Qed.
End Call.

(** ** From a run to the input and the result *)

Section Reading.
Context {T G : Type} `{Number T} (K : Kernel T G).

Local Abbreviation value := (value T G).
Local Abbreviation heap := (heap T G).

Lemma geometries_Forall2 (fs : list value) (h h' : heap) gs :
  geometries fs h = (Returned gs, h') ->
  Forall2 (fun f g => geometry f h = (Returned g, h)) fs gs.
Proof.
  revert gs h'. induction fs as [|f fs IH]; intros gs h'.
  - intros [-> _]%ret_returned. constructor.
  - simpl. intros (g & h1 & E1 & (gs' & h2 & E2 & [-> _]%ret_returned)%bind_returned)%bind_returned.
    destruct (reads_geometry _ _ _ _ E1) as [-> _]. constructor; eauto.
Qed.

Section OneRun.
Context {dataset : value} {options : option Options} {h h' : heap} {v : value} {r : Run T G}.
Context (Hran : ran K dataset options h h' v r).

(** The fields of the analysis, read through the returned feature. *)
Lemma ran_analysis_field k : analysis_field h' v k = field h' (run_result r) k.
Proof.
  unfold analysis_field, property_bag. rewrite (ran_value Hran).
  rewrite (ran_properties Hran). simpl.
  by rewrite (ran_entry Hran).
Qed.

Lemma ran_property_bag : property_bag h' v = Some (run_bag r).
Proof.
  unfold property_bag. rewrite (ran_value Hran).
  by rewrite (ran_properties Hran).
Qed.

(** The features the run traversed are the features of the dataset. *)
Lemma ran_count fs :
  collection_features dataset h = (Returned fs, h) ->
  run_features r = fs /\ run_n r = length fs.
Proof.
  intros Hfs.
  assert (run_features r = fs) as <-.
  { eapply reads_agree; [apply reads_collection_features | exact Hfs | |].
    - apply (ran_store Hran).
    - apply (ran_features Hran). }
  split; [done|]. unfold run_n. symmetry.
  apply (Forall2_length _ _ _ (ran_reduced Hran)).
Qed.

(** The centroids of the run are the centroids of the dataset's
    geometries. *)
Lemma ran_centroids_of fs gs :
  collection_features dataset h = (Returned fs, h) ->
  geometries fs h = (Returned gs, h) ->
  Forall2 (fun g cg => centroid_of K g = Returned cg) gs (run_centroids r).
Proof.
  intros [<- _]%ran_count Hgs%geometries_Forall2.
  pose proof (ran_reduced Hran) as Hred.
  apply Forall2_same_length_lookup_2.
  - rewrite <- (Forall2_length _ _ _ Hgs). apply (Forall2_length _ _ _ Hred).
  - intros i g cg Hg Hcg.
    destruct (Forall2_lookup_r _ _ _ _ _ Hgs Hg) as (f & Hf & Efg).
    destruct (Forall2_lookup_lr _ _ _ _ _ _ Hred Hf Hcg) as (hk & g0 & Hsub & Eg0 & Ecg).
    by rewrite <- (reads_agree _ _ _ _ _ _ (reads_geometry f) Efg Hsub Eg0).
Qed.

(** The geometry the area was measured on is the geometry of the returned
    feature, and of the study area as it was handed in. *)
Lemma ran_geometry_returned : geometry v h' = (Returned (run_geometry r), h').
Proof.
  rewrite (ran_value Hran). apply geometry_ref. split; [done|].
  apply (ran_geometry Hran).
Qed.

Lemma ran_geometry_of g :
  geometry (VRef (run_study r)) h = (Returned g, h) -> run_geometry r = g.
Proof.
  intros [_ Hg]%geometry_ref. pose proof (ran_geometry Hran) as Hg'.
  unfold geom_at in *. unfold field in Hg at 1.
  destruct (h !! run_study r) as [o|] eqn:Ho; [|done]. simpl in Hg.
  rewrite (ran_fields Hran _ _ _ Ho) in Hg' by done.
  destruct (fields o !! "geometry") as [[]|]; congruence.
Qed.
End OneRun.
End Reading.

(** * The statistics *)

(** The literal [0.26136] in double precision: the double at the least
    distance from 26136/100000, below half a unit in the last place
    (2^-55). *)
Lemma literal_0_26136_nearest_double :
  Prim2SF (num_0_26136 (T := float)) = S754_finite false 4708243194438211 (-54) /\
  (Z.abs (4708243194438211 * 100000 - 26136 * 2 ^ 54) * 2 < 100000)%Z.
Proof. split; [reflexivity | vm_compute; reflexivity]. Qed.

Section Statistics.
Context {T G : Type} `{Number T} (K : Kernel T G).

Local Abbreviation value := (value T G).
Local Abbreviation heap := (heap T G).

(** C1. For a dataset of [n] features, every call that returns has stored
    [expectedMeanDistance = 1 / (2 * sqrt(n / convertedArea))], where
    [convertedArea] is the area of the returned study area, measured in
    square metres and converted to the square of the resolved unit. *)
Theorem expectedMeanDistance_closed_form (dataset : value) (options : option Options)
    (h h' : heap) (v : value) (fs : list value) :
  collection_features dataset h = (Returned fs, h) ->
  nearestNeighborAnalysis K dataset options h = (Returned v, h') ->
  exists g a convertedArea,
    geometry v h' = (Returned g, h') /\
    area_of K g = Returned a /\
    convert_area K a "meters" (resolved_units options) = Returned convertedArea /\
    analysis_field h' v "expectedMeanDistance" =
      Some (VNum (num_of_nat 1 /
                  (num_of_nat 2 * num_sqrt (num_of_nat (length fs) / convertedArea)))%num).
Proof.
  intros Hfs [r Hran]%nearestNeighborAnalysis_returned.
  destruct (ran_count K Hran fs Hfs) as [_ Hn].
  exists (run_geometry r), (run_area r), (run_converted r).
  split; [apply (ran_geometry_returned K Hran)|].
  split; [apply (ran_area Hran)|].
  split; [apply (ran_converted Hran)|].
  rewrite (ran_analysis_field K Hran), (ran_expectedMeanDistance Hran).
  unfold run_expected, run_density, expectedMeanDistance, populationDensity.
  by rewrite Hn.
Qed.

(** C2. Every call that returns has stored [zScore = (observedMeanDistance
    - expectedMeanDistance) / variance], with [variance = 0.26136 /
    sqrt(n * (n / convertedArea))]. *)
Theorem zScore_formula (dataset : value) (options : option Options)
    (h h' : heap) (v : value) (fs : list value) :
  collection_features dataset h = (Returned fs, h) ->
  nearestNeighborAnalysis K dataset options h = (Returned v, h') ->
  exists g a convertedArea observed expected,
    geometry v h' = (Returned g, h') /\
    area_of K g = Returned a /\
    convert_area K a "meters" (resolved_units options) = Returned convertedArea /\
    analysis_field h' v "observedMeanDistance" = Some (VNum observed) /\
    analysis_field h' v "expectedMeanDistance" = Some (VNum expected) /\
    analysis_field h' v "zScore" =
      Some (VNum ((observed - expected) /
                  (num_0_26136 /
                   num_sqrt (num_of_nat (length fs) *
                             (num_of_nat (length fs) / convertedArea))))%num).
Proof.
  intros Hfs [r Hran]%nearestNeighborAnalysis_returned.
  destruct (ran_count K Hran fs Hfs) as [_ Hn].
  exists (run_geometry r), (run_area r), (run_converted r), (run_observed r), (run_expected r).
  split; [apply (ran_geometry_returned K Hran)|].
  split; [apply (ran_area Hran)|].
  split; [apply (ran_converted Hran)|].
  rewrite !(ran_analysis_field K Hran).
  split; [apply (ran_observedMeanDistance Hran)|].
  split; [apply (ran_expectedMeanDistance Hran)|].
  rewrite (ran_zScore Hran).
  unfold run_variance, run_density, variance, populationDensity. by rewrite Hn.
Qed.

(** C3. Every call that returns has stored [nearestNeighborIndex] as the
    quotient of the [observedMeanDistance] and the [expectedMeanDistance]
    of the same result object. *)
Theorem nearestNeighborIndex_ratio (dataset : value) (options : option Options)
    (h h' : heap) (v : value) :
  nearestNeighborAnalysis K dataset options h = (Returned v, h') ->
  exists observed expected,
    analysis_field h' v "observedMeanDistance" = Some (VNum observed) /\
    analysis_field h' v "expectedMeanDistance" = Some (VNum expected) /\
    analysis_field h' v "nearestNeighborIndex" = Some (VNum (observed / expected)%num).
Proof.
  intros [r Hran]%nearestNeighborAnalysis_returned.
  exists (run_observed r), (run_expected r).
  rewrite !(ran_analysis_field K Hran).
  split; [apply (ran_observedMeanDistance Hran)|].
  split; [apply (ran_expectedMeanDistance Hran)|].
  apply (ran_nearestNeighborIndex Hran).
Qed.

(** C5. Every call that returns has stored, as [numberOfPoints], the
    number of features of the dataset. *)
Theorem numberOfPoints_counts_features (dataset : value) (options : option Options)
    (h h' : heap) (v : value) (fs : list value) :
  collection_features dataset h = (Returned fs, h) ->
  nearestNeighborAnalysis K dataset options h = (Returned v, h') ->
  analysis_field h' v "numberOfPoints" = Some (VNum (num_of_nat (length fs))).
Proof.
  intros Hfs [r Hran]%nearestNeighborAnalysis_returned.
  destruct (ran_count K Hran fs Hfs) as [_ Hn].
  rewrite (ran_analysis_field K Hran), (ran_numberOfPoints Hran).
  by rewrite Hn.
Qed.
End Statistics.

(** * Self-exclusion *)

Section SelfExclusion.
Context {T G : Type} `{Number T} (K : Kernel T G).

Local Abbreviation value := (value T G).
Local Abbreviation heap := (heap T G).

(** The element that [delete i] leaves at position [k] sat at an index
    other than [i]. *)
Lemma lookup_delete_other {A} (xs : list A) (i k : nat) (x : A) :
  delete i xs !! k = Some x -> exists j, j <> i /\ xs !! j = Some x.
Proof.
  destruct (decide (k < i)) as [Hlt|Hge].
  - rewrite list_lookup_delete_lt by done. exists k. split; [lia | done].
  - rewrite list_lookup_delete_ge by lia. exists (S k). split; [lia | done].
Qed.

(** C4, as amended.  In a call that returns, the nearest-neighbour
    distance of the centroid at index [i] is measured to a centroid found
    by the search in the list of all centroids but the one at index [i]: it
    is the centroid of an index [j] other than [i].  The feature is left
    out by its index, and nothing is said of a distance of 0: it is what
    the distance function gives for the two centroids. *)
Theorem self_exclusion (dataset : value) (options : option Options)
    (h h' : heap) (v : value) (fs : list value) (gs : list G) :
  collection_features dataset h = (Returned fs, h) ->
  geometries fs h = (Returned gs, h) ->
  nearestNeighborAnalysis K dataset options h = (Returned v, h') ->
  exists (centroids : list G) (distances : list T),
    Forall2 (fun g c => centroid_of K g = Returned c) gs centroids /\
    length distances = length fs /\
    analysis_field h' v "observedMeanDistance" =
      Some (VNum (sum distances / num_of_nat (length fs))%num) /\
    forall i d, distances !! i = Some d ->
      exists c k near j,
        centroids !! i = Some c /\
        nearest_index K c (delete i centroids) = Returned k /\
        delete i centroids !! k = Some near /\
        j <> i /\ centroids !! j = Some near /\
        distance_between K c near (resolved_units options) = Returned d.
Proof.
  intros Hfs Hgs [r Hran]%nearestNeighborAnalysis_returned.
  destruct (ran_count K Hran fs Hfs) as [_ Hn].
  exists (run_centroids r), (run_distances r).
  split; [by apply (ran_centroids_of K Hran fs)|].
  split; [by rewrite (ran_distances Hran)|].
  split.
  { rewrite (ran_analysis_field K Hran), (ran_observedMeanDistance Hran).
    unfold run_observed. by rewrite Hn. }
  intros i d Hd.
  destruct (ran_measured Hran i d Hd) as (c & k & near & Hc & Hk & Hnear & Hdist).
  destruct (lookup_delete_other _ _ _ _ Hnear) as (j & Hj & Hnear').
  by exists c, k, near, j.
Qed.

(** X14.  With a single feature the list searched is empty, and the search has
    no member to copy: whatever the kernel answers, the call does not
    return. *)
Lemma single_feature_never_returns (dataset : value) (options : option Options)
    (h h' : heap) (v f : value) :
  collection_features dataset h = (Returned [f], h) ->
  nearestNeighborAnalysis K dataset options h <> (Returned v, h').
Proof.
  intros Hfs [r Hran]%nearestNeighborAnalysis_returned.
  destruct (ran_count K Hran [f] Hfs) as [_ Hn]. simpl in Hn.
  pose proof (ran_distances Hran) as Hlen. rewrite Hn in Hlen.
  destruct (run_distances r) as [|d ds] eqn:Hds; [discriminate|].
  destruct (ran_measured Hran 0%nat d) as (c & k & near & Hc & _ & Hnear & _);
    [by rewrite Hds|].
  unfold run_n in Hn. destruct (run_centroids r) as [|c0 [|c1 cs]]; discriminate.
Qed.
End SelfExclusion.

(** * Failing on a missing dataset *)

Section MissingDataset.
Context {T G : Type} `{Number T}.

Local Abbreviation value := (value T G).
Local Abbreviation heap := (heap T G).

(** C6. With [null] or [undefined] for the dataset the call throws, for
    every [options] and in every store: no result is returned.  The
    exception is the one of reading the collection, raised before any
    centroid, distance or area is computed (whatever kernel computes them,
    the outcome is the same), and no object of the store was written. *)
Theorem null_dataset_throws (options : option Options) (h : heap) :
  (exists h', h ⊆ h' /\
     forall K : Kernel T G,
       nearestNeighborAnalysis K VNull options h =
       (Thrown (TypeError "Cannot read properties of null or undefined"), h')) /\
  (exists h', h ⊆ h' /\
     forall K : Kernel T G,
       nearestNeighborAnalysis K VUndefined options h =
       (Thrown (TypeError "Cannot read properties of null or undefined"), h')).
Proof.
  assert (forall dataset : value, dataset = VNull \/ dataset = VUndefined ->
    exists h', h ⊆ h' /\
      forall K : Kernel T G,
        nearestNeighborAnalysis K dataset options h =
        (Thrown (TypeError "Cannot read properties of null or undefined"), h')) as Hmissing.
  { intros dataset Hd.
    assert (forall h0 : heap, collection_features dataset h0 =
      (Thrown (TypeError "Cannot read properties of null or undefined"), h0)) as Hcoll.
    { intros h0. unfold collection_features. apply bind_thrown. by destruct Hd as [-> | ->]. }
    unfold nearestNeighborAnalysis.
    destruct (opt_studyArea (default no_options options)) as [s|]; simpl.
    - destruct (opt_properties (default no_options options)) as [p|]; simpl.
      + eexists. split; last first.
        * intros K. erewrite bind_eq; [|reflexivity]. erewrite bind_eq; [|reflexivity].
          erewrite bind_eq; [|reflexivity]. apply bind_thrown.
          unfold featureEach. apply bind_thrown. apply Hcoll.
        * apply insert_subseteq, not_elem_of_dom, is_fresh.
      + eexists. split; last first.
        * intros K. erewrite bind_eq; [|reflexivity]. erewrite bind_eq; [|reflexivity].
          erewrite bind_eq; [|reflexivity]. apply bind_thrown.
          unfold featureEach. apply bind_thrown. apply Hcoll.
        * etrans; apply insert_subseteq, not_elem_of_dom, is_fresh.
    - exists h. split; [done|]. intros K. apply bind_thrown, bind_thrown.
      unfold bbox. apply bind_thrown, Hcoll. }
  split; apply Hmissing; auto.
Qed.
End MissingDataset.

(** * What the call writes *)

Section Writes.
Context {T G : Type} `{Number T} (K : Kernel T G).

Local Abbreviation value := (value T G).
Local Abbreviation heap := (heap T G).

(** C9. With [options.studyArea] given, the call returns that very object.
    Its geometry is the one it had; so is every member but [properties]
    (when the property bag is another object than the study area itself),
    and so are its elements.  Every other object of the store, the property
    bag apart, is as it was. *)
Theorem studyArea_returned_in_place (dataset : value) (options : option Options)
    (h h' : heap) (v : value) (s : loc) (o : object T G) :
  opt_studyArea (default no_options options) = Some s ->
  h !! s = Some o ->
  nearestNeighborAnalysis K dataset options h = (Returned v, h') ->
  v = VRef s /\
  exists o' p,
    h' !! s = Some o' /\
    items o' = items o /\
    fields o' !! "geometry" = fields o !! "geometry" /\
    fields o' !! "properties" = Some (VRef p) /\
    (forall k, k <> "properties" -> k <> "nearestNeighborAnalysis" ->
       fields o' !! k = fields o !! k) /\
    (p <> s -> forall k, k <> "properties" -> fields o' !! k = fields o !! k) /\
    (forall l ol, h !! l = Some ol -> l <> s -> l <> p -> h' !! l = Some ol).
Proof.
  intros Hs Ho [r Hran]%nearestNeighborAnalysis_returned.
  pose proof (ran_study Hran) as Hstudy. rewrite Hs in Hstudy.
  split; [by rewrite (ran_value Hran), Hstudy|].
  destruct (ran_items Hran _ _ Ho) as (o' & Ho' & Hitems).
  assert (forall k, field h' s k = fields o' !! k) as Hfield
    by (intros k; unfold field; by rewrite Ho').
  exists o', (run_bag r). split; [done|]. split; [done|].
  split; [by rewrite <- Hfield, (ran_fields Hran _ _ _ Ho)|].
  split; [by rewrite <- Hfield, <- Hstudy, (ran_properties Hran)|].
  split; [intros k Hk1 Hk2; by rewrite <- Hfield, (ran_fields Hran _ _ _ Ho)|].
  split.
  - intros Hps k Hk. rewrite <- Hfield, <- Hstudy.
    apply (ran_study_kept Hran); [by rewrite Hstudy | done | by rewrite Hstudy].
  - intros l ol Hl Hls Hlp. apply (ran_frame Hran); [done | by rewrite Hstudy | done].
Qed.

(** C10.  With [options.studyArea] given, the property bag of
    the returned feature is the [options.properties] object itself, or a
    new object when there is none.  Its [nearestNeighborAnalysis] member is
    the new result object; every other member is as [options.properties]
    had it (none, for the new object), whatever the study area's former
    bag held.  The former bag is not written. *)
Theorem property_bag_replaced (dataset : value) (options : option Options)
    (h h' : heap) (v : value) (s : loc) :
  opt_studyArea (default no_options options) = Some s ->
  (forall p0, opt_properties (default no_options options) = Some p0 -> is_Some (h !! p0)) ->
  nearestNeighborAnalysis K dataset options h = (Returned v, h') ->
  exists p r,
    property_bag h' v = Some p /\
    field h' p "nearestNeighborAnalysis" = Some (VRef r) /\
    h !! r = None /\
    match opt_properties (default no_options options) with
    | Some p0 =>
        p = p0 /\
        forall k, k <> "nearestNeighborAnalysis" -> p0 <> s \/ k <> "properties" ->
          field h' p k = field h p0 k
    | None =>
        h !! p = None /\
        forall k, k <> "nearestNeighborAnalysis" -> field h' p k = None
    end /\
    (forall q oq, property_bag h (VRef s) = Some q -> h !! q = Some oq ->
       q <> p -> q <> s -> h' !! q = Some oq).
Proof.
  intros Hs Hbag [r Hran]%nearestNeighborAnalysis_returned.
  pose proof (ran_study Hran) as Hstudy. rewrite Hs in Hstudy.
  exists (run_bag r), (run_result r).
  split; [apply (ran_property_bag K Hran)|].
  split; [apply (ran_entry Hran)|].
  split; [apply (ran_result_new Hran)|].
  split.
  - pose proof (ran_bag Hran) as Hp.
    pose proof (ran_bag_new Hran) as Hnew.
    destruct (opt_properties (default no_options options)) as [p0|]; [|by auto].
    split; [done|]. destruct (Hbag p0 eq_refl) as [op Hop]. rewrite <- Hp in Hop.
    intros k Hk Hor. rewrite <- Hp. unfold field at 2. rewrite Hop. simpl.
    destruct (decide (run_bag r = run_study r)) as [Heq|Hne].
    + apply (ran_fields Hran); [done | done |].
      destruct Hor as [Hor|Hor]; [|done]. congruence.
    + by apply (ran_bag_kept Hran).
  - intros q oq _ Hq Hqp Hqs. apply (ran_frame Hran); [done | by rewrite Hstudy | done].
Qed.
End Writes.

(** * Degenerate datasets *)

Section Degenerate.
Context {G : Type} (K : Kernel float G).

Local Abbreviation value := (value float G).
Local Abbreviation heap := (heap float G).

Local Open Scope float_scope.

Lemma float_of_spec (x : float) (s : spec_float) : Prim2SF x = s -> x = SF2Prim s.
Proof. intros <-. symmetry. apply SF2Prim_Prim2SF. Qed.

(** [0 / x] is a zero or NaN. *)
Lemma zero_div (x : float) : 0 / x = 0 \/ 0 / x = -0 \/ 0 / x = nan.
Proof.
  pose proof (div_spec 0 x) as Hd. change (Prim2SF 0) with (S754_zero false) in Hd.
  destruct (Prim2SF x) as [[]|[]| |[] m e]; simpl in Hd; apply float_of_spec in Hd;
    rewrite Hd; vm_compute; auto.
Qed.

Lemma nan_div (x : float) : nan / x = nan.
Proof.
  pose proof (div_spec nan x) as Hd. change (Prim2SF nan) with S754_nan in Hd.
  simpl in Hd. by apply float_of_spec in Hd.
Qed.

Lemma nan_sub (x : float) : nan - x = nan.
Proof.
  pose proof (sub_spec nan x) as Hd. change (Prim2SF nan) with S754_nan in Hd.
  simpl in Hd. by apply float_of_spec in Hd.
Qed.

Lemma set_prop_returns (h : heap) l k (x : value) :
  is_Some (h !! l) ->
  exists h', set_prop (VRef l) k x h = (Returned tt, h') /\
             forall l', is_Some (h !! l') -> is_Some (h' !! l').
Proof.
  intros [o Ho]. unfold set_prop. rewrite Ho. eexists. split; [done|].
  intros l' Hl'. destruct (decide (l = l')) as [->|Hne].
  - rewrite lookup_insert_eq. eauto.
  - by rewrite lookup_insert_ne.
Qed.

Lemma store_result_returns (hF : heap) s p R :
  is_Some (hF !! s) -> is_Some (hF !! p) ->
  exists h', store_result (VRef s) (VRef p) R hF = (Returned (VRef s), h').
Proof.
  intros Hs Hp. unfold store_result.
  set (r := fresh (dom hF)). set (hR := <[r := Object R []]> hF).
  assert (hF ⊆ hR) as Hsub by (apply insert_subseteq, not_elem_of_dom, is_fresh).
  assert (forall l, is_Some (hF !! l) -> is_Some (hR !! l)) as Hkeep.
  { intros l [o Ho]. exists o. by eapply lookup_weaken. }
  destruct (set_prop_returns hR p "nearestNeighborAnalysis" (VRef r) (Hkeep _ Hp))
    as (h1 & E1 & Hkeep1).
  destruct (set_prop_returns h1 s "properties" (VRef p) (Hkeep1 _ (Hkeep _ Hs)))
    as (h2 & E2 & _).
  exists h2.
  erewrite bind_eq; [|reflexivity]. fold r hR.
  erewrite bind_eq; [|exact E1]. erewrite bind_eq; [|exact E2]. done.
Qed.

(** With no feature in the dataset and a study area whose area is measured
    without an exception, the call returns. *)
Lemma empty_dataset_returns (dataset : value) (options : option Options) (h : heap)
    (g : G) (a convertedArea : float) :
  collection_features dataset h = (Returned [], h) ->
  (forall p0, opt_properties (default no_options options) = Some p0 -> is_Some (h !! p0)) ->
  study_geometry K dataset options h g ->
  area_of K g = Returned a ->
  convert_area K a "meters" (resolved_units options) = Returned convertedArea ->
  exists v h', nearestNeighborAnalysis K dataset options h = (Returned v, h').
Proof.
  intros Hfs Hbag Hg Ha Hca. unfold nearestNeighborAnalysis.
  assert (exists s hA,
            or_else (opt_studyArea (default no_options options))
                    (b ← bbox K dataset; bboxPolygon K b) h = (Returned (VRef s), hA) /\
            h ⊆ hA /\ geom_at hA s = Some g)
    as (s & hA & Es & HsubA & HgA).
  { unfold study_geometry in Hg.
    destruct (opt_studyArea (default no_options options)) as [s|]; simpl.
    - exists s, h. apply geometry_ref in Hg as [_ Hg]. auto.
    - by apply bbox_polygon_returns. }
  erewrite bind_eq; [|exact Es].
  assert (exists p hB, or_else (opt_properties (default no_options options)) (new_object ∅) hA
            = (Returned (VRef p), hB) /\ hA ⊆ hB /\ is_Some (hB !! p))
    as (p & hB & Ep & HsubB & HpB).
  { destruct (opt_properties (default no_options options)) as [p0|]; simpl.
    - exists p0, hA. split; [done|]. split; [done|].
      destruct (Hbag p0 eq_refl) as [o Ho]. exists o. by eapply lookup_weaken.
    - eexists _, _. split; [reflexivity|]. rewrite lookup_insert_eq.
      split; [apply insert_subseteq, not_elem_of_dom, is_fresh | eauto]. }
  erewrite bind_eq; [|exact Ep].
  set (lf := fresh (dom hB)). set (hC := <[lf := Object ∅ []]> hB).
  assert (hB ⊆ hC) as HsubC by (apply insert_subseteq, not_elem_of_dom, is_fresh).
  assert (hA ⊆ hC) as HsubAC by (by trans hB).
  assert (h ⊆ hC) as Hsub by (by trans hA).
  erewrite bind_eq; [|reflexivity]. fold lf hC.
  destruct (reads_collection_features _ _ _ _ Hfs) as [_ Hfs'].
  pose proof (geom_at_weaken _ _ _ _ HgA HsubAC) as HgC.
  erewrite bind_eq; last first.
  { unfold featureEach. erewrite bind_eq; [|by apply Hfs']. reflexivity. }
  erewrite bind_eq; [|apply array_items_ref, lookup_insert_eq]. simpl.
  erewrite bind_eq; [|reflexivity].
  erewrite bind_eq; last first.
  { unfold area. erewrite bind_eq; [|by apply geometry_ref]. unfold lift. by rewrite Ha. }
  erewrite bind_eq; last first.
  { unfold convertArea, lift. fold (resolved_units options). by rewrite Hca. }
  exists (VRef s). apply store_result_returns.
  - by eapply geom_at_is_Some.
  - destruct HpB as [o Ho]. exists o. by eapply lookup_weaken.
Qed.

(** C7, as amended.  For the empty dataset and a study area (the one given
    in [options], or the bounding box polygon made from the dataset) whose
    area is measured and converted without an exception, the call returns
    the study area, and no numeric field of the result is finite:
    [observedMeanDistance], [nearestNeighborIndex] and [zScore] are NaN and
    [expectedMeanDistance] is NaN or an infinity. *)
Theorem empty_dataset_not_finite (dataset : value) (options : option Options) (h : heap)
    (g : G) (a convertedArea : float) :
  collection_features dataset h = (Returned [], h) ->
  (forall p0, opt_properties (default no_options options) = Some p0 -> is_Some (h !! p0)) ->
  study_geometry K dataset options h g ->
  area_of K g = Returned a ->
  convert_area K a "meters" (resolved_units options) = Returned convertedArea ->
  exists v h' expected,
    nearestNeighborAnalysis K dataset options h = (Returned v, h') /\
    (forall s, opt_studyArea (default no_options options) = Some s -> v = VRef s) /\
    geometry v h' = (Returned g, h') /\
    analysis_field h' v "numberOfPoints" = Some (VNum 0) /\
    analysis_field h' v "observedMeanDistance" = Some (VNum nan) /\
    analysis_field h' v "expectedMeanDistance" = Some (VNum expected) /\
    is_finite expected = false /\
    analysis_field h' v "nearestNeighborIndex" = Some (VNum nan) /\
    analysis_field h' v "zScore" = Some (VNum nan).
Proof.
  intros Hfs Hbag Hg Ha Hca.
  destruct (empty_dataset_returns _ _ _ _ _ _ Hfs Hbag Hg Ha Hca) as (v & h' & E).
  exists v, h'. pose proof E as [r Hran]%nearestNeighborAnalysis_returned.
  destruct (ran_count K Hran [] Hfs) as [_ Hn]. simpl in Hn.
  assert (run_distances r = []) as Hds.
  { apply length_zero_iff_nil. by rewrite (ran_distances Hran). }
  assert (run_geometry r = g) as Hgeo.
  { pose proof (ran_study Hran) as Hst. unfold study_geometry in Hg.
    destruct (opt_studyArea (default no_options options)) as [s|].
    - rewrite <- Hst in Hg. by apply (ran_geometry_of K Hran) in Hg.
    - destruct Hst as (_ & fs1 & gs1 & b1 & Hfs1 & Hgs1 & Hb1 & Hp1).
      destruct Hg as (fs2 & gs2 & b2 & Hfs2 & Hgs2 & Hb2 & Hp2).
      rewrite Hfs in Hfs1, Hfs2. injection Hfs1 as <-. injection Hfs2 as <-.
      simpl in Hgs1, Hgs2. injection Hgs1 as <-. injection Hgs2 as <-.
      rewrite Hb1 in Hb2. injection Hb2 as <-. rewrite Hp1 in Hp2. by injection Hp2. }
  assert (run_converted r = convertedArea) as Hconv.
  { pose proof (ran_area Hran) as Ha'.
    pose proof (ran_converted Hran) as Hc'.
    rewrite Hgeo, Ha in Ha'. injection Ha' as Ha'. rewrite <- Ha', Hca in Hc'. by injection Hc'. }
  assert (run_observed r = nan) as Hobs by (unfold run_observed; by rewrite Hds, Hn).
  assert (is_finite (run_expected r) = false) as Hexp.
  { unfold run_expected, run_density. rewrite Hn, Hconv.
    unfold expectedMeanDistance, populationDensity.
    change (num_of_nat 0 / convertedArea)%num with (0 / convertedArea).
    destruct (zero_div convertedArea) as [-> | [-> | ->]]; by vm_compute. }
  exists (run_expected r). split; [done|].
  split.
  { intros s Hs. pose proof (ran_study Hran) as Hst. rewrite Hs in Hst.
    by rewrite (ran_value Hran), Hst. }
  split.
  { rewrite (ran_value Hran). apply geometry_ref. split; [done|].
    by rewrite (ran_geometry Hran), Hgeo. }
  rewrite !(ran_analysis_field K Hran).
  rewrite (ran_numberOfPoints Hran), (ran_observedMeanDistance Hran),
    (ran_expectedMeanDistance Hran), (ran_nearestNeighborIndex Hran),
    (ran_zScore Hran), Hobs, Hn.
  repeat split; try done.
  - do 2 f_equal. apply nan_div.
  - do 2 f_equal. change (nan - run_expected r)%num with (nan - run_expected r).
    rewrite nan_sub. apply nan_div.
Qed.
End Degenerate.


(** * Calls that throw *)

Section Keeps.
Context {T G : Type} `{Number T} (K : Kernel T G).

Local Abbreviation value := (value T G).
Local Abbreviation heap := (heap T G).
Local Abbreviation M := (M T G).

Lemma bind_outcome {A B} (m : M A) (k : A -> M B) (h h' : heap) (o : outcome B) :
  (m ≫= k) h = (o, h') ->
  (exists e, o = Thrown e /\ m h = (Thrown e, h')) \/
  (exists a h1, m h = (Returned a, h1) /\ k a h1 = (o, h')).
Proof.
  unfold mbind, M_bind, bind. destruct (m h) as [[a|e] h1].
  - right. eauto.
  - intros [= <- <-]. left. eauto.
Qed.

Lemma keeps_same {A} (h0 : heap) (m : M A) :
  (forall h, snd (m h) = h) -> keeps h0 m.
Proof. intros Hm h o h' Hsub E. specialize (Hm h). rewrite E in Hm. simpl in Hm. by subst. Qed.

Lemma keeps_ret {A} (h0 : heap) (a : A) : keeps h0 (mret a : M A).
Proof. by apply keeps_same. Qed.

Lemma keeps_throw {A} (h0 : heap) e : keeps h0 (throw e : M A).
Proof. by apply keeps_same. Qed.

Lemma keeps_lift {A} (h0 : heap) (r : outcome A) : keeps h0 (lift r : M A).
Proof. by apply keeps_same. Qed.

Lemma keeps_deref (h0 : heap) (v : value) : keeps h0 (deref v).
Proof.
  apply keeps_same. intros h. unfold deref.
  destruct v as [| |x|s|l|g]; try done. by destruct (h !! l).
Qed.

Lemma keeps_bind {A B} (h0 : heap) (m : M A) (k : A -> M B) :
  keeps h0 m -> (forall a, keeps h0 (k a)) -> keeps h0 (m ≫= k).
Proof.
  intros Hm Hk h o h' Hsub [(e & -> & E) | (a & h1 & E1 & E2)]%bind_outcome.
  - by eapply Hm.
  - eapply Hk; [|exact E2]. by eapply Hm.
Qed.

Lemma keeps_get_prop (h0 : heap) (v : value) k : keeps h0 (get_prop v k).
Proof. apply (keeps_bind h0 (deref v)); [apply keeps_deref | intros o; apply keeps_ret]. Qed.

Lemma keeps_array_items (h0 : heap) (v : value) : keeps h0 (array_items v).
Proof. apply (keeps_bind h0 (deref v)); [apply keeps_deref | intros o; apply keeps_ret]. Qed.

(** A new object is none of the objects there were. *)
Lemma keeps_alloc (h0 : heap) (o : object T G) : keeps h0 (alloc o).
Proof.
  intros h r h' Hsub. unfold alloc. intros [= <- <-].
  apply insert_subseteq_r; [|done].
  eapply lookup_weaken_None; [|exact Hsub]. apply not_elem_of_dom, is_fresh.
Qed.

(** Pushing on an array that is none of the objects of [h0]. *)
Lemma keeps_array_push (h0 : heap) (a x : value) :
  (forall l, a = VRef l -> h0 !! l = None) -> keeps h0 (array_push a x).
Proof.
  intros Ha h r h' Hsub. unfold array_push.
  destruct a as [| |y|s|l|g]; try by intros [= <- <-].
  destruct (h !! l) as [o|]; [|by intros [= <- <-]].
  intros [= <- <-]. apply insert_subseteq_r; [by apply Ha | done].
Qed.

Lemma keeps_geometry (h0 : heap) (f : value) : keeps h0 (geometry f).
Proof.
  apply keeps_bind; [apply keeps_get_prop|].
  intros [| |x|s|l|g]; first [apply keeps_ret | apply keeps_throw].
Qed.

Lemma keeps_feature (h0 : heap) (g : G) : keeps h0 (feature g).
Proof. apply keeps_bind; [apply keeps_alloc | intros p; apply keeps_alloc]. Qed.

Lemma keeps_collection_features (h0 : heap) (v : value) : keeps h0 (collection_features v).
Proof.
  apply keeps_bind; [apply keeps_get_prop|].
  intros ty. destruct ty as [| |x|s|l|g]; try apply keeps_throw.
  destruct (decide (s = "FeatureCollection")) as [->|Hs].
  - apply keeps_bind; [apply keeps_get_prop | intros; apply keeps_array_items].
  - apply keeps_same. intros h.
    repeat (destruct s as [|[[] [] [] [] [] [] [] []] s]; try done).
Qed.

Lemma keeps_geometries (h0 : heap) (fs : list value) : keeps h0 (geometries fs).
Proof.
  induction fs as [|f fs IH]; [apply keeps_ret|].
  apply keeps_bind; [apply keeps_geometry|]. intros g.
  apply keeps_bind; [apply IH|]. intros gs. apply keeps_ret.
Qed.

Lemma keeps_numbers (h0 : heap) (vs : list value) : keeps h0 (numbers vs).
Proof.
  induction vs as [|v vs IH]; [apply keeps_ret|].
  apply keeps_bind; [destruct v; first [apply keeps_ret | apply keeps_throw]|]. intros x.
  apply keeps_bind; [apply IH|]. intros xs. apply keeps_ret.
Qed.

Lemma keeps_bbox_polygon (h0 : heap) (dataset : value) :
  keeps h0 (b ← bbox K dataset; bboxPolygon K b).
Proof.
  apply keeps_bind.
  - apply keeps_bind; [apply keeps_collection_features|]. intros fs.
    apply keeps_bind; [apply keeps_geometries|]. intros gs.
    apply keeps_bind; [apply keeps_lift|]. intros b. apply keeps_alloc.
  - intros b. apply keeps_bind; [apply keeps_array_items|]. intros vs.
    apply keeps_bind; [apply keeps_numbers|]. intros xs.
    apply keeps_bind; [apply keeps_lift|]. intros g. apply keeps_feature.
Qed.

Lemma keeps_centroid (h0 : heap) (f : value) : keeps h0 (centroid K f).
Proof.
  apply keeps_bind; [apply keeps_geometry|]. intros g.
  apply keeps_bind; [apply keeps_lift|]. intros c. apply keeps_feature.
Qed.

Lemma keeps_featureCollection (h0 : heap) (fs : list value) :
  keeps h0 (featureCollection fs).
Proof. apply keeps_bind; [apply keeps_alloc | intros a; apply keeps_alloc]. Qed.

Lemma keeps_nearestPoint (h0 : heap) (t points : value) : keeps h0 (nearestPoint K t points).
Proof.
  apply keeps_bind; [apply keeps_geometry|]. intros tg.
  apply keeps_bind; [apply keeps_collection_features|]. intros fs.
  apply keeps_bind; [apply keeps_geometries|]. intros gs.
  apply keeps_bind; [apply keeps_lift|]. intros i.
  destruct (gs !! i); [apply keeps_feature | apply keeps_throw].
Qed.

Lemma keeps_distance (h0 : heap) (a b : value) units : keeps h0 (distance K a b units).
Proof.
  apply keeps_bind; [apply keeps_geometry|]. intros ga.
  apply keeps_bind; [apply keeps_geometry|]. intros gb. apply keeps_lift.
Qed.

Lemma keeps_area (h0 : heap) (f : value) : keeps h0 (area K f).
Proof. apply keeps_bind; [apply keeps_geometry|]. intros g. apply keeps_lift. Qed.

Lemma keeps_for_each (h0 : heap) (callback : value -> nat -> M unit) xs :
  (forall x i, keeps h0 (callback x i)) -> forall i, keeps h0 (for_each xs i callback).
Proof.
  intros Hc. induction xs as [|x xs IH]; intros i; [apply keeps_ret|].
  apply keeps_bind; [apply Hc | intros _; apply IH].
Qed.

Lemma keeps_map_indexed {A} (h0 : heap) (callback : value -> nat -> M A) xs :
  (forall x i, keeps h0 (callback x i)) -> forall i, keeps h0 (map_indexed xs i callback).
Proof.
  intros Hc. induction xs as [|x xs IH]; intros i; [apply keeps_ret|].
  apply keeps_bind; [apply Hc|]. intros y.
  apply keeps_bind; [apply IH|]. intros ys. apply keeps_ret.
Qed.

(** The first pass pushes on [features] only. *)
Lemma keeps_push_centroid (h0 : heap) lf (x : value) i :
  h0 !! lf = None -> keeps h0 (push_centroid K (VRef lf) x i).
Proof.
  intros Hlf. apply keeps_bind; [apply keeps_centroid|]. intros c.
  apply keeps_array_push. by intros l [= <-].
Qed.

(** The second pass makes new objects only. *)
Lemma keeps_measure_nearest (h0 : heap) (features : value) units (x : value) i :
  keeps h0 (measure_nearest K features units x i).
Proof.
  apply keeps_bind; [apply keeps_array_items|]. intros current.
  apply keeps_bind; [apply keeps_featureCollection|]. intros others.
  apply keeps_bind; [apply keeps_nearestPoint|]. intros nearest.
  apply keeps_distance.
Qed.

Lemma keeps_keeps_on_throw {A} (h0 : heap) (m : M A) : keeps h0 m -> keeps_on_throw h0 m.
Proof. intros Hm h e h'. apply Hm. Qed.

Lemma keeps_on_throw_bind {A B} (h0 : heap) (m : M A) (k : A -> M B) :
  keeps h0 m -> (forall a, keeps_on_throw h0 (k a)) -> keeps_on_throw h0 (m ≫= k).
Proof.
  intros Hm Hk h e h' Hsub [(e' & _ & E) | (a & h1 & E1 & E2)]%bind_outcome.
  - by eapply Hm.
  - eapply Hk; [|exact E2]. by eapply Hm.
Qed.

(** Writing a member of an object that is there does not throw. *)
Lemma set_prop_present (h : heap) l k (x : value) :
  is_Some (h !! l) ->
  exists h', set_prop (VRef l) k x h = (Returned tt, h') /\
             forall l', is_Some (h !! l') -> is_Some (h' !! l').
Proof.
  intros [o Ho]. unfold set_prop. rewrite Ho. eexists. split; [done|].
  intros l' Hl'. destruct (decide (l = l')) as [->|Hne].
  - rewrite lookup_insert_eq. eauto.
  - by rewrite lookup_insert_ne.
Qed.

(** The last three statements do not throw on a study area and a property
    bag that are there. *)
Lemma store_result_present (h0 : heap) s p R :
  is_Some (h0 !! s) -> is_Some (h0 !! p) ->
  keeps_on_throw h0 (store_result (VRef s) (VRef p) R).
Proof.
  intros [os Hs] [op Hp] h e h' Hsub E. exfalso. revert E. unfold store_result.
  set (r := fresh (dom h)). set (hR := <[r := Object R []]> h).
  assert (h ⊆ hR) as HsubR by (apply insert_subseteq, not_elem_of_dom, is_fresh).
  assert (is_Some (hR !! p)) as HpR.
  { exists op. eapply lookup_weaken; [|exact HsubR]. by eapply lookup_weaken. }
  assert (is_Some (hR !! s)) as HsR.
  { exists os. eapply lookup_weaken; [|exact HsubR]. by eapply lookup_weaken. }
  destruct (set_prop_present hR p "nearestNeighborAnalysis" (VRef r) HpR) as (h1 & E1 & Hkeep).
  destruct (set_prop_present h1 s "properties" (VRef p) (Hkeep _ HsR)) as (h2 & E2 & _).
  erewrite bind_eq; [|reflexivity]. fold r hR.
  erewrite bind_eq; [|exact E1]. erewrite bind_eq; [|exact E2]. discriminate.
Qed.

(** X1.  A call that throws for another reason than an assignment that
    was rejected (line 84 or 93, on a frozen, sealed or read-only object)
    has written to none of the caller's objects: when the study area and
    the property bag given in [options] are objects of the store, every
    object of the store is, after the exception, as it was before the
    call.  The writes are the last two statements; what throws before them
    has written nothing. *)
Theorem thrown_call_keeps_store (dataset : value) (options : option Options)
    (h h' : heap) (e : error) :
  (forall s, opt_studyArea (default no_options options) = Some s -> is_Some (h !! s)) ->
  (forall p, opt_properties (default no_options options) = Some p -> is_Some (h !! p)) ->
  nearestNeighborAnalysis K dataset options h = (Thrown e, h') ->
  e <> TypeError "Cannot create or set property" ->
  h ⊆ h'.
Proof.
  intros Hstudy Hbag E _. revert E. unfold nearestNeighborAnalysis.
  set (opts := default no_options options) in *.
  set (units := string_or (opt_units opts) "kilometers").
  intros [(e1 & _ & E1) | (sv & hA & E1 & E)]%bind_outcome.
  { destruct (opt_studyArea opts) as [s|]; [discriminate|].
    by eapply (keeps_bbox_polygon h dataset). }
  apply resolve_study in E1 as (s & -> & HsubA & Hs).
  assert (is_Some (hA !! s)) as HsA.
  { destruct (opt_studyArea opts) as [s'|].
    - subst s'. destruct (Hstudy s eq_refl) as [o Ho]. exists o. by eapply lookup_weaken.
    - destruct Hs as (_ & g & _ & Hg). by eapply geom_at_is_Some. }
  apply bind_outcome in E as [(e2 & _ & E2) | (pv & hB & E2 & E)].
  { destruct (opt_properties opts) as [p|]; discriminate. }
  apply resolve_bag in E2 as (p & -> & HsubB & Hp).
  assert (is_Some (hB !! p)) as HpB.
  { destruct (opt_properties opts) as [p'|].
    - subst p'. destruct (Hbag p eq_refl) as [o Ho]. exists o.
      eapply lookup_weaken; [|exact HsubB]. by eapply lookup_weaken.
    - destruct Hp as [_ Hp]. eauto. }
  assert (is_Some (hB !! s)) as HsB.
  { destruct HsA as [o Ho]. exists o. by eapply lookup_weaken. }
  apply bind_outcome in E as [(e3 & _ & E3) | (fv & hC & (lf & -> & Hlf & ->)%alloc_returned & E)];
    [discriminate|].
  assert (h ⊆ hB) as HhB by (by trans hA).
  trans hB; [done|]. revert E. apply keeps_on_throw_bind; [|intros _| by apply insert_subseteq].
  { apply keeps_bind; [apply keeps_collection_features|]. intros fs.
    apply keeps_for_each. intros x i. by apply (keeps_push_centroid hB lf x i). }
  apply keeps_on_throw_bind; [apply keeps_array_items|]. intros elements.
  apply keeps_on_throw_bind.
  { apply keeps_map_indexed. intros x i. apply (keeps_measure_nearest hB (VRef lf) units x i). }
  intros distances.
  apply keeps_on_throw_bind; [apply keeps_area|]. intros a.
  apply keeps_on_throw_bind; [apply keeps_lift|]. intros convertedArea.
  by apply store_result_present.
Qed.
End Keeps.

(** * The study area drawn around the dataset *)

Section Derived.
Context {T G : Type} `{Number T} (K : Kernel T G).

Local Abbreviation value := (value T G).
Local Abbreviation heap := (heap T G).

(** X2.  Without [options.studyArea] a call that returns gives a feature
    that is a new object, on the polygon of the bounding box of the
    dataset; and of the objects there were before the call, none but the
    [options.properties] object has changed: the dataset and its features
    are as they were. *)
Theorem derived_study_area (dataset : value) (options : option Options)
    (h h' : heap) (v : value) :
  opt_studyArea (default no_options options) = None ->
  nearestNeighborAnalysis K dataset options h = (Returned v, h') ->
  exists s g,
    v = VRef s /\ h !! s = None /\
    bounding_polygon K dataset h g /\
    geometry v h' = (Returned g, h') /\
    forall l o, h !! l = Some o ->
      opt_properties (default no_options options) <> Some l -> h' !! l = Some o.
Proof.
  intros Hnone [r Hran]%nearestNeighborAnalysis_returned.
  pose proof (ran_study Hran) as Hst. rewrite Hnone in Hst. destruct Hst as [Hnew Hbox].
  exists (run_study r), (run_geometry r).
  split; [apply (ran_value Hran)|]. split; [done|]. split; [done|].
  split; [apply (ran_geometry_returned K Hran)|].
  intros l o Hl Hbag. apply (ran_frame Hran); [done | congruence |].
  pose proof (ran_bag Hran) as Hb.
  destruct (opt_properties (default no_options options)) as [p|]; congruence.
Qed.
End Derived.

(** * The unit of measurement *)

Section Units.
Context {T G : Type} `{Number T} (K : Kernel T G).

Local Abbreviation value := (value T G).
Local Abbreviation heap := (heap T G).

(** X3.  A call that returns records the unit it measured in as [units]
    and that unit followed by a superscript two as [arealUnits]; the unit
    is [options.units], and kilometers when that is absent or the empty
    string. *)
Theorem units_recorded (dataset : value) (options : option Options)
    (h h' : heap) (v : value) :
  nearestNeighborAnalysis K dataset options h = (Returned v, h') ->
  exists units,
    units = resolved_units options /\
    analysis_field h' v "units" = Some (VStr units) /\
    analysis_field h' v "arealUnits" = Some (VStr (units ++ "²")%string) /\
    (forall u, opt_units (default no_options options) = Some u -> u <> "" -> units = u) /\
    (opt_units (default no_options options) = None \/
     opt_units (default no_options options) = Some "" -> units = "kilometers").
Proof.
  intros [r Hran]%nearestNeighborAnalysis_returned.
  exists (resolved_units options). split; [done|].
  rewrite !(ran_analysis_field K Hran).
  split; [apply (ran_units Hran)|]. split; [apply (ran_arealUnits Hran)|].
  unfold resolved_units, string_or. split.
  - intros u -> Hu. destruct (String.eqb_spec u ""); congruence.
  - by intros [-> | ->].
Qed.
End Units.

(** * Two features *)

Section TwoFeatures.
Context {T G : Type} `{Number T} (K : Kernel T G).

Local Abbreviation value := (value T G).
Local Abbreviation heap := (heap T G).

(** X4.  For a dataset of two features each centroid has the other as
    its nearest neighbour, whatever the search answers: a call that returns
    has measured the distance from the first centroid to the second and
    from the second to the first, and [observedMeanDistance] is their sum,
    taken from 0 on, divided by 2. *)
Theorem two_features_observed (dataset : value) (options : option Options)
    (h h' : heap) (v f0 f1 : value) (g0 g1 : G) :
  collection_features dataset h = (Returned [f0; f1], h) ->
  geometries [f0; f1] h = (Returned [g0; g1], h) ->
  nearestNeighborAnalysis K dataset options h = (Returned v, h') ->
  exists c0 c1 d01 d10,
    centroid_of K g0 = Returned c0 /\
    centroid_of K g1 = Returned c1 /\
    distance_between K c0 c1 (resolved_units options) = Returned d01 /\
    distance_between K c1 c0 (resolved_units options) = Returned d10 /\
    analysis_field h' v "observedMeanDistance" =
      Some (VNum ((num_of_nat 0 + d01 + d10) / num_of_nat 2)%num).
Proof.
  intros Hfs Hgs [r Hran]%nearestNeighborAnalysis_returned.
  destruct (ran_count K Hran _ Hfs) as [_ Hn]. simpl in Hn.
  pose proof (ran_centroids_of K Hran _ _ Hfs Hgs) as Hcs.
  pose proof (ran_distances Hran) as Hlen. rewrite Hn in Hlen.
  pose proof (ran_measured Hran) as Hmeas.
  pose proof (ran_observedMeanDistance Hran) as Hobs. unfold run_observed in Hobs.
  rewrite Hn in Hobs.
  destruct (run_centroids r) as [|c0 [|c1 [|c2 cs]]];
    try (apply Forall2_length in Hcs; discriminate).
  apply Forall2_cons in Hcs as [Hc0 [Hc1 _]%Forall2_cons].
  destruct (run_distances r) as [|d0 [|d1 [|d2 ds]]]; try discriminate.
  destruct (Hmeas 0%nat d0 eq_refl) as (c & k & near & [= <-] & _ & Hnear & Hd0).
  destruct (Hmeas 1%nat d1 eq_refl) as (c & k' & near' & [= <-] & _ & Hnear' & Hd1).
  simpl in Hnear, Hnear'.
  destruct k as [|k]; [|by destruct k]. destruct k' as [|k']; [|by destruct k'].
  injection Hnear as <-. injection Hnear' as <-.
  exists c0, c1, d0, d1. repeat (split; [done|]).
  by rewrite (ran_analysis_field K Hran), Hobs.
Qed.
End TwoFeatures.

(** * One call after another *)

Section Sequences.
Context {T G : Type} `{Number T} (K : Kernel T G).

Local Abbreviation value := (value T G).
Local Abbreviation heap := (heap T G).

(** X5.  The [options.properties] object is not copied: when two calls
    are given the same one for two different study areas, both returned
    features have it as their property bag, and, its
    [nearestNeighborAnalysis] having been overwritten, the first feature
    reports the result of the second call. *)
Theorem shared_properties_share_result (dataset1 dataset2 : value)
    (options1 options2 : option Options) (h h1 h2 : heap) (v1 v2 : value) (p : loc) :
  opt_properties (default no_options options1) = Some p ->
  opt_properties (default no_options options2) = Some p ->
  nearestNeighborAnalysis K dataset1 options1 h = (Returned v1, h1) ->
  nearestNeighborAnalysis K dataset2 options2 h1 = (Returned v2, h2) ->
  v1 <> v2 -> v1 <> VRef p ->
  property_bag h2 v1 = Some p /\
  property_bag h2 v2 = Some p /\
  forall k, analysis_field h2 v1 k = analysis_field h2 v2 k.
Proof.
  intros Hp1 Hp2 [r1 Hran1]%nearestNeighborAnalysis_returned
    [r2 Hran2]%nearestNeighborAnalysis_returned Hne Hnp.
  pose proof (ran_bag Hran1) as Hb1. rewrite Hp1 in Hb1.
  pose proof (ran_bag Hran2) as Hb2. rewrite Hp2 in Hb2.
  pose proof (ran_property_bag K Hran2) as Hbag2. rewrite Hb2 in Hbag2.
  assert (property_bag h2 v1 = Some p) as Hbag1.
  { pose proof (ran_properties Hran1) as Hprops. rewrite Hb1 in Hprops.
    rewrite (ran_value Hran1) in *. rewrite (ran_value Hran2) in Hne.
    unfold property_bag, field in *.
    destruct (h1 !! run_study r1) as [o|] eqn:Ho; [|done].
    rewrite (ran_frame Hran2 _ _ Ho); [by rewrite Hprops | congruence | congruence]. }
  split; [done|]. split; [done|].
  intros k. unfold analysis_field. by rewrite Hbag1, Hbag2.
Qed.

(** X6.  A later call that is given no [options.properties] makes a
    property bag of its own, and leaves the result of an earlier call as
    it is: every member of the analysis of the first returned feature
    reads the same after the second call.  (The second study area is
    another feature, and was there before the first call.) *)
Theorem earlier_result_kept (dataset1 dataset2 : value)
    (options1 options2 : option Options) (h h1 h2 : heap) (v1 v2 : value) :
  nearestNeighborAnalysis K dataset1 options1 h = (Returned v1, h1) ->
  nearestNeighborAnalysis K dataset2 options2 h1 = (Returned v2, h2) ->
  opt_properties (default no_options options2) = None ->
  v1 <> v2 ->
  (forall s, opt_studyArea (default no_options options2) = Some s -> is_Some (h !! s)) ->
  forall k, analysis_field h2 v1 k = analysis_field h1 v1 k.
Proof.
  intros [r1 Hran1]%nearestNeighborAnalysis_returned
    [r2 Hran2]%nearestNeighborAnalysis_returned Hnone Hne Hstudy k.
  pose proof (ran_bag Hran2) as Hb2. rewrite Hnone in Hb2.
  pose proof (ran_properties Hran1) as Hprops.
  pose proof (ran_entry Hran1) as Hentry.
  pose proof (ran_units Hran1) as Hunits.
  rewrite (ran_value Hran1) in *. rewrite (ran_value Hran2) in Hne.
  assert (run_result r1 <> run_study r2) as Hrs.
  { pose proof (ran_study Hran2) as Hst. pose proof (ran_result_new Hran1) as Hnew.
    destruct (opt_studyArea (default no_options options2)) as [s|] eqn:Hs.
    - destruct (Hstudy s eq_refl) as [o Ho]. congruence.
    - destruct Hst as [Hst _]. intros Heq. rewrite <- Heq in Hst.
      unfold field in Hunits. by rewrite Hst in Hunits. }
  unfold analysis_field, property_bag, field in *.
  destruct (h1 !! run_study r1) as [os|] eqn:Hos; [|done].
  rewrite (ran_frame Hran2 _ _ Hos); [|congruence|congruence]. simpl in *.
  rewrite Hprops. simpl.
  destruct (h1 !! run_bag r1) as [ob|] eqn:Hob; [|done]. simpl in Hentry.
  assert ((h2 !! run_bag r1) ≫= (fun o => fields o !! "nearestNeighborAnalysis")
          = Some (VRef (run_result r1))) as ->.
  { destruct (decide (run_bag r1 = run_study r2)) as [Heq|Hneq].
    - rewrite Heq in *.
      pose proof (ran_study_kept Hran2 ob "nearestNeighborAnalysis" Hob) as Hkept.
      unfold field in Hkept. rewrite Hkept; [done | done | congruence].
    - rewrite (ran_frame Hran2 _ _ Hob); [done | done | congruence]. }
  destruct (h1 !! run_result r1) as [orr|] eqn:Hor; [|done].
  rewrite (ran_frame Hran2 _ _ Hor); [|done|congruence].
  simpl. by rewrite Hentry, Hor.
Qed.
End Sequences.

(** * What the result depends on *)

Section Repeating.
Context {T G : Type} `{Number T} (K : Kernel T G).

Local Abbreviation value := (value T G).
Local Abbreviation heap := (heap T G).

Lemma measured_unique (cgs : list G) units i (d d' : T) :
  measured K cgs units i d -> measured K cgs units i d' -> d = d'.
Proof.
  intros (cg & k & near & Hcg & Hk & Hnear & Hd) (cg' & k' & near' & Hcg' & Hk' & Hnear' & Hd').
  congruence.
Qed.

(** Two runs over the same geometries have the same centroids. *)
Lemma ran_centroids_agree (dataset1 dataset2 : value) (options1 options2 : option Options)
    (h1 h1' h2 h2' : heap) (v1 v2 : value) (r1 r2 : Run T G)
    (fs1 fs2 : list value) (gs : list G) :
  ran K dataset1 options1 h1 h1' v1 r1 ->
  ran K dataset2 options2 h2 h2' v2 r2 ->
  collection_features dataset1 h1 = (Returned fs1, h1) ->
  geometries fs1 h1 = (Returned gs, h1) ->
  collection_features dataset2 h2 = (Returned fs2, h2) ->
  geometries fs2 h2 = (Returned gs, h2) ->
  run_centroids r1 = run_centroids r2.
Proof.
  intros Hran1 Hran2 Hfs1 Hgs1 Hfs2 Hgs2.
  pose proof (ran_centroids_of K Hran1 _ _ Hfs1 Hgs1) as Hc1.
  pose proof (ran_centroids_of K Hran2 _ _ Hfs2 Hgs2) as Hc2.
  apply list_eq_same_length with (length gs).
  - symmetry. apply (Forall2_length _ _ _ Hc2).
  - symmetry. apply (Forall2_length _ _ _ Hc1).
  - intros i c c' _ Hi Hi'.
    destruct (Forall2_lookup_r _ _ _ _ _ Hc1 Hi) as (g & Hgi & Ec).
    destruct (Forall2_lookup_r _ _ _ _ _ Hc2 Hi') as (g' & Hgi' & Ec'). congruence.
Qed.

(** Two runs over the same geometries, in the same unit, store the same
    seven members. *)
Lemma runs_agree (dataset1 dataset2 : value) (options1 options2 : option Options)
    (h1 h1' h2 h2' : heap) (v1 v2 : value) (r1 r2 : Run T G)
    (fs1 fs2 : list value) (gs : list G) :
  ran K dataset1 options1 h1 h1' v1 r1 ->
  ran K dataset2 options2 h2 h2' v2 r2 ->
  collection_features dataset1 h1 = (Returned fs1, h1) ->
  geometries fs1 h1 = (Returned gs, h1) ->
  collection_features dataset2 h2 = (Returned fs2, h2) ->
  geometries fs2 h2 = (Returned gs, h2) ->
  resolved_units options1 = resolved_units options2 ->
  run_geometry r1 = run_geometry r2 ->
  forall k, In k result_keys -> analysis_field h1' v1 k = analysis_field h2' v2 k.
Proof.
  intros Hran1 Hran2 Hfs1 Hgs1 Hfs2 Hgs2 Hu Hg.
  pose proof (ran_centroids_agree _ _ _ _ _ _ _ _ _ _ _ _ _ _ _
                Hran1 Hran2 Hfs1 Hgs1 Hfs2 Hgs2) as Hcs.
  assert (run_n r1 = run_n r2) as Hn by (unfold run_n; by rewrite Hcs).
  assert (run_distances r1 = run_distances r2) as Hds.
  { apply list_eq_same_length with (run_n r1).
    - rewrite Hn. apply (ran_distances Hran2).
    - apply (ran_distances Hran1).
    - intros i d d' _ Hi Hi'.
      pose proof (ran_measured Hran1 i d Hi) as Hm1.
      pose proof (ran_measured Hran2 i d' Hi') as Hm2.
      rewrite Hcs, Hu in Hm1. by eapply measured_unique. }
  assert (run_converted r1 = run_converted r2) as Hca.
  { pose proof (ran_area Hran1) as Ha1. pose proof (ran_area Hran2) as Ha2.
    pose proof (ran_converted Hran1) as Hc1'. pose proof (ran_converted Hran2) as Hc2'.
    rewrite Hg, Ha2 in Ha1. injection Ha1 as Ha1. rewrite <- Ha1, Hu, Hc2' in Hc1'.
    by injection Hc1'. }
  assert (run_observed r1 = run_observed r2) as Hobs
    by (unfold run_observed; by rewrite Hds, Hn).
  assert (run_density r1 = run_density r2) as Hrho
    by (unfold run_density; by rewrite Hca, Hn).
  assert (run_expected r1 = run_expected r2) as Hexp
    by (unfold run_expected; by rewrite Hrho).
  assert (run_variance r1 = run_variance r2) as Hvar
    by (unfold run_variance; by rewrite Hrho, Hn).
  intros k Hk. rewrite (ran_analysis_field K Hran1), (ran_analysis_field K Hran2).
  unfold result_keys in Hk. simpl in Hk.
  destruct Hk as [<-|[<-|[<-|[<-|[<-|[<-|[<-|[]]]]]]]].
  - by rewrite (ran_units Hran1), (ran_units Hran2), Hu.
  - by rewrite (ran_arealUnits Hran1), (ran_arealUnits Hran2), Hu.
  - by rewrite (ran_observedMeanDistance Hran1), (ran_observedMeanDistance Hran2), Hobs.
  - by rewrite (ran_expectedMeanDistance Hran1), (ran_expectedMeanDistance Hran2), Hexp.
  - by rewrite (ran_nearestNeighborIndex Hran1), (ran_nearestNeighborIndex Hran2), Hobs, Hexp.
  - by rewrite (ran_numberOfPoints Hran1), (ran_numberOfPoints Hran2), Hn.
  - by rewrite (ran_zScore Hran1), (ran_zScore Hran2), Hobs, Hexp, Hvar.
Qed.

Section AfterARun.
Context {dataset : value} {options : option Options} {h h' : heap} {v : value} {r : Run T G}.
Context (Hran : ran K dataset options h h' v r).

(** A member that the call does not write reads the same afterwards. *)
Lemma ran_member_kept l o k :
  h !! l = Some o -> k <> "nearestNeighborAnalysis" -> k <> "properties" ->
  exists o', h' !! l = Some o' /\ fields o' !! k = fields o !! k /\ items o' = items o.
Proof.
  intros Hl Hk1 Hk2. destruct (ran_items Hran l o Hl) as (o' & Hl' & Hitems).
  exists o'. split; [done|]. split; [|done].
  pose proof (ran_fields Hran l o k Hl Hk1 Hk2) as Hf. unfold field in Hf.
  by rewrite Hl' in Hf.
Qed.

(** The collection reads the same after the call. *)
Lemma ran_collection_features (x : value) fs :
  collection_features x h = (Returned fs, h) ->
  collection_features x h' = (Returned fs, h').
Proof.
  unfold collection_features.
  intros (ty & h0 & (-> & o & Ho & ->)%get_prop_returned & E2)%bind_returned.
  apply deref_returned in Ho as [_ Ho].
  destruct x as [| |n|s|l|g]; try done; try (subst o; discriminate).
  destruct (ran_member_kept l o "type" Ho) as (o' & Ho' & Hty & _); [done|done|].
  erewrite bind_eq; [|apply get_prop_ref, Ho']. rewrite Hty.
  destruct (default VUndefined (fields o !! "type")) as [| |n|s|l'|g]; try discriminate.
  destruct (decide (s = "FeatureCollection")) as [->|Hs]; last first.
  { exfalso. revert E2.
    repeat (destruct s as [|[[] [] [] [] [] [] [] []] s]; try discriminate); done. }
  apply bind_returned in E2 as (a & h3 & (-> & o2 & Ho2 & ->)%get_prop_returned & E22).
  apply deref_returned in Ho2 as [_ Ho2]. rewrite Ho in Ho2. injection Ho2 as <-.
  destruct (ran_member_kept l o "features" Ho) as (o2' & Ho2' & Hfe & _); [done|done|].
  erewrite bind_eq; [|apply get_prop_ref, Ho2']. rewrite Hfe.
  apply array_items_returned in E22 as (_ & oa & Hoa & ->).
  apply deref_returned in Hoa as [_ Hoa].
  destruct (default VUndefined (fields o !! "features")) as [| |n|s|la|g]; try done;
    try (subst oa; reflexivity).
  destruct (ran_items Hran la oa Hoa) as (oa' & Hoa' & <-).
  by apply array_items_ref.
Qed.

(** So does the geometry of a feature. *)
Lemma ran_geometry_kept (f : value) (g : G) :
  geometry f h = (Returned g, h) -> geometry f h' = (Returned g, h').
Proof.
  intros E. destruct f as [| |n|s|l|g0]; try discriminate.
  apply geometry_ref in E as [_ E]. apply geometry_ref. split; [done|].
  unfold geom_at in *. unfold field in E at 1.
  destruct (h !! l) as [o|] eqn:Ho; [|done]. simpl in E.
  by rewrite (ran_fields Hran l o "geometry" Ho).
Qed.

Lemma ran_geometries_kept (fs : list value) (gs : list G) :
  geometries fs h = (Returned gs, h) -> geometries fs h' = (Returned gs, h').
Proof.
  revert gs. induction fs as [|f fs IH]; intros gs; [by intros [= <-]|]. simpl.
  intros (g & h1 & E1 & (gs' & h2 & E2 & [Hgs _]%ret_returned)%bind_returned)%bind_returned.
  destruct (reads_geometry _ _ _ _ E1) as [-> _].
  destruct (reads_geometries _ _ _ _ E2) as [-> _].
  erewrite bind_eq; [|by apply ran_geometry_kept].
  erewrite bind_eq; [|by apply IH]. by subst.
Qed.
End AfterARun.

(** X7.  The seven members of the result depend on the geometries of the
    features, the geometry of the study area and the unit, and on nothing
    else: two calls that return, each in its own store, on datasets whose
    features have the same geometries in the same order, with study areas
    of the same geometry and the same resolved unit, store the same
    members, whatever the properties, the identities of the objects and
    the rest of the stores are. *)
Theorem same_geometries_same_result (dataset1 dataset2 : value)
    (options1 options2 : option Options) (h1 h1' h2 h2' : heap) (v1 v2 : value)
    (fs1 fs2 : list value) (gs : list G) (g : G) :
  collection_features dataset1 h1 = (Returned fs1, h1) ->
  geometries fs1 h1 = (Returned gs, h1) ->
  collection_features dataset2 h2 = (Returned fs2, h2) ->
  geometries fs2 h2 = (Returned gs, h2) ->
  resolved_units options1 = resolved_units options2 ->
  nearestNeighborAnalysis K dataset1 options1 h1 = (Returned v1, h1') ->
  nearestNeighborAnalysis K dataset2 options2 h2 = (Returned v2, h2') ->
  geometry v1 h1' = (Returned g, h1') ->
  geometry v2 h2' = (Returned g, h2') ->
  forall k, In k result_keys -> analysis_field h1' v1 k = analysis_field h2' v2 k.
Proof.
  intros Hfs1 Hgs1 Hfs2 Hgs2 Hu [r1 Hran1]%nearestNeighborAnalysis_returned
    [r2 Hran2]%nearestNeighborAnalysis_returned Hg1 Hg2.
  apply (runs_agree _ _ _ _ _ _ _ _ _ _ _ _ _ _ _ Hran1 Hran2 Hfs1 Hgs1 Hfs2 Hgs2 Hu).
  rewrite (ran_geometry_returned K Hran1) in Hg1.
  rewrite (ran_geometry_returned K Hran2) in Hg2. congruence.
Qed.

(** X8.  The analysis can be repeated: a second call on the same dataset,
    with the returned feature as study area and the same resolved unit, in
    the store the first call left, returns the same feature and stores the
    same seven members.  What the first call wrote is not read by the
    second. *)
Theorem repeated_call_same_result (dataset : value) (options options' : option Options)
    (h h1 h2 : heap) (v v' : value) (s : loc) (fs : list value) (gs : list G) :
  collection_features dataset h = (Returned fs, h) ->
  geometries fs h = (Returned gs, h) ->
  nearestNeighborAnalysis K dataset options h = (Returned v, h1) ->
  v = VRef s ->
  opt_studyArea (default no_options options') = Some s ->
  resolved_units options' = resolved_units options ->
  nearestNeighborAnalysis K dataset options' h1 = (Returned v', h2) ->
  v' = v /\
  forall k, In k result_keys -> analysis_field h2 v' k = analysis_field h1 v k.
Proof.
  intros Hfs Hgs [r1 Hran1]%nearestNeighborAnalysis_returned -> Hs Hu
    [r2 Hran2]%nearestNeighborAnalysis_returned.
  pose proof (ran_study Hran2) as Hst. rewrite Hs in Hst.
  split; [by rewrite (ran_value Hran2), Hst|].
  intros k Hk. symmetry. revert k Hk.
  apply (runs_agree _ _ _ _ _ _ _ _ _ _ _ _ fs fs gs Hran1 Hran2 Hfs Hgs);
    [by apply (ran_collection_features Hran1) | by apply (ran_geometries_kept Hran1) | done |].
  symmetry. apply (ran_geometry_of K Hran2). rewrite Hst.
  apply (ran_geometry_returned K Hran1).
Qed.
End Repeating.

(** * The area a run worked with *)

Section Measured.
Context {T G : Type} `{Number T} (K : Kernel T G).

Local Abbreviation value := (value T G).
Local Abbreviation heap := (heap T G).

(** The converted area of a run is that of the geometry of the returned
    feature. *)
Lemma ran_converted_of (dataset : value) (options : option Options) (h h' : heap)
    (v : value) (r : Run T G) (g : G) (a c : T) :
  ran K dataset options h h' v r ->
  geometry v h' = (Returned g, h') ->
  area_of K g = Returned a ->
  convert_area K a "meters" (resolved_units options) = Returned c ->
  run_converted r = c.
Proof.
  intros Hran Hg Ha Hc. rewrite (ran_geometry_returned K Hran) in Hg. injection Hg as Hg.
  pose proof (ran_area Hran) as Ha'. pose proof (ran_converted Hran) as Hc'.
  rewrite Hg, Ha in Ha'. injection Ha' as Ha'. rewrite <- Ha', Hc in Hc'. by injection Hc'.
Qed.
End Measured.

(** * Distances that are not numbers *)

Section NotANumber.
Context {G : Type} (K : Kernel float G).

Local Abbreviation value := (value float G).
Local Abbreviation heap := (heap float G).

Local Open Scope float_scope.

Lemma nan_add (x : float) : nan + x = nan.
Proof.
  pose proof (add_spec nan x) as Hd. change (Prim2SF nan) with S754_nan in Hd.
  simpl in Hd. by apply float_of_spec in Hd.
Qed.

Lemma add_nan (x : float) : x + nan = nan.
Proof.
  pose proof (add_spec x nan) as Hd. change (Prim2SF nan) with S754_nan in Hd.
  apply float_of_spec in Hd. rewrite Hd. by destruct (Prim2SF x) as [[]|[]| |[] m e].
Qed.

Lemma sum_of_nan (values : list float) :
  fold_left (fun sum value => sum + value) values nan = nan.
Proof. induction values as [|d ds IH]; [done|]. simpl. by rewrite nan_add. Qed.

(** One value that is not a number makes the sum one. *)
Lemma sum_nan (values : list float) : In nan values -> sum values = nan.
Proof.
  unfold sum. generalize (num_of_nat 0 : float).
  induction values as [|d ds IH]; intros acc; [done|].
  intros [-> | Hin]; simpl.
  - change (acc + nan)%num with (acc + nan). rewrite add_nan. apply sum_of_nan.
  - by apply IH.
Qed.

(** X9.  In double precision one nearest-neighbour distance that is not
    a number is enough for [observedMeanDistance], [nearestNeighborIndex]
    and [zScore] to be NaN: the sum keeps it, and so do the division and
    the subtraction. *)
Theorem nan_distance_spreads (dataset : value) (options : option Options)
    (h h' : heap) (v : value) (fs : list value) (gs : list G) :
  collection_features dataset h = (Returned fs, h) ->
  geometries fs h = (Returned gs, h) ->
  nearestNeighborAnalysis K dataset options h = (Returned v, h') ->
  exists (centroids : list G) (distances : list float),
    Forall2 (fun g c => centroid_of K g = Returned c) gs centroids /\
    length distances = length fs /\
    (forall i d, distances !! i = Some d ->
       measured K centroids (resolved_units options) i d) /\
    (In nan distances ->
       analysis_field h' v "observedMeanDistance" = Some (VNum nan) /\
       analysis_field h' v "nearestNeighborIndex" = Some (VNum nan) /\
       analysis_field h' v "zScore" = Some (VNum nan)).
Proof.
  intros Hfs Hgs [r Hran]%nearestNeighborAnalysis_returned.
  destruct (ran_count K Hran fs Hfs) as [_ Hn].
  exists (run_centroids r), (run_distances r).
  split; [by apply (ran_centroids_of K Hran fs)|].
  split; [by rewrite (ran_distances Hran)|].
  split; [apply (ran_measured Hran)|].
  intros Hnan.
  assert (run_observed r = nan) as Hobs.
  { unfold run_observed. rewrite (sum_nan _ Hnan). apply nan_div. }
  rewrite !(ran_analysis_field K Hran).
  rewrite (ran_observedMeanDistance Hran), (ran_nearestNeighborIndex Hran),
    (ran_zScore Hran), Hobs.
  repeat split.
  - do 2 f_equal. apply nan_div.
  - do 2 f_equal. change (nan - run_expected r)%num with (nan - run_expected r).
    rewrite nan_sub. apply nan_div.
Qed.
End NotANumber.

(** * The number of features as a double *)

Section Counting.
Local Open Scope Z_scope.

Lemma digits2_pos_iter_xO (p : positive) (k : positive) :
  digits2_pos (Pos.iter xO p k) = (digits2_pos p + k)%positive.
Proof.
  induction k as [|k IH] using Pos.peano_ind.
  - simpl. lia.
  - rewrite Pos.iter_succ. simpl. rewrite IH. lia.
Qed.

Lemma digits2_pos_lower (p : positive) : 2 ^ (Z.pos (digits2_pos p) - 1) <= Z.pos p.
Proof.
  induction p as [p IH|p IH|]; simpl; [| |done].
  - replace (Z.pos (Pos.succ (digits2_pos p)) - 1) with (Z.succ (Z.pos (digits2_pos p) - 1)) by lia.
    rewrite Z.pow_succ_r by lia. lia.
  - replace (Z.pos (Pos.succ (digits2_pos p)) - 1) with (Z.succ (Z.pos (digits2_pos p) - 1)) by lia.
    rewrite Z.pow_succ_r by lia. lia.
Qed.

Lemma digits2_pos_small (p : positive) : Z.pos p < 2 ^ 53 -> Z.pos (digits2_pos p) <= 53.
Proof.
  intros Hp. pose proof (digits2_pos_lower p) as Hl.
  destruct (Z_le_gt_dec (Z.pos (digits2_pos p)) 53) as [|Hgt]; [done|]. exfalso.
  assert (2 ^ 53 <= 2 ^ (Z.pos (digits2_pos p) - 1)) by (apply Z.pow_le_mono_r; lia). lia.
Qed.

(** An integer of at most 53 bits converts to a positive double. *)
Lemma binary_normalize_small (p : positive) :
  Z.pos p < 2 ^ 53 ->
  exists m e, binary_normalize prec emax (Z.pos p) 0 false = S754_finite false m e.
Proof.
  intros Hp%digits2_pos_small. pose proof (Pos2Z.is_pos (digits2_pos p)) as Hd.
  unfold binary_normalize, binary_round.
  assert (fexp prec emax (Z.pos (digits2_pos p) + 0) = Z.pos (digits2_pos p) - 53) as ->.
  { unfold fexp, emin, emax, prec. lia. }
  assert (exists mz, shl_align p 0 (Z.pos (digits2_pos p) - 53)
                       = (mz, Z.pos (digits2_pos p) - 53) /\
                     Z.pos (digits2_pos mz) = 53) as (mz & -> & Hmz).
  { unfold shl_align. destruct (Z.pos (digits2_pos p) - 53 - 0) as [|q|q] eqn:Hq; [|lia|].
    - exists p. split; [f_equal|]; lia.
    - exists (Pos.iter xO p q). split; [done|]. rewrite digits2_pos_iter_xO. lia. }
  exists mz, (Z.pos (digits2_pos p) - 53).
  unfold binary_round_aux.
  assert (forall l : location, shr_fexp prec emax (Z.pos mz) (Z.pos (digits2_pos p) - 53) l
            = (shr_record_of_loc (Z.pos mz) l, Z.pos (digits2_pos p) - 53)) as Hshr.
  { intros l. unfold shr_fexp. simpl Zdigits2. rewrite Hmz.
    assert (fexp prec emax (53 + (Z.pos (digits2_pos p) - 53)) - (Z.pos (digits2_pos p) - 53) = 0) as ->
      by (unfold fexp, emin, emax, prec; lia).
    done. }
  rewrite Hshr. simpl. rewrite Hshr. simpl.
  destruct (Z.leb_spec (Z.pos (digits2_pos p) - 53) (emax - prec)) as [|Hgt]; [done|].
  unfold emax, prec in Hgt. lia.
Qed.

Lemma positive_count (n : nat) :
  (1 <= n)%nat -> Z.of_nat n < 2 ^ 53 -> (0 <? num_of_nat n)%float = true.
Proof.
  intros Hn Hsmall. rewrite ltb_spec. change (Prim2SF 0) with (S754_zero false).
  change (num_of_nat n) with (PrimFloat.of_uint63 (Uint63.of_Z (Z.of_nat n))).
  rewrite of_uint63_spec, Uint63.of_Z_spec.
  rewrite Z.mod_small by (change Uint63.wB with (2 ^ 63); lia).
  destruct (Z.of_nat n) as [|p|p] eqn:Hz; [lia| |lia].
  destruct (binary_normalize_small p Hsmall) as (m & e & ->). done.
Qed.

(** A count below [2^53] is a positive double, not the infinity. *)
Lemma count_number (n : nat) :
  (1 <= n)%nat -> Z.of_nat n < 2 ^ 53 ->
  exists m e, Prim2SF (num_of_nat n) = S754_finite false m e.
Proof.
  intros Hn Hsmall.
  change (num_of_nat n) with (PrimFloat.of_uint63 (Uint63.of_Z (Z.of_nat n))).
  rewrite of_uint63_spec, Uint63.of_Z_spec.
  rewrite Z.mod_small by (change Uint63.wB with (2 ^ 63); lia).
  destruct (Z.of_nat n) as [|p|p] eqn:Hz; [lia| |lia].
  exact (binary_normalize_small p Hsmall).
Qed.
End Counting.

(** * Rounding in binary64 is monotone *)

(** ** Powers of two *)

Section Powers.
Local Open Scope R_scope.

Lemma bpow_pos (e : Z) : 0 < bpow e.
Proof. apply powerRZ_lt. lra. Qed.

Lemma bpow_add (a b : Z) : bpow (a + b) = bpow a * bpow b.
Proof. apply powerRZ_add. lra. Qed.

Lemma bpow_0 : bpow 0 = 1.
Proof. reflexivity. Qed.

Lemma bpow_1 : bpow 1 = 2.
Proof. unfold bpow. simpl. lra. Qed.

Lemma bpow_opp (e : Z) : bpow (- e) = / bpow e.
Proof. apply powerRZ_neg'. Qed.

Lemma bpow_IZR (e : Z) : (0 <= e)%Z -> bpow e = IZR (2 ^ e).
Proof.
  intros He. unfold bpow. rewrite <- (Z2Nat.id e) by done.
  rewrite <- pow_powerRZ. by rewrite pow_IZR.
Qed.

Lemma bpow_ge_1 (e : Z) : (0 <= e)%Z -> 1 <= bpow e.
Proof.
  intros He. rewrite bpow_IZR by done. apply IZR_le.
  pose proof (Z.pow_pos_nonneg 2 e). lia.
Qed.

Lemma bpow_le (a b : Z) : (a <= b)%Z -> bpow a <= bpow b.
Proof.
  intros Hab. replace b with (a + (b - a))%Z by lia. rewrite bpow_add.
  pose proof (bpow_pos a). pose proof (bpow_ge_1 (b - a) ltac:(lia)). nra.
Qed.

Lemma bpow_lt (a b : Z) : (a < b)%Z -> bpow a < bpow b.
Proof.
  intros Hab. replace b with (a + 1 + (b - a - 1))%Z by lia. rewrite !bpow_add, bpow_1.
  pose proof (bpow_pos a). pose proof (bpow_ge_1 (b - a - 1) ltac:(lia)). nra.
Qed.

Lemma bpow_lt_inv (a b : Z) : bpow a < bpow b -> (a < b)%Z.
Proof.
  intros Hlt. destruct (Z_lt_le_dec a b) as [|Hle]; [done|].
  apply bpow_le in Hle. lra.
Qed.

Lemma scaled_bpow (x : R) (e : Z) : scaled x e * bpow e = x.
Proof.
  unfold scaled. rewrite Rmult_assoc, <- bpow_add.
  replace (- e + e)%Z with 0%Z by lia. rewrite bpow_0. lra.
Qed.

Lemma scaled_shift (x : R) (e k : Z) : scaled x (e + k) = scaled x e * bpow (- k).
Proof.
  unfold scaled. replace (- (e + k))%Z with (- e + - k)%Z by lia.
  rewrite bpow_add. lra.
Qed.

Lemma scaled_le (x y : R) (e : Z) : x <= y -> scaled x e <= scaled y e.
Proof. intros Hxy. unfold scaled. pose proof (bpow_pos (- e)). nra. Qed.

Lemma scaled_lt_bpow (x : R) (e k : Z) : x < bpow k -> scaled x e < bpow (k - e).
Proof.
  intros Hx. unfold scaled. replace (k - e)%Z with (k + - e)%Z by lia.
  rewrite bpow_add. pose proof (bpow_pos (- e)). nra.
Qed.

Lemma scaled_ge_bpow (x : R) (e k : Z) : bpow k <= x -> bpow (k - e) <= scaled x e.
Proof.
  intros Hx. unfold scaled. replace (k - e)%Z with (k + - e)%Z by lia.
  rewrite bpow_add. pose proof (bpow_pos (- e)). nra.
Qed.
End Powers.

(** ** The number of binary digits *)

Section Digits.
Local Open Scope Z_scope.

Lemma digits2_pos_bounds (p : positive) :
  2 ^ (Z.pos (digits2_pos p) - 1) <= Z.pos p < 2 ^ Z.pos (digits2_pos p).
Proof.
  induction p as [p IH|p IH|]; simpl; [| |done].
  - rewrite Pos2Z.inj_succ.
    replace (Z.succ (Z.pos (digits2_pos p)) - 1) with (Z.succ (Z.pos (digits2_pos p) - 1)) by lia.
    rewrite !Z.pow_succ_r by lia. lia.
  - rewrite Pos2Z.inj_succ.
    replace (Z.succ (Z.pos (digits2_pos p)) - 1) with (Z.succ (Z.pos (digits2_pos p) - 1)) by lia.
    rewrite !Z.pow_succ_r by lia. lia.
Qed.

Lemma Zdigits2_bounds (m : Z) :
  0 < m -> 2 ^ (Zdigits2 m - 1) <= m < 2 ^ Zdigits2 m.
Proof. destruct m as [|p|p]; try lia. intros _. apply digits2_pos_bounds. Qed.

Lemma Zdigits2_pos (m : Z) : 0 < m -> 0 < Zdigits2 m.
Proof. destruct m as [|p|p]; simpl; lia. Qed.

Lemma Zdigits2_ge (m : Z) (k : Z) : 0 <= k -> 2 ^ k <= m -> k < Zdigits2 m.
Proof.
  intros Hk Hm. assert (0 < m) as Hpos by (pose proof (Z.pow_pos_nonneg 2 k); lia).
  destruct (Zdigits2_bounds m Hpos) as [_ Hup].
  destruct (Z_lt_le_dec k (Zdigits2 m)) as [|Hle]; [done|]. exfalso.
  pose proof (Zdigits2_pos m Hpos).
  assert (2 ^ Zdigits2 m <= 2 ^ k) by (apply Z.pow_le_mono_r; lia). lia.
Qed.

Lemma Zdigits2_le (m : Z) (k : Z) : 0 <= k -> 0 < m -> m < 2 ^ k -> Zdigits2 m <= k.
Proof.
  intros Hk Hpos Hm. destruct (Zdigits2_bounds m Hpos) as [Hlow _].
  destruct (Z_le_gt_dec (Zdigits2 m) k) as [|Hgt]; [done|]. exfalso.
  assert (2 ^ k <= 2 ^ (Zdigits2 m - 1)) by (apply Z.pow_le_mono_r; lia). lia.
Qed.
End Digits.

(** ** Truncation keeps the place of a real between two integers *)

Section Locations.
Local Open Scope R_scope.

Lemma located_bounds (u : R) (m : Z) (l : location) :
  located u m l -> IZR m <= u < IZR m + 1.
Proof. destruct l as [|[| |]]; simpl; lra. Qed.

Lemma located_record_of_loc (u : R) (m : Z) (l : location) :
  (0 <= m)%Z -> located u m l -> located_record u (shr_record_of_loc m l).
Proof. intros Hm Hl. split; by destruct l as [|[| |]]. Qed.

Lemma IZR_xO (p : positive) : IZR (Z.pos p~0) = 2 * IZR (Z.pos p).
Proof. change (Z.pos p~0) with (2 * Z.pos p)%Z. by rewrite mult_IZR. Qed.

Lemma IZR_xI (p : positive) : IZR (Z.pos p~1) = 2 * IZR (Z.pos p) + 1.
Proof. change (Z.pos p~1) with (2 * Z.pos p + 1)%Z. by rewrite plus_IZR, mult_IZR. Qed.

Lemma shr_1_located (u : R) (mrs : shr_record) :
  located_record u mrs -> located_record (u * / 2) (shr_1 mrs).
Proof.
  destruct mrs as [m r s]. intros [Hm Hl]. simpl in Hm.
  destruct m as [|[p|p|]|p]; [| | | |lia].
  - destruct r, s; (split; [simpl; lia|]); simpl in *; lra.
  - destruct r, s; (split; [simpl; lia|]); simpl in *;
      rewrite (IZR_xI p) in Hl; lra.
  - destruct r, s; (split; [simpl; lia|]); simpl in *;
      rewrite (IZR_xO p) in Hl; lra.
  - destruct r, s; (split; [simpl; lia|]); simpl in *; lra.
Qed.

Lemma iter_shr_1_located (p : positive) (u : R) (k : Z) (mrs : shr_record) :
  located_record (scaled u k) mrs ->
  located_record (scaled u (k + Z.pos p)) (SpecFloat.iter_pos shr_1 p mrs).
Proof.
  assert (forall v j x, located_record (scaled v j) x ->
                        located_record (scaled v (j + 1)) (shr_1 x)) as Hstep.
  { intros v j x Hx. rewrite scaled_shift.
    replace (bpow (- (1))) with (/ 2) by (rewrite bpow_opp, bpow_1; done).
    by apply shr_1_located. }
  revert k mrs. induction p as [p IH|p IH|]; intros k mrs Hl; simpl.
  - replace (k + Z.pos p~1)%Z with (k + 1 + Z.pos p + Z.pos p)%Z by lia.
    by apply IH, IH, Hstep.
  - replace (k + Z.pos p~0)%Z with (k + Z.pos p + Z.pos p)%Z by lia.
    by apply IH, IH.
  - by apply Hstep.
Qed.

(** [shr] by [n] places divides by [2^n]; no places, no change. *)
Lemma shr_located (u : R) (mrs : shr_record) (e n : Z) :
  located_record (scaled u e) mrs ->
  located_record (scaled u (snd (shr mrs e n))) (fst (shr mrs e n)) /\
  snd (shr mrs e n) = (e + Z.max 0 n)%Z.
Proof.
  intros Hl. destruct n as [|p|p]; simpl.
  - split; [done|lia].
  - split; [by apply iter_shr_1_located|lia].
  - split; [done|lia].
Qed.
End Locations.

(** ** Rounding to the nearest integer, ties to even *)

Section Nearest.
Local Open Scope R_scope.

Lemma round_nearest_even_is_rne (u : R) (m : Z) (l : location) :
  located u m l -> is_rne u (round_nearest_even m l).
Proof.
  unfold is_rne. destruct l as [|[| |]]; simpl; intros Hl.
  - subst u. repeat split; lra.
  - destruct (Z.even m) eqn:Hm.
    + subst u. repeat split; try lra. done.
    + subst u. rewrite plus_IZR. repeat split; try lra.
      intros _. rewrite Z.add_1_r, Z.even_succ, <- Z.negb_even. by rewrite Hm.
  - repeat split; lra.
  - rewrite plus_IZR. repeat split; lra.
Qed.

Lemma is_rne_le (u1 u2 : R) (n1 n2 : Z) :
  u1 <= u2 -> is_rne u1 n1 -> is_rne u2 n2 -> (n1 <= n2)%Z.
Proof.
  intros Hu (Hb1 & _ & Hlow1) (Hb2 & Hup2 & _).
  destruct (Z_le_gt_dec n1 n2) as [|Hgt]; [done|]. exfalso.
  assert (IZR n2 + 1 <= IZR n1) as Hgap.
  { rewrite <- plus_IZR. apply IZR_le. lia. }
  assert (IZR n1 = IZR n2 + 1) as Hnext by lra.
  assert (n1 = n2 + 1)%Z as ->.
  { apply eq_IZR. by rewrite plus_IZR. }
  assert (Z.even (n2 + 1) = true) as E1 by (apply Hlow1; lra).
  assert (Z.even n2 = true) as E2 by (apply Hup2; lra).
  rewrite Z.add_1_r, Z.even_succ, <- Z.negb_even, E2 in E1. done.
Qed.

Lemma is_rne_IZR (k : Z) : is_rne (IZR k) k.
Proof. repeat split; lra. Qed.

Lemma is_rne_ge (u : R) (n k : Z) : IZR k <= u -> is_rne u n -> (k <= n)%Z.
Proof. intros Hu Hn. exact (is_rne_le _ _ _ _ Hu (is_rne_IZR k) Hn). Qed.

Lemma is_rne_upper (u : R) (n k : Z) : u <= IZR k -> is_rne u n -> (n <= k)%Z.
Proof. intros Hu Hn. exact (is_rne_le _ _ _ _ Hu Hn (is_rne_IZR k)). Qed.
End Nearest.

(** ** What [binary_round_aux] returns *)

Section Rounding.
Local Open Scope R_scope.

Lemma fexp_eq (e : Z) : fexp prec emax e = Z.max (e - 53)%Z (-1074)%Z.
Proof. reflexivity. Qed.

Lemma binary_round_aux_finish (m e : Z) (l : location) :
  binary_round_aux prec emax false m e l =
  finish (round_nearest_even (shr_m (fst (shr_fexp prec emax m e l)))
                             (loc_of_shr_record (fst (shr_fexp prec emax m e l))))
         (snd (shr_fexp prec emax m e l)).
Proof.
  unfold binary_round_aux, finish. by destruct (shr_fexp prec emax m e l) as [mrs' e'].
Qed.

Lemma IZR_bounds_scaled (x : R) (e a : Z) :
  IZR a <= scaled x e < IZR a + 1 ->
  IZR a * bpow e <= x < (IZR a + 1) * bpow e.
Proof.
  intros Hb. pose proof (scaled_bpow x e) as Hx.
  remember (scaled x e) as u eqn:Hu. clear Hu. subst x.
  pose proof (bpow_pos e). nra.
Qed.

Lemma IZR_digits (m : Z) :
  (0 < m)%Z -> bpow (Zdigits2 m - 1) <= IZR m /\ IZR m + 1 <= bpow (Zdigits2 m).
Proof.
  intros Hm. destruct (Zdigits2_bounds m Hm) as [Hlow Hup].
  pose proof (Zdigits2_pos m Hm).
  rewrite !bpow_IZR by lia. split.
  - by apply IZR_le.
  - rewrite <- plus_IZR. apply IZR_le. lia.
Qed.

(** Where the digits [m] at exponent [e] (no coarser than the double's own
    exponent) and the place [l] locate [x], [binary_round_aux] rounds [x]. *)
Lemma binary_round_aux_correct (x : R) (m e : Z) (l : location) :
  (0 <= m)%Z ->
  located (scaled x e) m l ->
  (e <= fexp prec emax (Zdigits2 m + e))%Z ->
  rounds_to x (binary_round_aux prec emax false m e l).
Proof.
  intros Hm Hl Hpre. rewrite binary_round_aux_finish.
  pose proof (located_bounds _ _ _ Hl) as Hb. apply IZR_bounds_scaled in Hb.
  unfold shr_fexp.
  destruct (shr_located x (shr_record_of_loc m l) e
              (fexp prec emax (Zdigits2 m + e) - e)
              (located_record_of_loc _ _ _ Hm Hl)) as [[_ Hl'] He'].
  set (res := shr _ _ _) in *.
  exists (snd res), (round_nearest_even (shr_m (fst res)) (loc_of_shr_record (fst res))).
  split; [|split; [by apply round_nearest_even_is_rne|done]].
  rewrite He'. rewrite fexp_eq in *.
  replace (e + Z.max 0%Z (Z.max (Zdigits2 m + e - 53) (-1074)%Z - e))%Z
    with (Z.max (Zdigits2 m + e - 53) (-1074)%Z)%Z by lia.
  unfold canon.
  destruct (Z.eq_dec m 0%Z) as [->|Hne].
  - change (Zdigits2 0) with 0%Z in *. left. split; [lia|].
    assert (bpow e <= bpow (-1074)) by (apply bpow_le; lia).
    assert (bpow (-1074) < bpow (-1021)) by (by apply bpow_lt).
    lra.
  - destruct (IZR_digits m ltac:(lia)) as [Hlow Hup].
    pose proof (bpow_pos e) as Hpos.
    assert (bpow (Zdigits2 m - 1 + e) <= x) as Hx1.
    { rewrite bpow_add. nra. }
    assert (x < bpow (Zdigits2 m + e)) as Hx2.
    { rewrite bpow_add. nra. }
    destruct (Z_le_gt_dec (Zdigits2 m + e - 53)%Z (-1074)%Z) as [Hsub|Hnorm].
    + left. split; [lia|].
      assert (bpow (Zdigits2 m + e) <= bpow (-1021)) by (apply bpow_le; lia). lra.
    + right. split; [lia|].
      replace (Z.max (Zdigits2 m + e - 53) (-1074)%Z)%Z with (Zdigits2 m + e - 53)%Z by lia.
      replace (Zdigits2 m + e - 53 + 52)%Z with (Zdigits2 m - 1 + e)%Z by lia.
      replace (Zdigits2 m + e - 53 + 53)%Z with (Zdigits2 m + e)%Z by lia.
      done.
Qed.

Lemma finish_below (n e : Z) :
  (-1074 <= e)%Z -> (0 <= n < 2 ^ 53)%Z -> finish n e = pack n e.
Proof.
  intros He Hn. unfold finish, shr_fexp. rewrite fexp_eq.
  assert (Z.max (Zdigits2 n + e - 53) (-1074)%Z - e <= 0)%Z as Hshift.
  { destruct (Z.eq_dec n 0%Z) as [->|Hne]; [simpl; lia|].
    pose proof (Zdigits2_le n 53%Z ltac:(lia) ltac:(lia) ltac:(lia)). lia. }
  destruct (Z.max (Zdigits2 n + e - 53) (-1074)%Z - e)%Z as [|p|p] eqn:E; [|lia|];
    by destruct n.
Qed.

Lemma finish_carry (e : Z) :
  (-1074 <= e)%Z -> finish (2 ^ 53)%Z e = pack (2 ^ 52)%Z (e + 1)%Z.
Proof.
  intros He. unfold finish, shr_fexp. rewrite fexp_eq.
  replace (Z.max (Zdigits2 (2 ^ 53) + e - 53) (-1074)%Z - e)%Z with 1%Z
    by (change (Zdigits2 (2 ^ 53)) with 54%Z; lia).
  reflexivity.
Qed.

(** What [canon] and [is_rne] leave for the digits. *)
Lemma canon_digits (x : R) (e n : Z) :
  0 <= x -> canon x e -> is_rne (scaled x e) n ->
  (-1074 <= e)%Z /\ (0 <= n <= 2 ^ 53)%Z /\ (e = (-1074)%Z \/ 2 ^ 52 <= n)%Z.
Proof.
  intros Hx Hc Hn.
  assert (0 <= scaled x e) as H0.
  { unfold scaled. pose proof (bpow_pos (- e)). nra. }
  assert (scaled x e < bpow 53) as H53.
  { replace 53%Z with (e + 53 - e)%Z by lia. apply scaled_lt_bpow.
    destruct Hc as [[-> Hc]|[_ Hc]]; [done|lra]. }
  rewrite bpow_IZR in H53 by lia.
  split; [destruct Hc as [[-> _]|[? _]]; lia|]. split; [split|].
  - by apply (is_rne_ge (scaled x e)).
  - apply (is_rne_upper (scaled x e)); [lra|done].
  - destruct Hc as [[-> _]|[He Hc]]; [by left|right].
    apply (is_rne_ge (scaled x e)); [|done].
    rewrite <- bpow_IZR by lia. replace 52%Z with (e + 52 - e)%Z by lia.
    apply scaled_ge_bpow. lra.
Qed.

Lemma canon_le (x1 x2 : R) (e1 e2 : Z) :
  x1 <= x2 -> canon x1 e1 -> canon x2 e2 -> (e1 <= e2)%Z.
Proof.
  intros Hx H1 H2. destruct (Z_le_gt_dec e1 e2) as [|Hgt]; [done|]. exfalso.
  assert (x2 < bpow (e2 + 53)) as Hup by (destruct H2 as [[-> ?]|[_ ?]]; [done|lra]).
  destruct H1 as [[-> _]|[_ Hlow]].
  - destruct H2 as [[-> _]|[? _]]; lia.
  - assert (bpow (e1 + 52) < bpow (e2 + 53)) as Hlt by lra.
    apply bpow_lt_inv in Hlt. lia.
Qed.

Lemma pack_leb (n1 e1 n2 e2 : Z) :
  (0 <= n1)%Z -> (0 <= n2)%Z ->
  (e1 < e2 /\ 0 < n2 \/ e1 = e2 /\ n1 <= n2)%Z ->
  SFleb (pack n1 e1) (pack n2 e2) = true.
Proof.
  intros H1 H2 Hle. destruct n1 as [|m1|m1]; [| |lia]; (destruct n2 as [|m2|m2]; [| |lia]);
    simpl; try lia.
  - done.
  - by destruct (e2 <=? 971)%Z.
  - destruct (Z.leb_spec e1 971), (Z.leb_spec e2 971); try done; [|lia].
    unfold SFleb, SFcompare. destruct (Z.compare_spec e1 e2) as [->|Hlt|Hgt]; [|done|lia].
    change (Pos.compare_cont Eq m1 m2) with (m1 ?= m2)%positive.
    destruct (Pos.compare_spec m1 m2); try done. lia.
Qed.

(** Rounding is monotone. *)
Lemma rounds_to_leb (x1 x2 : R) (f1 f2 : spec_float) :
  0 <= x1 -> x1 <= x2 -> rounds_to x1 f1 -> rounds_to x2 f2 -> SFleb f1 f2 = true.
Proof.
  intros H0 Hx (e1 & n1 & Hc1 & Hn1 & ->) (e2 & n2 & Hc2 & Hn2 & ->).
  destruct (canon_digits _ _ _ H0 Hc1 Hn1) as (He1 & Hb1 & Hd1).
  assert (0 <= x2) as H0' by lra.
  destruct (canon_digits _ _ _ H0' Hc2 Hn2) as (He2 & Hb2 & Hd2).
  pose proof (canon_le _ _ _ _ Hx Hc1 Hc2) as Hee.
  assert (e1 = e2 -> n1 <= n2)%Z as Hsame.
  { intros ->. exact (is_rne_le _ _ _ _ (scaled_le _ _ _ Hx) Hn1 Hn2). }
  destruct (Z.eq_dec n1 (2 ^ 53)%Z) as [->|Hn1'], (Z.eq_dec n2 (2 ^ 53)%Z) as [->|Hn2'];
    rewrite ?finish_carry, ?finish_below by lia; apply pack_leb; lia.
Qed.
End Rounding.

(** ** The doubles that are not negative, and their values *)

Section Values.
Local Open Scope R_scope.

Lemma val_nonneg (f : spec_float) : 0 <= real_of f.
Proof.
  destruct f as [s|s| |s m e]; simpl; try lra.
  pose proof (bpow_pos e). assert (0 < IZR (Z.pos m)) by (by apply IZR_lt). nra.
Qed.

Lemma bounded_inv (m : positive) (e : Z) :
  SpecFloat.bounded prec emax m e = true ->
  (-1074 <= e <= 971)%Z /\ (Z.pos m < 2 ^ 53)%Z /\ (e = (-1074)%Z \/ 2 ^ 52 <= Z.pos m)%Z.
Proof.
  unfold SpecFloat.bounded, canonical_mantissa. rewrite fexp_eq.
  intros [Hc He%Z.leb_le]%andb_prop. apply Z.eqb_eq in Hc.
  change (emax - prec)%Z with 971%Z in He.
  pose proof (digits2_pos_bounds m) as [Hlow Hup].
  set (d := Z.pos (digits2_pos m)) in *.
  assert (0 < d)%Z by done.
  destruct (Z_le_gt_dec (d + e - 53) (-1074)%Z) as [Hsub|Hnorm].
  - assert (2 ^ d <= 2 ^ 53)%Z by (apply Z.pow_le_mono_r; lia). lia.
  - assert (d = 53)%Z as Hd by lia. rewrite Hd in Hlow, Hup.
    change (53 - 1)%Z with 52%Z in Hlow. lia.
Qed.

Lemma bounded_intro (m : positive) (e : Z) :
  (-1074 <= e <= 971)%Z -> (Z.pos m < 2 ^ 53)%Z ->
  (e = (-1074)%Z \/ 2 ^ 52 <= Z.pos m)%Z ->
  SpecFloat.bounded prec emax m e = true.
Proof.
  intros He Hm Hd. unfold SpecFloat.bounded, canonical_mantissa. rewrite fexp_eq.
  apply andb_true_intro. split; [apply Z.eqb_eq|apply Z.leb_le; change (emax - prec)%Z with 971%Z; lia].
  change (Z.pos (digits2_pos m)) with (Zdigits2 (Z.pos m)).
  pose proof (Zdigits2_le (Z.pos m) 53%Z ltac:(lia) ltac:(lia) Hm).
  destruct Hd as [->|Hd]; [lia|].
  pose proof (Zdigits2_ge (Z.pos m) 52%Z ltac:(lia) Hd). lia.
Qed.

Lemma pack_nonneg (n e : Z) :
  (-1074 <= e)%Z -> (0 <= n < 2 ^ 53)%Z -> (e = (-1074)%Z \/ 2 ^ 52 <= n)%Z ->
  nonneg (pack n e).
Proof.
  intros He Hn Hd. destruct n as [|m|m]; [done| |lia]. simpl.
  destruct (Z.leb_spec e 971); [|done]. split; [done|].
  apply bounded_intro; lia.
Qed.

Lemma rounds_to_nonneg (x : R) (f : spec_float) :
  0 <= x -> rounds_to x f -> nonneg f.
Proof.
  intros Hx (e & n & Hc & Hn & ->).
  destruct (canon_digits _ _ _ Hx Hc Hn) as (He & Hb & Hd).
  destruct (Z.eq_dec n (2 ^ 53)%Z) as [->|Hne].
  - rewrite finish_carry by done. apply pack_nonneg; lia.
  - rewrite finish_below by lia. apply pack_nonneg; lia.
Qed.

Lemma scaled_mul_bpow (a : R) (e : Z) : scaled (a * bpow e) e = a.
Proof.
  unfold scaled. rewrite Rmult_assoc, <- bpow_add.
  replace (e + - e)%Z with 0%Z by lia. rewrite bpow_0. lra.
Qed.

Lemma bounded_canon (m : positive) (e : Z) :
  SpecFloat.bounded prec emax m e = true -> canon (IZR (Z.pos m) * bpow e) e.
Proof.
  intros (He & Hm & Hd)%bounded_inv. pose proof (bpow_pos e) as Hpos.
  assert (IZR (Z.pos m) * bpow e < bpow (e + 53)) as Hup.
  { rewrite bpow_add, (bpow_IZR 53) by lia. apply IZR_lt in Hm. nra. }
  destruct (Z.eq_dec e (-1074)%Z) as [->|Hne].
  - by left.
  - right. split; [lia|]. split; [|done].
    destruct Hd as [->|Hd]; [done|].
    rewrite bpow_add, (bpow_IZR 52) by lia. apply IZR_le in Hd. nra.
Qed.

(** A double that is a number rounds to itself. *)
Lemma val_rounds_to (f : spec_float) :
  nonneg f -> is_number f -> rounds_to (real_of f) f.
Proof.
  destruct f as [s|s| |s m e]; simpl; try done.
  - intros -> _. exists (-1074)%Z, 0%Z. split; [|split; [|done]].
    + left. split; [done|]. apply bpow_pos.
    + unfold scaled. rewrite Rmult_0_l. apply is_rne_IZR.
  - intros [-> Hb] _. exists e, (Z.pos m). split; [by apply bounded_canon|]. split.
    + rewrite scaled_mul_bpow. apply is_rne_IZR.
    + destruct (bounded_inv _ _ Hb) as (He & Hm & Hd).
      rewrite finish_below by lia. simpl.
      by destruct (Z.leb_spec e 971); [|lia].
Qed.

Lemma val_leb (f1 f2 : spec_float) :
  nonneg f1 -> nonneg f2 -> is_number f1 -> is_number f2 ->
  real_of f1 <= real_of f2 -> SFleb f1 f2 = true.
Proof.
  intros N1 N2 F1 F2 Hle.
  apply (rounds_to_leb (real_of f1) (real_of f2)); [apply val_nonneg|done| |];
    by apply val_rounds_to.
Qed.

Lemma leb_antisym (f1 f2 : spec_float) :
  nonneg f1 -> nonneg f2 -> is_number f1 -> is_number f2 ->
  SFleb f1 f2 = true -> SFleb f2 f1 = true -> real_of f1 = real_of f2.
Proof.
  destruct f1 as [s1|s1| |s1 m1 e1], f2 as [s2|s2| |s2 m2 e2]; simpl; try done.
  - by intros -> [-> _].
  - by intros [-> _] ->.
  - intros [-> _] [-> _] _ _. unfold SFleb, SFcompare.
    change (Pos.compare_cont Eq m1 m2) with (m1 ?= m2)%positive.
    change (Pos.compare_cont Eq m2 m1) with (m2 ?= m1)%positive.
    destruct (Z.compare_spec e1 e2) as [He|He|He],
             (Z.compare_spec e2 e1) as [He'|He'|He']; try done; try lia.
    destruct (Pos.compare_spec m1 m2) as [Hm|Hm|Hm],
             (Pos.compare_spec m2 m1) as [Hm'|Hm'|Hm']; try done; try lia.
    by subst.
Qed.

Lemma leb_val (f1 f2 : spec_float) :
  nonneg f1 -> nonneg f2 -> is_number f2 ->
  SFleb f1 f2 = true -> is_number f1 /\ real_of f1 <= real_of f2.
Proof.
  intros N1 N2 F2 Hle.
  assert (is_number f1) as F1.
  { destruct f1 as [s1|s1| |s1 m1 e1]; try done.
    simpl in N1. subst s1. by destruct f2 as [s2|s2| |[] m2 e2]. }
  split; [done|].
  destruct (Rle_lt_dec (real_of f1) (real_of f2)) as [|Hlt]; [done|].
  pose proof (val_leb f2 f1 N2 N1 F2 F1 ltac:(lra)) as Hge.
  rewrite (leb_antisym f1 f2); [lra|done..].
Qed.

Lemma leb_zero (f : spec_float) : nonneg f -> SFleb (S754_zero false) f = true.
Proof. destruct f as [s|s| |s m e]; simpl; try done; by intros [-> _] || intros ->. Qed.

Lemma leb_infinity (f : spec_float) : nonneg f -> SFleb f (S754_infinity false) = true.
Proof. destruct f as [s|s| |s m e]; simpl; try done; by intros [-> _] || intros ->. Qed.
End Values.

(** ** Division, square root and product round the exact result *)

Section Operations.
Local Open Scope R_scope.

Lemma new_location_located (q r m : Z) :
  (0 < m)%Z -> (0 <= r < m)%Z ->
  located (IZR q + IZR r / IZR m) q (new_location m r).
Proof.
  intros Hm Hr.
  assert (0 < IZR m) as HM by (by apply IZR_lt).
  set (rho := IZR r / IZR m).
  assert (rho * IZR m = IZR r) as Hrho by (unfold rho; field; lra).
  assert (forall a b : Z, (a < b)%Z -> IZR a < IZR b) as Hlt by (intros; by apply IZR_lt).
  assert (forall a b : Z, (a <= b)%Z -> IZR a <= IZR b) as Hle by (intros; by apply IZR_le).
  pose proof (Hle _ _ (proj1 Hr)) as Hr0. pose proof (Hlt _ _ (proj2 Hr)) as Hr1.
  unfold new_location.
  destruct (Z.eqb_spec r 0) as [->|Hne].
  { assert (rho = 0) as -> by nra.
    destruct (Z.even m); unfold new_location_even, new_location_odd; simpl; lra. }
  assert (0 < IZR r) as Hr2 by (apply Hlt; lia).
  destruct (Z.even m) eqn:Hev; unfold new_location_even, new_location_odd;
    rewrite (proj2 (Z.eqb_neq r 0) Hne).
  - destruct (Z.compare_spec (2 * r) m) as [Heq|Hcmp|Hcmp]; simpl.
    + assert (2 * IZR r = IZR m) by (rewrite <- Heq, mult_IZR; done). nra.
    + apply Hlt in Hcmp. rewrite mult_IZR in Hcmp. split; nra.
    + apply Hlt in Hcmp. rewrite mult_IZR in Hcmp. split; nra.
  - destruct (Z.compare_spec (2 * r + 1) m) as [Heq|Hcmp|Hcmp]; simpl.
    + assert (2 * IZR r + 1 = IZR m) by (rewrite <- Heq, plus_IZR, mult_IZR; done).
      split; nra.
    + apply Hlt in Hcmp. rewrite plus_IZR, mult_IZR in Hcmp. split; nra.
    + assert (m < 2 * r)%Z as Hcmp'.
      { destruct (Z.eq_dec m (2 * r)%Z) as [->|]; [|lia].
        rewrite Z.even_mul in Hev. done. }
      apply Hlt in Hcmp'. rewrite mult_IZR in Hcmp'. split; nra.
Qed.

Lemma shifted (m s : Z) :
  (0 <= s)%Z ->
  match s with
  | Z.pos _ => Z.shiftl m s
  | Z0 => m
  | Z.neg _ => 0%Z
  end = (m * 2 ^ s)%Z.
Proof.
  intros Hs. destruct s as [|p|p]; [lia| |lia]. by rewrite Z.shiftl_mul_pow2.
Qed.

(** From the bounds of a real between the integers [q] and [q + 1] at
    exponent [e'], and a lower bound [2^(X-1)] of it, the exponent [e'] is
    no coarser than the double's own. *)
Lemma fine_enough (x : R) (q e' X : Z) :
  (0 <= q)%Z -> IZR q <= scaled x e' < IZR q + 1 ->
  bpow (X - 1) <= x ->
  (e' <= fexp prec emax X)%Z ->
  (e' <= fexp prec emax (Zdigits2 q + e'))%Z.
Proof.
  intros Hq Hb%IZR_bounds_scaled Hlow He'. rewrite fexp_eq in *.
  pose proof (bpow_pos e') as Hpos.
  destruct (Z.eq_dec q 0%Z) as [->|Hne].
  - change (Zdigits2 0) with 0%Z.
    assert (bpow (X - 1) < bpow e') as Hlt by nra.
    apply bpow_lt_inv in Hlt. lia.
  - destruct (IZR_digits q ltac:(lia)) as [_ Hup].
    assert (bpow (X - 1) < bpow (Zdigits2 q + e')) as Hlt.
    { rewrite (bpow_add (Zdigits2 q)). nra. }
    apply bpow_lt_inv in Hlt. lia.
Qed.

Lemma SFdiv_core_binary_correct (m1 m2 : positive) (e1 e2 : Z) :
  let x := IZR (Z.pos m1) * bpow e1 / (IZR (Z.pos m2) * bpow e2) in
  let '(q, e', l) := SFdiv_core_binary prec emax (Z.pos m1) e1 (Z.pos m2) e2 in
  (0 <= q)%Z /\ located (scaled x e') q l /\
  (e' <= fexp prec emax (Zdigits2 q + e'))%Z.
Proof.
  intros x. unfold SFdiv_core_binary.
  set (X := (Zdigits2 (Z.pos m1) + e1 - (Zdigits2 (Z.pos m2) + e2))%Z).
  set (e' := Z.min (fexp prec emax X) (e1 - e2)).
  rewrite (shifted (Z.pos m1) (e1 - e2 - e')) by lia.
  set (s := (e1 - e2 - e')%Z). assert (0 <= s)%Z as Hs by lia.
  pose proof (Z_div_mod (Z.pos m1 * 2 ^ s) (Z.pos m2) ltac:(lia)) as Hdiv.
  destruct (Z.div_eucl (Z.pos m1 * 2 ^ s) (Z.pos m2)) as [q r].
  destruct Hdiv as [Hqr Hr].
  assert (0 < 2 ^ s)%Z as H2s by (by apply Z.pow_pos_nonneg).
  assert (0 <= q)%Z as Hq by nia.
  assert (0 < IZR (Z.pos m1)) as HM1 by (by apply IZR_lt).
  assert (0 < IZR (Z.pos m2)) as HM2 by (by apply IZR_lt).
  pose proof (bpow_pos e1) as Hp1. pose proof (bpow_pos e2) as Hp2.
  assert (scaled x e' = IZR q + IZR r / IZR (Z.pos m2)) as Hu.
  { assert (IZR (Z.pos m1) * bpow s = IZR (Z.pos m2) * IZR q + IZR r) as Hqr'.
    { rewrite bpow_IZR by done. rewrite <- !mult_IZR, <- plus_IZR. by f_equal. }
    unfold scaled, x.
    replace (bpow s) with (bpow e1 * / bpow e2 * bpow (- e')) in Hqr'.
    - apply (Rmult_eq_reg_r (IZR (Z.pos m2))); [|lra].
      transitivity (IZR (Z.pos m1) * (bpow e1 * / bpow e2 * bpow (- e'))); [field; lra|].
      rewrite Hqr'. field. lra.
    - unfold s. replace (e1 - e2 - e')%Z with (e1 + - e2 + - e')%Z by lia.
      by rewrite !bpow_add, (bpow_opp e2). }
  assert (located (scaled x e') q (new_location (Z.pos m2) r)) as Hl.
  { rewrite Hu. apply new_location_located; lia. }
  split; [done|]. split; [done|].
  apply (fine_enough x q e' X); [done|by apply (located_bounds _ _ _ Hl)| |lia].
  destruct (IZR_digits (Z.pos m1) ltac:(lia)) as [Hlow1 _].
  destruct (IZR_digits (Z.pos m2) ltac:(lia)) as [_ Hup2].
  set (d1 := Zdigits2 (Z.pos m1)) in *. set (d2 := Zdigits2 (Z.pos m2)) in *.
  assert (x * (IZR (Z.pos m2) * bpow e2) = IZR (Z.pos m1) * bpow e1) as Hx.
  { unfold x. field. split; lra. }
  assert (bpow (X - 1) * (bpow d2 * bpow e2) = bpow (d1 - 1) * bpow e1) as HX.
  { rewrite <- !bpow_add. f_equal. unfold X. lia. }
  pose proof (bpow_pos (X - 1)) as HpX. pose proof (bpow_pos d2) as Hpd2.
  pose proof (bpow_pos (d1 - 1)) as Hpd1.
  assert (0 < x) as Hxpos.
  { unfold x. apply Rdiv_lt_0_compat; nra. }
  assert (bpow (X - 1) * (IZR (Z.pos m2) * bpow e2) <= x * (IZR (Z.pos m2) * bpow e2)) as Hcmp.
  { rewrite Hx. transitivity (bpow (X - 1) * (bpow d2 * bpow e2)); [|rewrite HX; nra].
    apply Rmult_le_compat_l; [lra|]. nra. }
  apply Rmult_le_reg_r in Hcmp; [done|nra].
Qed.

Lemma SFdiv_rounds_to (m1 m2 : positive) (e1 e2 : Z) :
  rounds_to (IZR (Z.pos m1) * bpow e1 / (IZR (Z.pos m2) * bpow e2))
            (SFdiv prec emax (S754_finite false m1 e1) (S754_finite false m2 e2)).
Proof.
  pose proof (SFdiv_core_binary_correct m1 m2 e1 e2) as Hcore. simpl in *.
  destruct (SFdiv_core_binary prec emax (Z.pos m1) e1 (Z.pos m2) e2) as [[q e'] l].
  destruct Hcore as (Hq & Hl & Hpre). by apply binary_round_aux_correct.
Qed.

Lemma SFsqrt_core_binary_correct (m : positive) (e : Z) (x : R) :
  0 <= x -> x * x = IZR (Z.pos m) * bpow e ->
  let '(q, e', l) := SFsqrt_core_binary prec emax (Z.pos m) e in
  (0 <= q)%Z /\ located (scaled x e') q l /\
  (e' <= fexp prec emax (Zdigits2 q + e'))%Z.
Proof.
  intros Hx Hxx. unfold SFsqrt_core_binary.
  set (Y := Z.div2 (Zdigits2 (Z.pos m) + e + 1)).
  set (e' := Z.min (fexp prec emax Y) (Z.div2 e)).
  assert (2 * e' <= e)%Z as He'.
  { pose proof (Z.div2_div e). pose proof (Z.mul_div_le e 2 ltac:(lia)). lia. }
  rewrite (shifted (Z.pos m) (e - 2 * e')) by lia.
  set (s := (e - 2 * e')%Z). assert (0 <= s)%Z as Hs by lia.
  assert (0 < 2 ^ s)%Z as H2s by (by apply Z.pow_pos_nonneg).
  pose proof (Z.sqrtrem_spec (Z.pos m * 2 ^ s) ltac:(lia)) as Hsq.
  destruct (Z.sqrtrem (Z.pos m * 2 ^ s)) as [q r]. destruct Hsq as [Hqr Hr].
  assert (0 <= q)%Z as Hq by lia.
  set (u := scaled x e').
  assert (0 <= u) as Hu0.
  { unfold u, scaled. pose proof (bpow_pos (- e')). nra. }
  assert (u * u = IZR q * IZR q + IZR r) as Huu.
  { rewrite <- mult_IZR, <- plus_IZR, <- Hqr, mult_IZR, <- bpow_IZR by done.
    unfold u, scaled, s. replace (e - 2 * e')%Z with (e + - e' + - e')%Z by lia.
    rewrite !bpow_add.
    transitivity (x * x * (bpow (- e') * bpow (- e'))); [lra|]. rewrite Hxx. lra. }
  assert (0 <= IZR q) as Hq0 by (by apply IZR_le).
  assert (0 <= IZR r <= 2 * IZR q) as Hr0.
  { split; [apply IZR_le; lia|]. rewrite <- mult_IZR. apply IZR_le. lia. }
  assert (located u q
            (if (r =? 0)%Z then loc_Exact
             else loc_Inexact (if (r <=? q)%Z then Lt else Gt))) as Hl.
  { destruct (Z.eqb_spec r 0) as [->|Hne]; simpl.
    - nra.
    - assert (1 <= IZR r) as Hr1 by (apply IZR_le; lia).
      destruct (Z.leb_spec r q) as [Hle|Hgt]; simpl.
      + apply IZR_le in Hle. split; nra.
      + assert (IZR q + 1 <= IZR r) as Hgt'.
        { rewrite <- plus_IZR. apply IZR_le. lia. }
        split; nra. }
  split; [done|]. split; [done|].
  apply (fine_enough x q e' Y); [done|by apply (located_bounds _ _ _ Hl)| |lia].
  destruct (IZR_digits (Z.pos m) ltac:(lia)) as [Hlow _].
  set (d := Zdigits2 (Z.pos m)) in *.
  assert (2 * Y <= d + e + 1)%Z as HY.
  { unfold Y. pose proof (Z.div2_div (d + e + 1)).
    pose proof (Z.mul_div_le (d + e + 1) 2 ltac:(lia)). lia. }
  assert (bpow (Y - 1) * bpow (Y - 1) <= x * x) as Hsqs.
  { rewrite Hxx, <- bpow_add. transitivity (bpow (d - 1 + e)).
    - apply bpow_le. lia.
    - rewrite bpow_add. pose proof (bpow_pos e). nra. }
  pose proof (bpow_pos (Y - 1)). nra.
Qed.

Lemma SFsqrt_rounds_to (m : positive) (e : Z) :
  rounds_to (sqrt (IZR (Z.pos m) * bpow e))
            (SFsqrt prec emax (S754_finite false m e)).
Proof.
  assert (0 <= IZR (Z.pos m) * bpow e) as Hpos.
  { pose proof (bpow_pos e). assert (0 < IZR (Z.pos m)) by (by apply IZR_lt). nra. }
  pose proof (SFsqrt_core_binary_correct m e (sqrt (IZR (Z.pos m) * bpow e))
                (sqrt_pos _) (sqrt_sqrt _ Hpos)) as Hcore.
  simpl in *.
  destruct (SFsqrt_core_binary prec emax (Z.pos m) e) as [[q e'] l].
  destruct Hcore as (Hq & Hl & Hpre). by apply binary_round_aux_correct.
Qed.

Lemma SFmul_rounds_to (m1 m2 : positive) (e1 e2 : Z) :
  SpecFloat.bounded prec emax m1 e1 = true ->
  SpecFloat.bounded prec emax m2 e2 = true ->
  rounds_to (IZR (Z.pos m1) * bpow e1 * (IZR (Z.pos m2) * bpow e2))
            (SFmul prec emax (S754_finite false m1 e1) (S754_finite false m2 e2)).
Proof.
  intros H1 H2. simpl. apply binary_round_aux_correct; [lia| |].
  - simpl. rewrite Pos2Z.inj_mul, mult_IZR.
    replace (IZR (Z.pos m1) * bpow e1 * (IZR (Z.pos m2) * bpow e2))
      with (IZR (Z.pos m1) * IZR (Z.pos m2) * bpow (e1 + e2))
      by (rewrite bpow_add; lra).
    by rewrite scaled_mul_bpow.
  - unfold SpecFloat.bounded, canonical_mantissa in H1, H2.
    apply andb_prop in H1 as [H1%Z.eqb_eq _], H2 as [H2%Z.eqb_eq _].
    rewrite fexp_eq in *.
    pose proof (digits2_pos_bounds m1) as [Hlow1 _].
    pose proof (digits2_pos_bounds m2) as [Hlow2 _].
    set (d1 := Z.pos (digits2_pos m1)) in *. set (d2 := Z.pos (digits2_pos m2)) in *.
    assert (0 < d1)%Z by done. assert (0 < d2)%Z by done.
    assert (2 ^ (d1 - 1 + (d2 - 1)) <= Z.pos (m1 * m2))%Z as Hprod.
    { rewrite Z.pow_add_r by lia. rewrite Pos2Z.inj_mul.
      apply Z.mul_le_mono_nonneg; try done; apply Z.pow_nonneg; lia. }
    assert (d1 - 1 + (d2 - 1) < Zdigits2 (Z.pos (m1 * m2)))%Z
      by (apply Zdigits2_ge; [lia|done]).
    lia.
Qed.
End Operations.

(** ** Operations that keep or turn the order of doubles *)

Section Monotone.
Local Open Scope R_scope.

Lemma positive_number_inv (f : spec_float) :
  positive_number f ->
  exists m e, f = S754_finite false m e /\ SpecFloat.bounded prec emax m e = true /\
              0 < real_of f.
Proof.
  destruct f as [s|s| |[] m e]; try done. intros Hb. exists m, e.
  split; [done|]. split; [done|]. simpl.
  pose proof (bpow_pos e). assert (0 < IZR (Z.pos m)) by (by apply IZR_lt). nra.
Qed.

Lemma nonneg_cases (f : spec_float) :
  nonneg f ->
  f = S754_zero false \/ f = S754_infinity false \/ positive_number f.
Proof.
  destruct f as [s|s| |s m e]; simpl; try done.
  - intros ->. by left.
  - intros ->. right. by left.
  - intros [-> Hb]. right. by right.
Qed.

(** An operation that rounds an increasing function of the value of its
    argument, and keeps 0 and the infinity, keeps the order. *)
Lemma monotone_on_nonneg (F : spec_float -> spec_float) (g : R -> R) :
  (forall m e, SpecFloat.bounded prec emax m e = true ->
     rounds_to (g (IZR (Z.pos m) * bpow e)) (F (S754_finite false m e))) ->
  F (S754_zero false) = S754_zero false ->
  F (S754_infinity false) = S754_infinity false ->
  (forall x y, 0 < x <= y -> 0 <= g x <= g y) ->
  forall p1 p2, nonneg p1 -> nonneg p2 -> SFleb p1 p2 = true ->
    nonneg (F p1) /\ nonneg (F p2) /\ SFleb (F p1) (F p2) = true.
Proof.
  intros Hround Hzero Hinf Hg.
  assert (forall p, nonneg p -> nonneg (F p)) as Hnn.
  { intros p [->|[->|(m & e & -> & Hb & Hpos)%positive_number_inv]]%nonneg_cases.
    - by rewrite Hzero.
    - by rewrite Hinf.
    - apply (rounds_to_nonneg (g (IZR (Z.pos m) * bpow e))); [|by apply Hround].
      apply (Hg _ (IZR (Z.pos m) * bpow e)). simpl in Hpos. lra. }
  intros p1 p2 N1 N2 Hle. split; [by apply Hnn|]. split; [by apply Hnn|].
  destruct (nonneg_cases p2 N2) as [->|[->|P2]].
  - destruct (nonneg_cases p1 N1) as [->|[->|P1]]; [|done|].
    + rewrite Hzero. by apply leb_zero.
    + by destruct p1 as [s|s| |[] m e].
  - rewrite Hinf. by apply leb_infinity, Hnn.
  - destruct (nonneg_cases p1 N1) as [->|[->|P1]].
    + rewrite Hzero. by apply leb_zero, Hnn.
    + by destruct p2 as [s|s| |[] m e].
    + destruct (leb_val p1 p2 N1 N2) as [_ Hval]; [by destruct p2|done|].
      destruct (positive_number_inv _ P1) as (m1 & e1 & -> & Hb1 & Hpos1).
      destruct (positive_number_inv _ P2) as (m2 & e2 & -> & Hb2 & Hpos2).
      simpl in Hval, Hpos1.
      apply (rounds_to_leb (g (IZR (Z.pos m1) * bpow e1)) (g (IZR (Z.pos m2) * bpow e2)));
        [| |by apply Hround..].
      * apply (Hg _ (IZR (Z.pos m2) * bpow e2)). lra.
      * apply Hg. lra.
Qed.

(** An operation that rounds a decreasing function, takes 0 to the
    infinity and the infinity to 0, turns the order. *)
Lemma antitone_on_nonneg (F : spec_float -> spec_float) (g : R -> R) :
  (forall m e, SpecFloat.bounded prec emax m e = true ->
     rounds_to (g (IZR (Z.pos m) * bpow e)) (F (S754_finite false m e))) ->
  F (S754_zero false) = S754_infinity false ->
  F (S754_infinity false) = S754_zero false ->
  (forall x y, 0 < x <= y -> 0 <= g y <= g x) ->
  forall p1 p2, nonneg p1 -> nonneg p2 -> SFleb p1 p2 = true ->
    nonneg (F p1) /\ nonneg (F p2) /\ SFleb (F p2) (F p1) = true.
Proof.
  intros Hround Hzero Hinf Hg.
  assert (forall p, nonneg p -> nonneg (F p)) as Hnn.
  { intros p [->|[->|(m & e & -> & Hb & Hpos)%positive_number_inv]]%nonneg_cases.
    - by rewrite Hzero.
    - by rewrite Hinf.
    - apply (rounds_to_nonneg (g (IZR (Z.pos m) * bpow e))); [|by apply Hround].
      apply (Hg (IZR (Z.pos m) * bpow e)). simpl in Hpos. lra. }
  intros p1 p2 N1 N2 Hle. split; [by apply Hnn|]. split; [by apply Hnn|].
  destruct (nonneg_cases p2 N2) as [->|[->|P2]].
  - destruct (nonneg_cases p1 N1) as [->|[->|P1]]; [|done|].
    + rewrite Hzero. by apply leb_infinity.
    + by destruct p1 as [s|s| |[] m e].
  - rewrite Hinf. by apply leb_zero, Hnn.
  - destruct (nonneg_cases p1 N1) as [->|[->|P1]].
    + rewrite Hzero. by apply leb_infinity, Hnn.
    + by destruct p2 as [s|s| |[] m e].
    + destruct (leb_val p1 p2 N1 N2) as [_ Hval]; [by destruct p2|done|].
      destruct (positive_number_inv _ P1) as (m1 & e1 & -> & Hb1 & Hpos1).
      destruct (positive_number_inv _ P2) as (m2 & e2 & -> & Hb2 & Hpos2).
      simpl in Hval, Hpos1.
      apply (rounds_to_leb (g (IZR (Z.pos m2) * bpow e2)) (g (IZR (Z.pos m1) * bpow e1)));
        [| |by apply Hround..].
      * apply (Hg (IZR (Z.pos m1) * bpow e1)). lra.
      * apply Hg. lra.
Qed.

Lemma SFsqrt_monotone (p1 p2 : spec_float) :
  nonneg p1 -> nonneg p2 -> SFleb p1 p2 = true ->
  nonneg (SFsqrt prec emax p1) /\ nonneg (SFsqrt prec emax p2) /\
  SFleb (SFsqrt prec emax p1) (SFsqrt prec emax p2) = true.
Proof.
  apply (monotone_on_nonneg (SFsqrt prec emax) sqrt); try done.
  - intros m e _. apply SFsqrt_rounds_to.
  - intros x y Hxy. split; [apply sqrt_pos|apply sqrt_le_1; lra].
Qed.

Lemma SFmul_monotone (c p1 p2 : spec_float) :
  positive_number c ->
  nonneg p1 -> nonneg p2 -> SFleb p1 p2 = true ->
  nonneg (SFmul prec emax c p1) /\ nonneg (SFmul prec emax c p2) /\
  SFleb (SFmul prec emax c p1) (SFmul prec emax c p2) = true.
Proof.
  intros (mc & ec & -> & Hc & Hpos)%positive_number_inv. simpl in Hpos.
  apply (monotone_on_nonneg (SFmul prec emax (S754_finite false mc ec))
           (fun x => IZR (Z.pos mc) * bpow ec * x)); try done.
  - intros m e Hb. by apply SFmul_rounds_to.
  - intros x y Hxy. split; nra.
Qed.

Lemma SFmul_monotone_r (c p1 p2 : spec_float) :
  positive_number c ->
  nonneg p1 -> nonneg p2 -> SFleb p1 p2 = true ->
  nonneg (SFmul prec emax p1 c) /\ nonneg (SFmul prec emax p2 c) /\
  SFleb (SFmul prec emax p1 c) (SFmul prec emax p2 c) = true.
Proof.
  intros (mc & ec & -> & Hc & Hpos)%positive_number_inv. simpl in Hpos.
  apply (monotone_on_nonneg (fun p => SFmul prec emax p (S754_finite false mc ec))
           (fun x => x * (IZR (Z.pos mc) * bpow ec))); try done.
  - intros m e Hb. by apply SFmul_rounds_to.
  - intros x y Hxy. split; nra.
Qed.

Lemma SFdiv_monotone (c p1 p2 : spec_float) :
  positive_number c ->
  nonneg p1 -> nonneg p2 -> SFleb p1 p2 = true ->
  nonneg (SFdiv prec emax p1 c) /\ nonneg (SFdiv prec emax p2 c) /\
  SFleb (SFdiv prec emax p1 c) (SFdiv prec emax p2 c) = true.
Proof.
  intros (mc & ec & -> & Hc & Hpos)%positive_number_inv. simpl in Hpos.
  apply (monotone_on_nonneg (fun p => SFdiv prec emax p (S754_finite false mc ec))
           (fun x => x / (IZR (Z.pos mc) * bpow ec))); try done.
  - intros m e Hb. by apply SFdiv_rounds_to.
  - intros x y Hxy. assert (0 < / (IZR (Z.pos mc) * bpow ec)) by (by apply Rinv_0_lt_compat).
    unfold Rdiv. split; nra.
Qed.

Lemma SFdiv_antitone (c p1 p2 : spec_float) :
  positive_number c ->
  nonneg p1 -> nonneg p2 -> SFleb p1 p2 = true ->
  nonneg (SFdiv prec emax c p1) /\ nonneg (SFdiv prec emax c p2) /\
  SFleb (SFdiv prec emax c p2) (SFdiv prec emax c p1) = true.
Proof.
  intros (mc & ec & -> & Hc & Hpos)%positive_number_inv. simpl in Hpos.
  apply (antitone_on_nonneg (SFdiv prec emax (S754_finite false mc ec))
           (fun x => IZR (Z.pos mc) * bpow ec / x)); try done.
  - intros m e Hb. by apply SFdiv_rounds_to.
  - intros x y Hxy.
    assert (0 < / y) by (apply Rinv_0_lt_compat; lra).
    assert (/ y <= / x) by (apply Rinv_le_contravar; lra).
    unfold Rdiv. split; nra.
Qed.
End Monotone.

(** ** The same, of the doubles of the program *)

Section Doubles.
Local Open Scope float_scope.

Lemma positive_double (x : float) :
  (0 <? x) = true -> nonneg (Prim2SF x).
Proof.
  rewrite ltb_spec. change (Prim2SF 0) with (S754_zero false).
  pose proof (Prim2SF_valid x) as Hv.
  destruct (Prim2SF x) as [s|[]| |[] m e]; try done.
Qed.

Lemma above_positive_double (x y : float) :
  (0 <? x) = true -> (x <=? y) = true -> nonneg (Prim2SF y).
Proof.
  rewrite ltb_spec, leb_spec. change (Prim2SF 0) with (S754_zero false).
  pose proof (Prim2SF_valid y) as Hv.
  destruct (Prim2SF x) as [s|[]| |[] m e]; try done;
    destruct (Prim2SF y) as [s'|[]| |[] m' e']; try done.
Qed.

Lemma ltb_leb (x y : float) : (x <? y) = true -> (x <=? y) = true.
Proof.
  rewrite ltb_spec, leb_spec. unfold SFltb, SFleb.
  by destruct (SFcompare (Prim2SF x) (Prim2SF y)) as [[| |]|].
Qed.

(** With a count [n] that is a positive number and areas [0 < c1 <= c2]:
    the quotient [n / c] does not grow with [c], and
    [1 / (2 * sqrt (n / c))] does not shrink. *)
Lemma density_and_distance_ordered (n c1 c2 : float) :
  positive_number (Prim2SF n) ->
  (0 <? c1) = true -> (c1 <=? c2) = true ->
  (n / c2 <=? n / c1) = true /\
  (1 / (2 * PrimFloat.sqrt (n / c1)) <=? 1 / (2 * PrimFloat.sqrt (n / c2))) = true.
Proof.
  intros Hn Hpos Hle.
  pose proof (positive_double c1 Hpos) as N1.
  pose proof (above_positive_double c1 c2 Hpos Hle) as N2.
  rewrite !leb_spec, !div_spec, !mul_spec, !sqrt_spec, !div_spec in *.
  destruct (SFdiv_antitone _ _ _ Hn N1 N2 Hle) as (D1 & D2 & Hd).
  split; [done|].
  destruct (SFsqrt_monotone _ _ D2 D1 Hd) as (S2 & S1 & Hs).
  destruct (SFmul_monotone (Prim2SF 2) _ _ ltac:(done) S2 S1 Hs) as (T2 & T1 & Ht).
  by destruct (SFdiv_antitone (Prim2SF 1) _ _ ltac:(done) T2 T1 Ht) as (_ & _ & He).
Qed.
End Doubles.

(** * Shrinking the study area *)

Section Shrinking.
Context {G : Type} (K : Kernel float G).

Local Abbreviation value := (value float G).
Local Abbreviation heap := (heap float G).

Local Open Scope float_scope.

(** The population density and the expected mean distance of a dataset
    of [n >= 1] features, for converted areas [0 < c1 <= c2]. *)
Lemma expectedMeanDistance_ordered (n : nat) (c1 c2 : float) :
  (1 <= n)%nat -> (Z.of_nat n < 2 ^ 53)%Z ->
  (0 <? c1) = true -> (c1 <=? c2) = true ->
  (populationDensity n c2 <=? populationDensity n c1) = true /\
  (expectedMeanDistance (populationDensity n c1) <=?
     expectedMeanDistance (populationDensity n c2)) = true.
Proof.
  intros Hn Hsmall Hpos Hle.
  apply (density_and_distance_ordered (num_of_nat n) c1 c2); [|done..].
  destruct (count_number n Hn Hsmall) as (m & e & Hcount).
  pose proof (Prim2SF_valid (num_of_nat n)) as Hvalid.
  rewrite Hcount in *. done.
Qed.

(** C8, as amended.  In double precision: for a dataset of at least one
    feature, and two study areas of positive measured areas [a1 < a2]
    whose conversion to the resolved units keeps their order and leaves
    the smaller one positive, the call on the smaller study area works
    with a population density that is not smaller and stores an
    [expectedMeanDistance] that is not greater.  Neither has to differ:
    the rounding of the quotient, of the square root, of the product and
    of the reciprocal can give both calls the same numbers.  (An array
    has fewer than 2^32 elements.) *)
Theorem smaller_study_area_not_greater (dataset : value) (options1 options2 : option Options)
    (h h1 h2 : heap) (v1 v2 : value) (fs : list value) (s1 s2 : loc) (g1 g2 : G)
    (a1 a2 c1 c2 : float) :
  collection_features dataset h = (Returned fs, h) ->
  (1 <= length fs)%nat ->
  (Z.of_nat (length fs) < 2 ^ 32)%Z ->
  opt_studyArea (default no_options options1) = Some s1 ->
  opt_studyArea (default no_options options2) = Some s2 ->
  resolved_units options1 = resolved_units options2 ->
  geometry (VRef s1) h = (Returned g1, h) -> area_of K g1 = Returned a1 ->
  geometry (VRef s2) h = (Returned g2, h) -> area_of K g2 = Returned a2 ->
  convert_area K a1 "meters" (resolved_units options1) = Returned c1 ->
  convert_area K a2 "meters" (resolved_units options1) = Returned c2 ->
  (forall x y cx cy, (0 <? x) = true -> (x <=? y) = true ->
     convert_area K x "meters" (resolved_units options1) = Returned cx ->
     convert_area K y "meters" (resolved_units options1) = Returned cy ->
     (cx <=? cy) = true) ->
  (0 <? a1) = true -> (a1 <? a2) = true ->
  (0 <? c1) = true ->
  nearestNeighborAnalysis K dataset options1 h = (Returned v1, h1) ->
  nearestNeighborAnalysis K dataset options2 h = (Returned v2, h2) ->
  exists e1 e2,
    analysis_field h1 v1 "expectedMeanDistance" = Some (VNum e1) /\
    analysis_field h2 v2 "expectedMeanDistance" = Some (VNum e2) /\
    e1 = expectedMeanDistance (populationDensity (length fs) c1) /\
    e2 = expectedMeanDistance (populationDensity (length fs) c2) /\
    (populationDensity (length fs) c2 <=? populationDensity (length fs) c1) = true /\
    (e1 <=? e2) = true.
Proof.
  intros Hfs Hn Hsmall Hs1 Hs2 Hu Hg1 Ha1 Hg2 Ha2 Hc1 Hc2 Hmono Ha Ha12 Hc
    [r1 Hran1]%nearestNeighborAnalysis_returned [r2 Hran2]%nearestNeighborAnalysis_returned.
  destruct (ran_count K Hran1 fs Hfs) as [_ Hn1].
  destruct (ran_count K Hran2 fs Hfs) as [_ Hn2].
  assert (run_converted r1 = c1) as Hr1.
  { pose proof (ran_study Hran1) as Hst. rewrite Hs1 in Hst.
    rewrite <- Hst in Hg1. apply (ran_geometry_of K Hran1) in Hg1.
    pose proof (ran_area Hran1) as Ha'.
    pose proof (ran_converted Hran1) as Hc'.
    rewrite Hg1, Ha1 in Ha'. injection Ha' as Ha'. rewrite <- Ha', Hc1 in Hc'. by injection Hc'. }
  assert (run_converted r2 = c2) as Hr2.
  { pose proof (ran_study Hran2) as Hst. rewrite Hs2 in Hst.
    rewrite <- Hst in Hg2. apply (ran_geometry_of K Hran2) in Hg2.
    pose proof (ran_area Hran2) as Ha'.
    pose proof (ran_converted Hran2) as Hc'.
    rewrite Hg2, Ha2 in Ha'. injection Ha' as Ha'. rewrite <- Ha', <- Hu, Hc2 in Hc'.
    by injection Hc'. }
  exists (run_expected r1), (run_expected r2).
  rewrite (ran_analysis_field K Hran1), (ran_analysis_field K Hran2).
  split; [apply (ran_expectedMeanDistance Hran1)|].
  split; [apply (ran_expectedMeanDistance Hran2)|].
  unfold run_expected, run_density. rewrite Hn1, Hn2, Hr1, Hr2.
  split; [done|]. split; [done|].
  apply expectedMeanDistance_ordered; [done|lia|done|].
  apply (Hmono a1 a2); [done|by apply ltb_leb|done..].
Qed.
End Shrinking.

(** * A study area of no area *)

Section ZeroArea.
Context {G : Type} (K : Kernel float G).

Local Abbreviation value := (value float G).
Local Abbreviation heap := (heap float G).

Local Open Scope float_scope.

(** A double above 0 is a positive number or the positive infinity. *)
Lemma positive_cases (x : float) :
  (0 <? x) = true ->
  Prim2SF x = S754_infinity false \/ exists m e, Prim2SF x = S754_finite false m e.
Proof.
  rewrite ltb_spec. change (Prim2SF 0) with (S754_zero false).
  destruct (Prim2SF x) as [[]|[]| |[] m e]; try discriminate; eauto.
Qed.

Lemma positive_div_zero (x : float) : (0 <? x) = true -> x / 0 = infinity.
Proof.
  intros Hx. pose proof (div_spec x 0) as Hd. change (Prim2SF 0) with (S754_zero false) in Hd.
  destruct (positive_cases x Hx) as [Hx' | (m & e & Hx')]; rewrite Hx' in Hd;
    by apply float_of_spec in Hd.
Qed.

Lemma positive_mul_infinity (x : float) : (0 <? x) = true -> x * infinity = infinity.
Proof.
  intros Hx. pose proof (mul_spec x infinity) as Hd.
  change (Prim2SF infinity) with (S754_infinity false) in Hd.
  destruct (positive_cases x Hx) as [Hx' | (m & e & Hx')]; rewrite Hx' in Hd;
    by apply float_of_spec in Hd.
Qed.

(** No quotient by 0 is finite. *)
Lemma div_zero_not_finite (x : float) : is_finite (x / 0) = false.
Proof.
  pose proof (div_spec x 0) as Hd. change (Prim2SF 0) with (S754_zero false) in Hd.
  destruct (Prim2SF x) as [[]|[]| |[] m e]; simpl in Hd; apply float_of_spec in Hd;
    rewrite Hd; by vm_compute.
Qed.

(** X13.  In double precision, a study area whose converted area is 0 (as
    that of the box drawn around features on one horizontal or vertical
    line) makes no call fail: for a dataset that is not empty the
    population density is infinite, [expectedMeanDistance] is 0, and
    [nearestNeighborIndex] and [zScore], quotients by 0, are infinite or
    NaN.  (An array has fewer than 2^32 elements.) *)
Theorem zero_area_not_finite (dataset : value) (options : option Options)
    (h h' : heap) (v : value) (fs : list value) (g : G) (a : float) :
  collection_features dataset h = (Returned fs, h) ->
  (1 <= length fs)%nat ->
  (Z.of_nat (length fs) < 2 ^ 32)%Z ->
  nearestNeighborAnalysis K dataset options h = (Returned v, h') ->
  geometry v h' = (Returned g, h') ->
  area_of K g = Returned a ->
  convert_area K a "meters" (resolved_units options) = Returned 0 ->
  exists index z,
    analysis_field h' v "expectedMeanDistance" = Some (VNum 0) /\
    analysis_field h' v "nearestNeighborIndex" = Some (VNum index) /\
    analysis_field h' v "zScore" = Some (VNum z) /\
    is_finite index = false /\
    is_finite z = false.
Proof.
  intros Hfs Hone Hsmall [r Hran]%nearestNeighborAnalysis_returned Hg Ha Hc.
  assert ((0 <? num_of_nat (length fs)) = true) as Hn by (apply positive_count; lia).
  destruct (ran_count K Hran fs Hfs) as [_ Hlen].
  pose proof (ran_converted_of K _ _ _ _ _ _ g a 0 Hran Hg Ha Hc) as Hconv.
  assert (run_density r = infinity) as Hrho.
  { unfold run_density, populationDensity. rewrite Hlen, Hconv.
    by apply positive_div_zero. }
  assert (run_expected r = 0) as Hexp.
  { unfold run_expected. rewrite Hrho. by vm_compute. }
  assert (run_variance r = 0) as Hvar.
  { unfold run_variance, variance. rewrite Hrho, Hlen.
    change (num_of_nat (length fs) * infinity)%num with (num_of_nat (length fs) * infinity).
    rewrite (positive_mul_infinity _ Hn). by vm_compute. }
  exists (run_observed r / 0), ((run_observed r - 0) / 0).
  rewrite !(ran_analysis_field K Hran).
  rewrite (ran_expectedMeanDistance Hran), (ran_nearestNeighborIndex Hran),
    (ran_zScore Hran), Hexp, Hvar.
  repeat split; try done; apply div_zero_not_finite.
Qed.
End ZeroArea.

(** * The import helper *)

Section ImportHelper.
Import Interop.

(** X12.  The helper never throws, not even for [null] or [undefined],
    and [default] can be read off what it returns: a module compiled from
    ECMAScript (an object whose [__esModule] is true) is returned as it is,
    with the [default] it has; anything else is wrapped in a new object
    whose [default] it is. *)
Theorem importDefault_default (module : js) :
  exists imported d,
    __importDefault module = Returned imported /\
    get imported "default" = Returned d /\
    (esModule module = true -> imported = module) /\
    (esModule module = false ->
       imported = JObject {["default" := module]} /\ d = module).
Proof.
  assert (forall m : js, get (JObject {["default" := m]}) "default" = Returned m) as Hwrapped.
  { intros m. simpl. by rewrite lookup_singleton_eq. }
  unfold __importDefault.
  destruct module as [| |b|x|s|members]; simpl.
  - by exists (JObject {["default" := JUndefined]}), JUndefined.
  - by exists (JObject {["default" := JNull]}), JNull.
  - exists (JObject {["default" := JBool b]}), (JBool b).
    split; [by destruct b|]. by rewrite Hwrapped.
  - exists (JObject {["default" := JNum x]}), (JNum x).
    split; [|by rewrite Hwrapped].
    destruct (negb (is_zero x || is_nan x)) eqn:Hx; simpl; [done | by rewrite Hx].
  - exists (JObject {["default" := JStr s]}), (JStr s).
    split; [|by rewrite Hwrapped].
    destruct (negb (String.eqb s "")) eqn:Hs; simpl; [done | by rewrite Hs].
  - destruct (truthy (default JUndefined (members !! "__esModule"))) eqn:Hflag.
    + by exists (JObject members), (default JUndefined (members !! "default")).
    + exists (JObject {["default" := JObject members]}), (JObject members).
      by rewrite Hwrapped.
Qed.
End ImportHelper.

(** * When the call returns *)

Section Returning.
Context {T G : Type} `{Number T} (K : Kernel T G).

Local Abbreviation value := (value T G).
Local Abbreviation heap := (heap T G).
Local Abbreviation M := (M T G).





End Returning.

(** * The examples, run *)

Section FloatExamples.
Local Abbreviation value := (value float (plane float)).
Local Open Scope float_scope.

(** Scenario 1 of the specification: four points on a square of side one
    kilometre, no study area given. *)
Example square_scenario :
  fst square_call = Returned square_study /\
  analysis_field (snd square_call) square_study "numberOfPoints" = Some (VNum 4) /\
  analysis_field (snd square_call) square_study "observedMeanDistance" = Some (VNum 1) /\
  analysis_field (snd square_call) square_study "expectedMeanDistance" = Some (VNum 0.25) /\
  analysis_field (snd square_call) square_study "nearestNeighborIndex" = Some (VNum 4) /\
  analysis_field (snd square_call) square_study "units" = Some (VStr "kilometers") /\
  analysis_field (snd square_call) square_study "arealUnits" = Some (VStr "kilometers²").
Proof. vm_compute. repeat split. Qed.

Lemma square_call_returned : square_call = (Returned square_study, snd square_call).
Proof. vm_compute. reflexivity. Defined.

Lemma square_features_read :
  collection_features square_dataset float_store = (Returned square_features, float_store).
Proof. vm_compute. reflexivity. Defined.

Lemma expectedMeanDistance_closed_form_witness :
  exists g a convertedArea,
    geometry square_study (snd square_call) = (Returned g, snd square_call) /\
    area_of planar g = Returned a /\
    convert_area planar a "meters" (resolved_units None) = Returned convertedArea /\
    analysis_field (snd square_call) square_study "expectedMeanDistance" =
      Some (VNum (num_of_nat 1 /
                  (num_of_nat 2 *
                   num_sqrt (num_of_nat (length square_features) / convertedArea)))%num).
Proof.
  exact (expectedMeanDistance_closed_form planar square_dataset None float_store
           (snd square_call) square_study square_features
           square_features_read square_call_returned).
Defined.

Lemma zScore_formula_witness :
  exists g a convertedArea observed expected,
    geometry square_study (snd square_call) = (Returned g, snd square_call) /\
    area_of planar g = Returned a /\
    convert_area planar a "meters" (resolved_units None) = Returned convertedArea /\
    analysis_field (snd square_call) square_study "observedMeanDistance" = Some (VNum observed) /\
    analysis_field (snd square_call) square_study "expectedMeanDistance" = Some (VNum expected) /\
    analysis_field (snd square_call) square_study "zScore" =
      Some (VNum ((observed - expected) /
                  (num_0_26136 /
                   num_sqrt (num_of_nat (length square_features) *
                             (num_of_nat (length square_features) / convertedArea))))%num).
Proof.
  exact (zScore_formula planar square_dataset None float_store
           (snd square_call) square_study square_features
           square_features_read square_call_returned).
Defined.

Lemma nearestNeighborIndex_ratio_witness :
  exists observed expected,
    analysis_field (snd square_call) square_study "observedMeanDistance" = Some (VNum observed) /\
    analysis_field (snd square_call) square_study "expectedMeanDistance" = Some (VNum expected) /\
    analysis_field (snd square_call) square_study "nearestNeighborIndex" =
      Some (VNum (observed / expected)%num).
Proof.
  exact (nearestNeighborIndex_ratio planar square_dataset None float_store
           (snd square_call) square_study square_call_returned).
Defined.

Lemma numberOfPoints_counts_features_witness :
  analysis_field (snd square_call) square_study "numberOfPoints" =
  Some (VNum (num_of_nat (length square_features))).
Proof.
  exact (numberOfPoints_counts_features planar square_dataset None float_store
           (snd square_call) square_study square_features
           square_features_read square_call_returned).
Defined.

Lemma custom_call_returned : custom_call = (Returned (VRef first_area), snd custom_call).
Proof. vm_compute. reflexivity. Defined.

Lemma first_area_read : float_store !! first_area = Some first_area_object.
Proof. vm_compute. reflexivity. Defined.

(** Scenarios 4 and 5 of the specification: custom properties and a study
    area given. *)
Example custom_scenario :
  fst custom_call = Returned (VRef first_area) /\
  property_bag (snd custom_call) (VRef first_area) = Some custom_properties /\
  field (snd custom_call) custom_properties "foo" = Some (VStr "bar") /\
  field (snd custom_call) custom_properties "nearestNeighborAnalysis" = Some (VRef 41) /\
  field (snd custom_call) custom_properties "name" = None /\
  field (snd custom_call) first_area "geometry" = Some (VGeom (rectangle 2000)).
Proof. vm_compute. repeat split. Qed.

Lemma studyArea_returned_in_place_witness :
  VRef first_area = VRef first_area :> value /\
  exists o' p,
    snd custom_call !! first_area = Some o' /\
    items o' = items first_area_object /\
    fields o' !! "geometry" = fields first_area_object !! "geometry" /\
    fields o' !! "properties" = Some (VRef p) /\
    (forall k, k <> "properties" -> k <> "nearestNeighborAnalysis" ->
       fields o' !! k = fields first_area_object !! k) /\
    (p <> first_area -> forall k, k <> "properties" ->
       fields o' !! k = fields first_area_object !! k) /\
    (forall l ol, float_store !! l = Some ol -> l <> first_area -> l <> p ->
       snd custom_call !! l = Some ol).
Proof.
  exact (studyArea_returned_in_place planar pair_dataset
           (within_with first_area custom_properties) float_store (snd custom_call)
           (VRef first_area) first_area first_area_object
           eq_refl first_area_read custom_call_returned).
Defined.

Lemma custom_properties_allocated :
  forall p0, Some custom_properties = Some p0 -> is_Some (float_store !! p0).
Proof. intros p0 [= <-]. vm_compute. eexists. reflexivity. Defined.

Lemma property_bag_replaced_witness :
  exists p r,
    property_bag (snd custom_call) (VRef first_area) = Some p /\
    field (snd custom_call) p "nearestNeighborAnalysis" = Some (VRef r) /\
    float_store !! r = None /\
    (p = custom_properties /\
     forall k, k <> "nearestNeighborAnalysis" ->
       custom_properties <> first_area \/ k <> "properties" ->
       field (snd custom_call) p k = field float_store custom_properties k) /\
    (forall q oq, property_bag float_store (VRef first_area) = Some q ->
       float_store !! q = Some oq -> q <> p -> q <> first_area ->
       snd custom_call !! q = Some oq).
Proof.
  exact (property_bag_replaced planar pair_dataset
           (within_with first_area custom_properties) float_store (snd custom_call)
           (VRef first_area) first_area
           eq_refl custom_properties_allocated custom_call_returned).
Defined.

(** A study area that was analysed before, and no [options.properties]:
    the returned feature has a new bag with the new result, and nothing of
    the former bag. *)
Example analysed_before_scenario :
  property_bag float_store (VRef first_area) = Some 7%positive /\
  field float_store 7 "nearestNeighborAnalysis" = Some (VStr "stale") /\
  opt_properties (default no_options (within first_area)) = None /\
  fst first_call = Returned (VRef first_area) /\
  property_bag (snd first_call) (VRef first_area) = Some 28%positive /\
  field (snd first_call) 28 "nearestNeighborAnalysis" = Some (VRef 42) /\
  field (snd first_call) 28 "name" = None.
Proof. vm_compute. repeat split. Qed.
End FloatExamples.

Section DegenerateExamples.
Local Abbreviation value := (value float (plane float)).
Local Open Scope float_scope.

(** C7, the counterexample: with a single feature in the dataset the call
    throws.  The collection of the other features is empty, and the search
    has no member to return. *)
Lemma single_feature_throws :
  collection_features single_dataset float_store = (Returned [VRef 24], float_store) /\
  fst single_call = Thrown (Error "geojson is required").
Proof. vm_compute. split; reflexivity. Qed.

Lemma empty_dataset_read :
  collection_features empty_dataset float_store = (Returned [], float_store).
Proof. vm_compute. reflexivity. Defined.

Lemma no_properties_given :
  forall p0, opt_properties (default no_options (within first_area)) = Some p0 ->
             is_Some (float_store !! p0).
Proof. intros p0. simpl. discriminate. Defined.

Lemma first_area_studied :
  study_geometry planar empty_dataset (within first_area) float_store (rectangle 2000).
Proof. vm_compute. reflexivity. Defined.

Lemma first_area_measured : area_of planar (rectangle 2000) = Returned 2000000.
Proof. vm_compute. reflexivity. Defined.

Lemma first_area_converted :
  convert_area planar 2000000 "meters" (resolved_units (within first_area)) = Returned 2.
Proof. vm_compute. reflexivity. Defined.

Lemma empty_dataset_not_finite_witness :
  exists v h' expected,
    empty_call = (Returned v, h') /\
    (forall s, opt_studyArea (default no_options (within first_area)) = Some s -> v = VRef s) /\
    geometry v h' = (Returned (rectangle 2000), h') /\
    analysis_field h' v "numberOfPoints" = Some (VNum 0) /\
    analysis_field h' v "observedMeanDistance" = Some (VNum nan) /\
    analysis_field h' v "expectedMeanDistance" = Some (VNum expected) /\
    is_finite expected = false /\
    analysis_field h' v "nearestNeighborIndex" = Some (VNum nan) /\
    analysis_field h' v "zScore" = Some (VNum nan).
Proof.
  exact (empty_dataset_not_finite planar empty_dataset (within first_area) float_store
           (rectangle 2000) 2000000 2
           empty_dataset_read no_properties_given
           first_area_studied first_area_measured first_area_converted).
Defined.

(** The empty dataset in the first study area: the expected distance is
    an infinity. *)
Example empty_scenario :
  fst empty_call = Returned (VRef first_area) /\
  analysis_field (snd empty_call) (VRef first_area) "expectedMeanDistance" =
    Some (VNum infinity).
Proof. vm_compute. split; reflexivity. Qed.

(** C8, the counterexample: the first study area is smaller than the
    second, both areas are positive, the dataset is the same, and both
    calls store the same [expectedMeanDistance]. *)
Lemma smaller_study_area_same_expectedMeanDistance :
  fst (area planar (VRef first_area) float_store) = Returned 2000000 /\
  fst (area planar (VRef second_area) float_store) = Returned (next_up 2000000) /\
  (0 <? 2000000) = true /\
  (2000000 <? next_up 2000000) = true /\
  fst first_call = Returned (VRef first_area) /\
  fst second_call = Returned (VRef second_area) /\
  analysis_field (snd first_call) (VRef first_area) "numberOfPoints" = Some (VNum 2) /\
  analysis_field (snd second_call) (VRef second_area) "numberOfPoints" = Some (VNum 2) /\
  analysis_field (snd first_call) (VRef first_area) "expectedMeanDistance" = Some (VNum 0.5) /\
  analysis_field (snd second_call) (VRef second_area) "expectedMeanDistance" = Some (VNum 0.5).
Proof. vm_compute. repeat split. Qed.
End DegenerateExamples.

Section ShrinkingExamples.
Local Abbreviation value := (value float (plane float)).
Local Open Scope float_scope.

(** The conversion of the planar kernel, a quotient and a product by
    positive numbers, keeps the order of positive areas. *)
Lemma planar_convert_area_ordered (units : string) (x y cx cy : float) :
  (0 <? x) = true -> (x <=? y) = true ->
  convert_area planar x "meters" units = Returned cx ->
  convert_area planar y "meters" units = Returned cy ->
  (cx <=? cy) = true.
Proof.
  intros Hx Hxy. simpl. unfold planar_convert_area.
  change (area_factor "meters") with (Some 1 : option float).
  assert (forall f : float, positive_number (Prim2SF f) ->
            Returned (x / 1 * f) = Returned cx -> Returned (y / 1 * f) = Returned cy ->
            (cx <=? cy) = true) as Hfactor.
  { intros f Hf [= <-] [= <-].
    rewrite leb_spec, !mul_spec, !div_spec. rewrite leb_spec in Hxy.
    destruct (SFdiv_monotone (Prim2SF 1) (Prim2SF x) (Prim2SF y))
      as (Nx & Ny & Hq); [done|by apply positive_double|
                          by apply (above_positive_double x); [|rewrite leb_spec]|done|].
    by destruct (SFmul_monotone_r (Prim2SF f) _ _ Hf Nx Ny Hq) as (_ & _ & Hp). }
  unfold area_factor.
  destruct (String.eqb units "meters"); [by apply Hfactor|].
  destruct (String.eqb units "kilometers"); [|done].
  by apply Hfactor.
Qed.

Lemma doubling_pair_read :
  collection_features pair_dataset doubling_store = (Returned [VRef 2; VRef 4], doubling_store).
Proof. vm_compute. reflexivity. Defined.

Lemma narrow_area_geometry :
  geometry (VRef first_area) doubling_store = (Returned (rectangle 1000), doubling_store).
Proof. vm_compute. reflexivity. Defined.

Lemma wide_area_geometry :
  geometry (VRef second_area) doubling_store = (Returned (rectangle 2000), doubling_store).
Proof. vm_compute. reflexivity. Defined.

Lemma narrow_area_measured : area_of planar (rectangle 1000) = Returned 1000000.
Proof. vm_compute. reflexivity. Defined.

Lemma narrow_area_converted :
  convert_area planar 1000000 "meters" (resolved_units (within first_area)) = Returned 1.
Proof. vm_compute. reflexivity. Defined.

Lemma narrow_call_returned : narrow_call = (Returned (VRef first_area), snd narrow_call).
Proof. vm_compute. reflexivity. Defined.

Lemma wide_call_returned : wide_call = (Returned (VRef second_area), snd wide_call).
Proof. vm_compute. reflexivity. Defined.

Lemma smaller_study_area_not_greater_witness :
  exists e1 e2,
    analysis_field (snd narrow_call) (VRef first_area) "expectedMeanDistance" =
      Some (VNum e1) /\
    analysis_field (snd wide_call) (VRef second_area) "expectedMeanDistance" =
      Some (VNum e2) /\
    e1 = expectedMeanDistance (populationDensity 2 1) /\
    e2 = expectedMeanDistance (populationDensity 2 2) /\
    (populationDensity 2 2 <=? populationDensity 2 1) = true /\
    (e1 <=? e2) = true.
Proof.
  refine (smaller_study_area_not_greater planar pair_dataset
            (within first_area) (within second_area)
            doubling_store (snd narrow_call) (snd wide_call)
            (VRef first_area) (VRef second_area) [VRef 2; VRef 4] first_area second_area
            (rectangle 1000) (rectangle 2000) 1000000 2000000 1 2
            doubling_pair_read _ _ eq_refl eq_refl eq_refl
            narrow_area_geometry narrow_area_measured
            wide_area_geometry first_area_measured
            narrow_area_converted first_area_converted
            (planar_convert_area_ordered _) eq_refl eq_refl eq_refl
            narrow_call_returned wide_call_returned).
  - simpl. lia.
  - simpl. lia.
Defined.

(** With the second study area twice the first, the stored distance does
    get smaller with the area. *)
Example doubling_scenario :
  analysis_field (snd narrow_call) (VRef first_area) "expectedMeanDistance" =
    Some (VNum (expectedMeanDistance (populationDensity 2 1))) /\
  analysis_field (snd wide_call) (VRef second_area) "expectedMeanDistance" =
    Some (VNum 0.5) /\
  (expectedMeanDistance (populationDensity 2 1) <? 0.5) = true.
Proof. vm_compute. repeat split. Qed.
End ShrinkingExamples.


(** ** Further examples, in double precision *)

Section FurtherExamples.
Local Abbreviation value := (value float (plane float)).
Local Open Scope float_scope.

Lemma first_call_returned : first_call = (Returned (VRef first_area), snd first_call).
Proof. vm_compute. reflexivity. Defined.

Lemma pair_refs_read :
  collection_features pair_dataset float_store = (Returned pair_refs, float_store).
Proof. vm_compute. reflexivity. Defined.

Lemma pair_refs_geometries : geometries pair_refs float_store = (Returned pair, float_store).
Proof. vm_compute. reflexivity. Defined.

Lemma first_area_allocated :
  forall s, opt_studyArea (default no_options (within first_area)) = Some s ->
            is_Some (float_store !! s).
Proof. intros s. simpl. intros [= <-]. vm_compute. eexists. reflexivity. Defined.

Lemma second_area_allocated :
  forall s, opt_studyArea (default no_options (within second_area)) = Some s ->
            is_Some (float_store !! s).
Proof. intros s. simpl. intros [= <-]. vm_compute. eexists. reflexivity. Defined.

Lemma single_call_thrown :
  single_call = (Thrown (Error "geojson is required"), snd single_call).
Proof. vm_compute. reflexivity. Defined.

Lemma not_an_assignment :
  Error "geojson is required" <> TypeError "Cannot create or set property".
Proof. discriminate. Defined.

Lemma thrown_call_keeps_store_witness :
  fst single_call = Thrown (Error "geojson is required") /\
  float_store ⊆ snd single_call.
Proof.
  split; [vm_compute; reflexivity|].
  exact (thrown_call_keeps_store planar single_dataset (within first_area) float_store
           (snd single_call) (Error "geojson is required")
           first_area_allocated no_properties_given single_call_thrown not_an_assignment).
Defined.

Lemma derived_study_area_witness :
  exists s g,
    square_study = VRef s /\ float_store !! s = None /\
    bounding_polygon planar square_dataset float_store g /\
    geometry square_study (snd square_call) = (Returned g, snd square_call) /\
    forall l o, float_store !! l = Some o ->
      opt_properties (default no_options None) <> Some l -> snd square_call !! l = Some o.
Proof.
  exact (derived_study_area planar square_dataset None float_store (snd square_call)
           square_study eq_refl square_call_returned).
Defined.

Lemma meters_call_returned : meters_call = (Returned (VRef first_area), snd meters_call).
Proof. vm_compute. reflexivity. Defined.

Lemma units_recorded_witness :
  exists units,
    units = resolved_units (within_in first_area "meters") /\
    analysis_field (snd meters_call) (VRef first_area) "units" = Some (VStr units) /\
    analysis_field (snd meters_call) (VRef first_area) "arealUnits" =
      Some (VStr (units ++ "²")%string) /\
    (forall u, opt_units (default no_options (within_in first_area "meters")) = Some u ->
       u <> "" -> units = u) /\
    (opt_units (default no_options (within_in first_area "meters")) = None \/
     opt_units (default no_options (within_in first_area "meters")) = Some "" ->
     units = "kilometers").
Proof.
  exact (units_recorded planar pair_dataset (within_in first_area "meters") float_store
           (snd meters_call) (VRef first_area) meters_call_returned).
Defined.

(** Measured in metres. *)
Example meters_scenario :
  analysis_field (snd meters_call) (VRef first_area) "units" = Some (VStr "meters") /\
  analysis_field (snd meters_call) (VRef first_area) "arealUnits" = Some (VStr "meters²") /\
  analysis_field (snd meters_call) (VRef first_area) "observedMeanDistance" =
    Some (VNum 1000).
Proof. vm_compute. repeat split. Qed.

Lemma two_features_observed_witness :
  exists c0 c1 d01 d10,
    centroid_of planar (Point 0 0) = Returned c0 /\
    centroid_of planar (Point 1000 0) = Returned c1 /\
    distance_between planar c0 c1 (resolved_units (within first_area)) = Returned d01 /\
    distance_between planar c1 c0 (resolved_units (within first_area)) = Returned d10 /\
    analysis_field (snd first_call) (VRef first_area) "observedMeanDistance" =
      Some (VNum ((num_of_nat 0 + d01 + d10) / num_of_nat 2)%num).
Proof.
  exact (two_features_observed planar pair_dataset (within first_area) float_store
           (snd first_call) (VRef first_area) (VRef 2) (VRef 4) (Point 0 0) (Point 1000 0)
           pair_refs_read pair_refs_geometries first_call_returned).
Defined.

Lemma custom_call_then_second_returned :
  custom_call_then_second = (Returned (VRef second_area), snd custom_call_then_second).
Proof. vm_compute. reflexivity. Defined.

Lemma areas_differ : VRef first_area <> VRef second_area :> value.
Proof. unfold first_area, second_area. discriminate. Defined.

Lemma first_area_not_custom : VRef first_area <> VRef custom_properties :> value.
Proof. unfold first_area, custom_properties. discriminate. Defined.

Lemma shared_properties_share_result_witness :
  property_bag (snd custom_call_then_second) (VRef first_area) = Some custom_properties /\
  property_bag (snd custom_call_then_second) (VRef second_area) = Some custom_properties /\
  forall k, analysis_field (snd custom_call_then_second) (VRef first_area) k =
            analysis_field (snd custom_call_then_second) (VRef second_area) k.
Proof.
  exact (shared_properties_share_result planar pair_dataset pair_dataset
           (within_with first_area custom_properties)
           (within_with second_area custom_properties)
           float_store (snd custom_call) (snd custom_call_then_second)
           (VRef first_area) (VRef second_area) custom_properties
           eq_refl eq_refl custom_call_returned custom_call_then_second_returned
           areas_differ first_area_not_custom).
Defined.

Lemma first_call_then_second_returned :
  first_call_then_second = (Returned (VRef second_area), snd first_call_then_second).
Proof. vm_compute. reflexivity. Defined.

Lemma earlier_result_kept_witness :
  fst first_call_then_second = Returned (VRef second_area) /\
  forall k, analysis_field (snd first_call_then_second) (VRef first_area) k =
            analysis_field (snd first_call) (VRef first_area) k.
Proof.
  split; [vm_compute; reflexivity|].
  exact (earlier_result_kept planar pair_dataset pair_dataset
           (within first_area) (within second_area)
           float_store (snd first_call) (snd first_call_then_second)
           (VRef first_area) (VRef second_area)
           first_call_returned first_call_then_second_returned
           eq_refl areas_differ second_area_allocated).
Defined.

Lemma first_call_geometry :
  geometry (VRef first_area) (snd first_call) = (Returned (rectangle 2000), snd first_call).
Proof. vm_compute. reflexivity. Defined.

Lemma custom_call_geometry :
  geometry (VRef first_area) (snd custom_call) = (Returned (rectangle 2000), snd custom_call).
Proof. vm_compute. reflexivity. Defined.

Lemma same_geometries_same_result_witness :
  fst custom_call = Returned (VRef first_area) /\
  forall k, In k result_keys ->
    analysis_field (snd first_call) (VRef first_area) k =
    analysis_field (snd custom_call) (VRef first_area) k.
Proof.
  split; [vm_compute; reflexivity|].
  exact (same_geometries_same_result planar pair_dataset pair_dataset
           (within first_area) (within_with first_area custom_properties)
           float_store (snd first_call) float_store (snd custom_call)
           (VRef first_area) (VRef first_area) pair_refs pair_refs pair (rectangle 2000)
           pair_refs_read pair_refs_geometries pair_refs_read pair_refs_geometries
           eq_refl first_call_returned custom_call_returned
           first_call_geometry custom_call_geometry).
Defined.

Lemma first_call_again_returned :
  first_call_again = (Returned (VRef first_area), snd first_call_again).
Proof. vm_compute. reflexivity. Defined.

Lemma repeated_call_same_result_witness :
  VRef first_area = VRef first_area :> value /\
  forall k, In k result_keys ->
    analysis_field (snd first_call_again) (VRef first_area) k =
    analysis_field (snd first_call) (VRef first_area) k.
Proof.
  exact (repeated_call_same_result planar pair_dataset (within first_area) (within first_area)
           float_store (snd first_call) (snd first_call_again)
           (VRef first_area) (VRef first_area) first_area pair_refs pair
           pair_refs_read pair_refs_geometries first_call_returned
           eq_refl eq_refl eq_refl first_call_again_returned).
Defined.

Lemma blurred_pair_read :
  collection_features pair_dataset nan_store = (Returned pair_refs, nan_store).
Proof. vm_compute. reflexivity. Defined.

Lemma blurred_pair_geometries :
  geometries pair_refs nan_store = (Returned blurred_pair, nan_store).
Proof. vm_compute. reflexivity. Defined.

Lemma nan_call_returned : nan_call = (Returned (VRef first_area), snd nan_call).
Proof. vm_compute. reflexivity. Defined.

Lemma nan_distance_spreads_witness :
  exists (centroids : list (plane float)) (distances : list float),
    Forall2 (fun g c => centroid_of planar g = Returned c) blurred_pair centroids /\
    length distances = length pair_refs /\
    (forall i d, distances !! i = Some d ->
       measured planar centroids (resolved_units (within first_area)) i d) /\
    (In nan distances ->
       analysis_field (snd nan_call) (VRef first_area) "observedMeanDistance" =
         Some (VNum nan) /\
       analysis_field (snd nan_call) (VRef first_area) "nearestNeighborIndex" =
         Some (VNum nan) /\
       analysis_field (snd nan_call) (VRef first_area) "zScore" = Some (VNum nan)).
Proof.
  exact (nan_distance_spreads planar pair_dataset (within first_area) nan_store
           (snd nan_call) (VRef first_area) pair_refs blurred_pair
           blurred_pair_read blurred_pair_geometries nan_call_returned).
Defined.

(** A coordinate that is not a number: so are both distances, and the
    three members. *)
Example nan_scenario :
  distance_between planar (Point nan 0) (Point 1000 0) "kilometers" = Returned nan /\
  distance_between planar (Point 1000 0) (Point nan 0) "kilometers" = Returned nan /\
  analysis_field (snd nan_call) (VRef first_area) "observedMeanDistance" = Some (VNum nan) /\
  analysis_field (snd nan_call) (VRef first_area) "nearestNeighborIndex" = Some (VNum nan) /\
  analysis_field (snd nan_call) (VRef first_area) "zScore" = Some (VNum nan).
Proof. vm_compute. repeat split. Qed.

Lemma boxed_pair_call_returned :
  boxed_pair_call = (Returned boxed_pair_study, snd boxed_pair_call).
Proof. vm_compute. reflexivity. Defined.

Lemma boxed_pair_geometry :
  geometry boxed_pair_study (snd boxed_pair_call) = (Returned flat_box, snd boxed_pair_call).
Proof. vm_compute. reflexivity. Defined.

Lemma flat_box_area : area_of planar flat_box = Returned 0.
Proof. vm_compute. reflexivity. Defined.

Lemma flat_box_converted :
  convert_area planar 0 "meters" (resolved_units None) = Returned 0.
Proof. vm_compute. reflexivity. Defined.

Lemma zero_area_not_finite_witness :
  exists index z,
    analysis_field (snd boxed_pair_call) boxed_pair_study "expectedMeanDistance" =
      Some (VNum 0) /\
    analysis_field (snd boxed_pair_call) boxed_pair_study "nearestNeighborIndex" =
      Some (VNum index) /\
    analysis_field (snd boxed_pair_call) boxed_pair_study "zScore" = Some (VNum z) /\
    is_finite index = false /\
    is_finite z = false.
Proof.
  refine (zero_area_not_finite planar pair_dataset None float_store (snd boxed_pair_call)
            boxed_pair_study pair_refs flat_box 0
            pair_refs_read _ _ boxed_pair_call_returned
            boxed_pair_geometry flat_box_area flat_box_converted).
  - simpl. lia.
  - reflexivity.
Defined.

(** Two points on one horizontal line and no study area given. *)
Example boxed_pair_scenario :
  fst boxed_pair_call = Returned boxed_pair_study /\
  analysis_field (snd boxed_pair_call) boxed_pair_study "observedMeanDistance" =
    Some (VNum 1) /\
  analysis_field (snd boxed_pair_call) boxed_pair_study "expectedMeanDistance" =
    Some (VNum 0) /\
  analysis_field (snd boxed_pair_call) boxed_pair_study "nearestNeighborIndex" =
    Some (VNum infinity) /\
  analysis_field (snd boxed_pair_call) boxed_pair_study "zScore" = Some (VNum infinity).
Proof. vm_compute. repeat split. Qed.

Lemma single_feature_read :
  collection_features single_dataset float_store = (Returned [VRef 24], float_store).
Proof. vm_compute. reflexivity. Defined.

Lemma single_feature_never_returns_witness :
  fst single_call = Thrown (Error "geojson is required") /\
  forall v h', single_call <> (Returned v, h').
Proof.
  split; [vm_compute; reflexivity|]. intros v h'.
  exact (single_feature_never_returns planar single_dataset (within first_area) float_store
           h' v (VRef 24) single_feature_read).
Defined.

(** C4, the counterexample: two features with no position in common,
    two concentric squares, have the same centroid; the call returns, both
    nearest-neighbour distances are 0, and so is [observedMeanDistance]. *)
Lemma concentric_squares_zero_distance :
  geometries pair_refs squares_store = (Returned [inner_square; outer_square], squares_store) /\
  shares_position inner_square outer_square = false /\
  centroid_of planar inner_square = Returned (Point 0 0) /\
  centroid_of planar outer_square = Returned (Point 0 0) /\
  distance_between planar (Point 0 0) (Point 0 0) "kilometers" = Returned 0 /\
  fst squares_call = Returned (VRef first_area) /\
  analysis_field (snd squares_call) (VRef first_area) "numberOfPoints" = Some (VNum 2) /\
  analysis_field (snd squares_call) (VRef first_area) "observedMeanDistance" =
    Some (VNum 0).
Proof. vm_compute. repeat split. Qed.

(** In double precision the distance is 0 between two different points as
    well, when they are close enough for the squares to underflow. *)
Example close_points_zero_distance :
  shares_position (Point 0 0) (Point 0x1p-600 0) = false /\
  distance_between planar (Point 0 0) (Point 0x1p-600 0) "meters" = Returned 0.
Proof. vm_compute. split; reflexivity. Qed.

Lemma self_exclusion_witness :
  exists (centroids : list (plane float)) (distances : list float),
    Forall2 (fun g c => centroid_of planar g = Returned c) pair centroids /\
    length distances = length pair_refs /\
    analysis_field (snd first_call) (VRef first_area) "observedMeanDistance" =
      Some (VNum (sum distances / num_of_nat (length pair_refs))%num) /\
    forall i d, distances !! i = Some d ->
      exists c k near j,
        centroids !! i = Some c /\
        nearest_index planar c (delete i centroids) = Returned k /\
        delete i centroids !! k = Some near /\
        j <> i /\ centroids !! j = Some near /\
        distance_between planar c near (resolved_units (within first_area)) = Returned d.
Proof.
  exact (self_exclusion planar pair_dataset (within first_area) float_store
           (snd first_call) (VRef first_area) pair_refs pair
           pair_refs_read pair_refs_geometries first_call_returned).
Defined.




End FurtherExamples.

